(** * api-fidelidad: points ledger, QR tokens and reward redemption

    A shallow embedding of the controllers and services of the loyalty
    API (Express + Mongoose) and the properties of its ledger core.

    Conventions of the embedding
    - A Mongo collection is a finite map from [_id] to document; the
      [canjes] and [transacciones] collections are only ever appended to
      by the modelled handlers, so they are lists and the [_id] of a
      canje is its position.
    - JavaScript numbers are binary64 doubles.  In the handlers below
      points, stock and counters are whole numbers, [Z]: a double holds
      every whole number of magnitude up to 2^53 and adds and subtracts
      such numbers exactly, so these handlers are the code on the
      databases whose numbers are whole and stay in that range
      ([EnRango]).  The schemas, however, accept any number: what the
      code does with points that are not whole is in the module
      [Doble], where the same handlers run on the kernel's binary64
      floats.  Amounts of money are the rationals that doubles denote,
      and quotients and products of them are rounded as binary64
      rounds ([redondear]; NaN, the infinities and the subnormal range
      are outside the model).  A [Date] is the number of milliseconds
      it denotes.
    - A request handler is a function from the database to a response
      and the database it leaves.  A rejected promise is an exception:
      every write made before it stays in the database, as in the
      source, where no handler opens a transaction. *)

From Stdlib Require Import ZArith QArith Qround Lia Sorting.Sorted.
From Stdlib Require Strings.Ascii Strings.Byte.
From Stdlib Require Floats Qcanon.
From stdpp Require Import gmap strings list.

Local Open Scope Z_scope.

Set Warnings "-inexact-float".

(** ** Documents *)

(** An [ObjectId], and a [Date] in milliseconds. *)
Abbreviation Id := nat (only parsing).
Abbreviation Fecha := Z (only parsing).

(** [Usuario.puntosPorEmpresa[i]]; [pe_empresa] is [None] when the
    reference is null, which is what the [pe.empresa &&] guards test.
    The points, here and in the documents below, are whole numbers;
    [Doble.PuntosEmpresa] and its companions have them as doubles. *)
Record PuntosEmpresa := {
  pe_empresa : option Id;
  pe_puntos : Z;
  pe_ultimaTransaccion : Fecha
}.

Record ConfiguracionPuntos := {
  gastoRequerido : Q;
  puntosOtorgados : Z
}.

(** models/Usuario.js, the fields the ledger reads or writes. *)
Record Usuario := {
  u_activo : bool;
  u_puntos : Z;
  u_puntosPorEmpresa : list PuntosEmpresa;
  u_totalTransacciones : Z;
  u_totalIngresos : Q;
  u_configuracionPuntos : option ConfiguracionPuntos
}.

(** models/QrToken.js; the collection is keyed by the unique [token]. *)
Record QrToken := {
  q_clienteId : Id;
  q_expiraEn : Fecha;
  q_usado : bool;
  q_usadoPor : option Id
}.

(** models/Recompensa.js; [r_stock = -1] means unlimited.  The schema
    takes any number from 1 up for [puntosRequeridos] and from -1 up
    for [stock]; these are the rewards whose numbers are whole, and
    [Doble.Recompensa] the others. *)
Record Recompensa := {
  r_empresa : Id;
  r_puntosRequeridos : Z;
  r_stock : Z;
  r_activo : bool;
  r_canjesRealizados : Z
}.

Inductive Estado := pendiente | entregado | cancelado.

(** models/Canje.js *)
Record Canje := {
  c_cliente : Id;
  c_recompensa : Id;
  c_empresa : Id;
  c_puntosCanjeados : Z;
  c_puntosAnteriores : Z;
  c_puntosRestantes : Z;
  c_codigoCanje : string;
  c_estado : Estado;
  c_fechaEntrega : option Fecha
}.

(** models/Transaccion.js *)
Record Transaccion := {
  t_cliente : Id;
  t_empresa : Id;
  t_monto : Q;
  t_puntosOtorgados : Z;
  t_puntosAnteriores : Z;
  t_puntosNuevos : Z;
  t_qrToken : string
}.

Record BD := {
  usuarios : gmap Id Usuario;
  qrtokens : gmap string QrToken;
  recompensas : gmap Id Recompensa;
  canjes : list Canje;
  transacciones : list Transaccion
}.

#[global] Instance Estado_eq_dec : EqDecision Estado.
Proof. solve_decision. Defined.

(** ** Schema validators run by [save()] *)

(** Usuario: [puntos: { min: 0 }]. *)
Definition valida_usuario (u : Usuario) : bool := 0 <=? u_puntos u.

(** Transaccion: [monto: { min: 0.01 }], [puntosOtorgados: { min: 0 }]. *)
Definition valida_transaccion (t : Transaccion) : bool :=
  Qle_bool (Qmake 1 100) (t_monto t) && (0 <=? t_puntosOtorgados t).

(** Canje: [puntosCanjeados: { min: 1 }]. *)
Definition valida_canje (c : Canje) : bool := 1 <=? c_puntosCanjeados c.

(** Recompensa: [stock: { min: -1 }]. *)
Definition valida_recompensa (r : Recompensa) : bool := -1 <=? r_stock r.

(** ** Handlers as database transformers that may throw *)

Inductive Excepcion :=
  CastError | ValidationError | TypeError | DuplicateKey | ErrorDeAlmacen | ErrorDeQRCode.

Inductive Resultado (A : Type) :=
  | Valor (a : A)
  | Lanza (e : Excepcion).
Arguments Valor {A} a.
Arguments Lanza {A} e.

Definition Op (A : Type) := BD -> Resultado A * BD.

Definition ret {S A} (a : A) : S -> Resultado A * S := fun bd => (Valor a, bd).

Definition lanzar {S A} (e : Excepcion) : S -> Resultado A * S := fun bd => (Lanza e, bd).

Definition ligar {S A B} (m : S -> Resultado A * S) (k : A -> S -> Resultado B * S)
  : S -> Resultado B * S :=
  fun bd =>
    match m bd with
    | (Valor a, bd') => k a bd'
    | (Lanza e, bd') => (Lanza e, bd')
    end.

Notation "x <- m ;; k" := (ligar m (fun x => k))
  (at level 100, m at next level, right associativity).
Notation "m ;;; k" := (ligar m (fun _ => k))
  (at level 100, right associativity).

Definition leer {S A} (f : S -> A) : S -> Resultado A * S := fun bd => (Valor (f bd), bd).

(** A storage write.  [falla] says that the storage layer rejects this
    call; otherwise the validator decides, and only then is the
    database changed. *)
Definition escribir {S} (falla : bool) (valido : bool) (f : S -> S)
  : S -> Resultado unit * S :=
  fun bd =>
    if falla then (Lanza ErrorDeAlmacen, bd)
    else if valido then (Valor tt, f bd)
    else (Lanza ValidationError, bd).

(** ** Responses *)

Inductive CodigoQR :=
  QR_NOT_FOUND | QR_EXPIRED | QR_USED | CLIENT_NOT_FOUND | CLIENT_INACTIVE | QR_VALID.

#[global] Instance CodigoQR_eq_dec : EqDecision CodigoQR.
Proof. solve_decision. Defined.

Inductive Mensaje :=
  (* agregarPuntos *)
  | TokenYMontoRequeridos
  | MontoDebeSerMayorACero
  | QrRechazado (codigo : CodigoQR)
  | PuntosAgregados (cliente : Id) (puntosAnteriores puntosOtorgados puntosNuevos : Z)
  | ErrorAlAgregarPuntos
  (* canjear *)
  | IdRecompensaRequerido
  | RecompensaNoEncontrada
  | RecompensaNoDisponible
  | RecompensaAgotada
  | PuntosInsuficientes (puntosActuales puntosRequeridos puntosFaltantes : Z)
  | PuntosInsuficientesEnEmpresa (puntosEnEmpresa puntosRequeridos puntosFaltantes : Z)
  | CanjeRealizado (canje : Id) (anteriores canjeados restantes : Z)
  | IdRecompensaInvalido
  | ErrorAlProcesarCanje
  (* marcarEntregado, cancelar *)
  | CanjeNoEncontrado
  | CanjeYaEntregado
  | CanjeCanceladoNoEntregable
  | CanjeMarcadoEntregado
  | CanjeNoEncontradoONoSePuedeCancelar
  | CanjeCancelado (puntosDevueltos : Z)
  | ErrorInternoDelServidor.

Record Respuesta := { status : nat; mensaje : Mensaje }.

Definition responder (s : nat) (m : Mensaje) : Op Respuesta :=
  ret {| status := s; mensaje := m |}.

(** [try { ... } catch (error) { ... }] around a handler body. *)
Definition intentar (cuerpo : Op Respuesta) (alCapturar : Excepcion -> Respuesta)
  : BD -> Respuesta * BD :=
  fun bd =>
    match cuerpo bd with
    | (Valor r, bd') => (r, bd')
    | (Lanza e, bd') => (alCapturar e, bd')
    end.

(** What a request sees of its surroundings: the clock, and which of
    its storage writes (numbered in program order from 1) are rejected. *)
Record Entorno := {
  ahora : Fecha;
  falla : nat -> bool
}.

Definition sin_fallas (t : Fecha) : Entorno := {| ahora := t; falla := fun _ => false |}.

(** ** models/QrToken.js *)

(** [estaExpirado]: [new Date() > this.expiraEn]. *)
Definition estaExpirado (t : Fecha) (q : QrToken) : bool := q_expiraEn q <? t.

(** [limpiarExpirados]: [deleteMany({ expiraEn: { $lt: new Date() } })]. *)
Definition limpiarExpirados (t : Fecha) (bd : BD) : BD :=
  {| usuarios := usuarios bd;
     qrtokens := filter (fun kq => ¬ (q_expiraEn kq.2 < t)) (qrtokens bd);
     recompensas := recompensas bd;
     canjes := canjes bd;
     transacciones := transacciones bd |}.

(** The TTL index [{ expiraEn: 1 }, { expireAfterSeconds: 60 }]: the
    storage engine deletes, at some time [t] of its choosing, the
    documents whose [expiraEn] lies more than 60 seconds back. *)
Definition purga_ttl (t : Fecha) (bd : BD) : BD :=
  {| usuarios := usuarios bd;
     qrtokens := filter (fun kq => ¬ (q_expiraEn kq.2 + 60000 < t)) (qrtokens bd);
     recompensas := recompensas bd;
     canjes := canjes bd;
     transacciones := transacciones bd |}.

(** ** services/qrService.js *)

(** The object [validarQR] returns; [rq_cliente] is [cliente.id] and
    [cliente.puntos] of a valid result. *)
Record ResultadoQR := {
  valido : bool;
  codigo : CodigoQR;
  rq_cliente : option (Id * Z)
}.

Definition rechazo (c : CodigoQR) : ResultadoQR :=
  {| valido := false; codigo := c; rq_cliente := None |}.

(** [validarQR(token)].  [findOne({ token }).populate('clienteId')]
    reads the token and then the user it refers to. *)
Definition validarQR (env : Entorno) (token : string) : Op ResultadoQR :=
  qrToken <- leer (fun bd => qrtokens bd !! token) ;;
  match qrToken with
  | None => ret (rechazo QR_NOT_FOUND)
  | Some qrToken =>
      clienteId <- leer (fun bd => usuarios bd !! q_clienteId qrToken) ;;
      if estaExpirado (ahora env) qrToken then ret (rechazo QR_EXPIRED)
      else if q_usado qrToken then ret (rechazo QR_USED)
      else match clienteId with
           | None => ret (rechazo CLIENT_NOT_FOUND)
           | Some cliente =>
               if negb (u_activo cliente) then ret (rechazo CLIENT_INACTIVE)
               else ret {| valido := true; codigo := QR_VALID;
                           rq_cliente := Some (q_clienteId qrToken, u_puntos cliente) |}
           end
  end.

Definition con_qrtokens (f : gmap string QrToken -> gmap string QrToken) (bd : BD) : BD :=
  {| usuarios := usuarios bd;
     qrtokens := f (qrtokens bd);
     recompensas := recompensas bd;
     canjes := canjes bd;
     transacciones := transacciones bd |}.

Definition con_usuarios (f : gmap Id Usuario -> gmap Id Usuario) (bd : BD) : BD :=
  {| usuarios := f (usuarios bd);
     qrtokens := qrtokens bd;
     recompensas := recompensas bd;
     canjes := canjes bd;
     transacciones := transacciones bd |}.

Definition con_recompensas (f : gmap Id Recompensa -> gmap Id Recompensa) (bd : BD) : BD :=
  {| usuarios := usuarios bd;
     qrtokens := qrtokens bd;
     recompensas := f (recompensas bd);
     canjes := canjes bd;
     transacciones := transacciones bd |}.

Definition con_canjes (f : list Canje -> list Canje) (bd : BD) : BD :=
  {| usuarios := usuarios bd;
     qrtokens := qrtokens bd;
     recompensas := recompensas bd;
     canjes := f (canjes bd);
     transacciones := transacciones bd |}.

Definition con_transacciones (f : list Transaccion -> list Transaccion) (bd : BD) : BD :=
  {| usuarios := usuarios bd;
     qrtokens := qrtokens bd;
     recompensas := recompensas bd;
     canjes := canjes bd;
     transacciones := f (transacciones bd) |}.

Definition marcar (empresaId : Id) (q : QrToken) : QrToken :=
  {| q_clienteId := q_clienteId q;
     q_expiraEn := q_expiraEn q;
     q_usado := true;
     q_usadoPor := Some empresaId |}.

(** [marcarComoUsado(token, empresaId)]:
    [findOneAndUpdate({ token }, { usado: true, usadoPor }, { new: true })].
    The filter is the token alone; the result is the updated document,
    or null when no document has that token. *)
Definition marcarComoUsado (falla : bool) (token : string) (empresaId : Id)
  : Op (option QrToken) :=
  fun bd =>
    if falla then (Lanza ErrorDeAlmacen, bd)
    else (Valor (marcar empresaId <$> qrtokens bd !! token),
          con_qrtokens (alter (marcar empresaId) token) bd).

(** ** The per-business breakdown [puntosPorEmpresa] *)

(** [pe => pe.empresa && pe.empresa.toString() === empresaId] *)
Definition es_de_empresa (empresaId : Id) (pe : PuntosEmpresa) : bool :=
  match pe_empresa pe with
  | Some e => bool_decide (e = empresaId)
  | None => false
  end.

(** [Array.prototype.findIndex]; [None] stands for the result -1, so
    [indexEmpresa >= 0] is the [Some] case. *)
Fixpoint findIndex {A} (p : A -> bool) (l : list A) : option nat :=
  match l with
  | [] => None
  | x :: l' => if p x then Some 0%nat else S <$> findIndex p l'
  end.

Fixpoint suma_puntos (l : list PuntosEmpresa) : Z :=
  match l with
  | [] => 0
  | pe :: l' => pe_puntos pe + suma_puntos l'
  end.

(** The balance a customer holds with one business, as [canjear] reads
    it: the entry [findIndex] selects, or 0 when there is none. *)
Definition puntosEnEmpresa (empresaId : Id) (l : list PuntosEmpresa) : Z :=
  match findIndex (es_de_empresa empresaId) l with
  | Some i => from_option pe_puntos 0 (l !! i)
  | None => 0
  end.

(** The update both [agregarPuntos] (lines 122-137) and [cancelar]
    (lines 455-470) make: add to the entry of the business and stamp
    it, or push a new entry. *)
Definition abonar_empresa (t : Fecha) (empresaId : Id) (puntos : Z)
    (l : list PuntosEmpresa) : list PuntosEmpresa :=
  match findIndex (es_de_empresa empresaId) l with
  | Some i =>
      alter (fun pe => {| pe_empresa := pe_empresa pe;
                          pe_puntos := pe_puntos pe + puntos;
                          pe_ultimaTransaccion := t |}) i l
  | None =>
      l ++ [ {| pe_empresa := Some empresaId;
                pe_puntos := puntos;
                pe_ultimaTransaccion := t |} ]
  end.

(** [canjear], lines 146-153: subtract from the entry found, and put 0
    where the difference is negative. *)
Definition descontar_empresa (indexEmpresa : option nat) (puntos : Z)
    (l : list PuntosEmpresa) : list PuntosEmpresa :=
  match indexEmpresa with
  | Some i =>
      alter (fun pe =>
               let resta := pe_puntos pe - puntos in
               {| pe_empresa := pe_empresa pe;
                  pe_puntos := if resta <? 0 then 0 else resta;
                  pe_ultimaTransaccion := pe_ultimaTransaccion pe |}) i l
  | None => l
  end.

Definition con_puntos (puntos : Z) (l : list PuntosEmpresa) (u : Usuario) : Usuario :=
  {| u_activo := u_activo u;
     u_puntos := puntos;
     u_puntosPorEmpresa := l;
     u_totalTransacciones := u_totalTransacciones u;
     u_totalIngresos := u_totalIngresos u;
     u_configuracionPuntos := u_configuracionPuntos u |}.

(** ** Arithmetic on amounts: binary64 *)

(** [x] is a double: in lowest terms its denominator is a power of two
    and its numerator, without its trailing zeros, fits 53 bits. *)
Definition es_doble (x : Q) : bool :=
  let a := Z.abs (Qnum (Qred x)) in
  let d := Zpos (Qden (Qred x)) in
  (d =? 2 ^ Z.log2 d) && ((a <=? 2 ^ 53) || (a mod 2 ^ (Z.log2 a - 52) =? 0)).

(** The whole number nearest to [n / d], the even one of two equally
    near, for [0 <= n] and [0 < d]. *)
Definition entero_cercano (n d : Z) : Z :=
  let q := n / d in
  let r := n mod d in
  match 2 * r ?= d with
  | Lt => q
  | Gt => q + 1
  | Eq => if Z.even q then q else q + 1
  end.

(** [m * 2 ^ e] *)
Definition escalar (m e : Z) : Q :=
  if 0 <=? e then inject_Z (m * 2 ^ e) else Qmake m (Z.to_pos (2 ^ (- e))).

(** The double nearest to [n / d], for [0 < n] and [0 < d]: the
    exponent [e] puts [n / (d * 2 ^ e)] between [2 ^ 52] and [2 ^ 53],
    and the 53 bits are rounded to nearest, ties to even. *)
Definition cercano_positivo (n d : Z) : Q :=
  let k := Z.log2 n - Z.log2 d in
  let e := if (if 0 <=? k then n <? d * 2 ^ k else n * 2 ^ (- k) <? d)
           then k - 53 else k - 52 in
  let m := if 0 <=? e then entero_cercano n (d * 2 ^ e)
           else entero_cercano (n * 2 ^ (- e)) d in
  escalar m e.

Definition cercano (x : Q) : Q :=
  match Qnum x with
  | Z0 => 0%Q
  | Zpos n => cercano_positivo (Zpos n) (Zpos (Qden x))
  | Zneg n => Qopp (cercano_positivo (Zpos n) (Zpos (Qden x)))
  end.

(** What a double operation stores of its exact result [x]: [x]
    itself when it is a double, and the nearest double otherwise. *)
Definition redondear (x : Q) : Q :=
  let y := Qred x in
  if es_doble y then y else Qred (cercano y).

(** [a + b], [a * b] and [a / b] on doubles. *)
Definition sumar (a b : Q) : Q := redondear (Qplus a b).
Definition multiplicar (a b : Q) : Q := redondear (Qmult a b).
Definition dividir (a b : Q) : Q := redondear (Qdiv a b).

(** [a * k] on whole numbers: the whole number the double product is. *)
Definition por (a k : Z) : Z := Qfloor (multiplicar (inject_Z a) (inject_Z k)).

#[global] Arguments redondear : simpl never.
#[global] Arguments sumar : simpl never.
#[global] Arguments multiplicar : simpl never.
#[global] Arguments dividir : simpl never.

(** [$inc: { totalTransacciones: 1, totalIngresos: montoNumerico }] *)
Definition incrementar_estadisticas (monto : Q) (u : Usuario) : Usuario :=
  {| u_activo := u_activo u;
     u_puntos := u_puntos u;
     u_puntosPorEmpresa := u_puntosPorEmpresa u;
     u_totalTransacciones := u_totalTransacciones u + 1;
     u_totalIngresos := sumar (u_totalIngresos u) monto;
     u_configuracionPuntos := u_configuracionPuntos u |}.

(** ** controllers/empresaController.js: agregarPuntos *)

(** What [parseFloat] makes of a request field: NaN, or a finite
    number. *)
Inductive Numero := NaN | Num (q : Q).

(** [empresa.configuracionPuntos || { gastoRequerido: 100, puntosOtorgados: 1 }] *)
Definition formula (empresa : Usuario) : ConfiguracionPuntos :=
  match u_configuracionPuntos empresa with
  | Some c => c
  | None => {| gastoRequerido := inject_Z 100; puntosOtorgados := 1 |}
  end.

(** [Math.floor(montoNumerico / gastoRequerido) * puntosOtorgados], for
    the positive [gastoRequerido] the schema and [configurarPuntos]
    insist on (both require at least 1): the quotient is the double
    the division gives, its floor is a whole number, and so is the
    double their product gives. *)
Definition puntosCalculados (empresa : Usuario) (montoNumerico : Q) : Z :=
  Qfloor
    (multiplicar
       (inject_Z (Qfloor (dividir montoNumerico (gastoRequerido (formula empresa)))))
       (inject_Z (puntosOtorgados (formula empresa)))).

(** Lines 101-195: what the handler does once [validarQR] has accepted
    the token.  Writes: 1 [cliente.save()], 2 the [$inc] on the
    business, 3 [transaccion.save()], 4 [marcarComoUsado]. *)
Definition acreditar (env : Entorno) (empresaId : Id) (empresa : Usuario)
    (token : string) (montoNumerico : Q) (resultadoQR : ResultadoQR) : Op Respuesta :=
  match rq_cliente resultadoQR with
  | None => lanzar TypeError
  | Some (clienteId, _) =>
      let puntosCalculados := puntosCalculados empresa montoNumerico in
      cliente <- leer (fun bd => usuarios bd !! clienteId) ;;
      match cliente with
      | None => lanzar TypeError
      | Some cliente =>
          let puntosAnteriores := u_puntos cliente in
          let cliente :=
            con_puntos (u_puntos cliente + puntosCalculados)
              (abonar_empresa (ahora env) empresaId puntosCalculados
                 (u_puntosPorEmpresa cliente))
              cliente in
          escribir (falla env 1%nat) (valida_usuario cliente)
            (con_usuarios (insert clienteId cliente)) ;;;
          escribir (falla env 2%nat) true
            (con_usuarios (alter (incrementar_estadisticas montoNumerico) empresaId)) ;;;
          let transaccion :=
            {| t_cliente := clienteId;
               t_empresa := empresaId;
               t_monto := montoNumerico;
               t_puntosOtorgados := puntosCalculados;
               t_puntosAnteriores := puntosAnteriores;
               t_puntosNuevos := u_puntos cliente;
               t_qrToken := token |} in
          escribir (falla env 3%nat) (valida_transaccion transaccion)
            (con_transacciones (fun l => l ++ [transaccion])) ;;;
          _ <- marcarComoUsado (falla env 4%nat) token empresaId ;;
          responder 200 (PuntosAgregados clienteId puntosAnteriores puntosCalculados
                           (u_puntos cliente))
      end
  end.

(** [agregarPuntos(req, res)] with [req.usuario] the business
    [empresa] of id [empresaId]; [token] is [None] when the field is
    missing, [monto] is [None] when it is [undefined] and otherwise
    what [parseFloat] returns for it. *)
Definition agregarPuntos (env : Entorno) (empresaId : Id) (empresa : Usuario)
    (token : option string) (monto : option Numero) : BD -> Respuesta * BD :=
  intentar
    (match token, monto with
     | None, _ | Some EmptyString, _ | _, None => responder 400 TokenYMontoRequeridos
     | Some token, Some montoNumerico =>
         match montoNumerico with
         | NaN => responder 400 MontoDebeSerMayorACero
         | Num montoNumerico =>
             if Qle_bool montoNumerico 0 then responder 400 MontoDebeSerMayorACero
             else
               resultadoQR <- validarQR env token ;;
               if negb (valido resultadoQR)
               then responder 400 (QrRechazado (codigo resultadoQR))
               else acreditar env empresaId empresa token montoNumerico resultadoQR
         end
     end)
    (fun _ => {| status := 500; mensaje := ErrorAlAgregarPuntos |}).

(** ** controllers/canjeController.js *)

(** [req.body.recompensaId]: missing (falsy), not an ObjectId (the
    query throws a [CastError]), or an id. *)
Inductive IdPedido := SinId | IdMalformado | IdDado (i : Id).

(** [new Canje({...}).save()]: the validator, then the unique index on
    [codigoCanje]; the new document's [_id] is the next position. *)
Definition insertar_canje (falla : bool) (canje : Canje) : Op Id :=
  fun bd =>
    if falla then (Lanza ErrorDeAlmacen, bd)
    else if negb (valida_canje canje) then (Lanza ValidationError, bd)
    else if existsb (fun c => String.eqb (c_codigoCanje c) (c_codigoCanje canje)) (canjes bd)
    then (Lanza DuplicateKey, bd)
    else (Valor (length (canjes bd)), con_canjes (fun l => l ++ [canje]) bd).

Definition con_stock (stock canjesRealizados : Z) (r : Recompensa) : Recompensa :=
  {| r_empresa := r_empresa r;
     r_puntosRequeridos := r_puntosRequeridos r;
     r_stock := stock;
     r_activo := r_activo r;
     r_canjesRealizados := canjesRealizados |}.

(** [canjear(req, res)] for the customer [clienteId = req.usuario._id];
    [codigoCanje] is what [generarCodigoCanje()] draws.  Writes:
    1 [canje.save()], 2 [clienteActualizado.save()],
    3 [recompensa.save()]. *)
Definition canjear (env : Entorno) (clienteId : Id) (recompensaId : IdPedido)
    (codigoCanje : string) : BD -> Respuesta * BD :=
  intentar
    (match recompensaId with
     | SinId => responder 400 IdRecompensaRequerido
     | IdMalformado => lanzar CastError
     | IdDado recompensaId =>
     recompensa <- leer (fun bd => recompensas bd !! recompensaId) ;;
     match recompensa with
     | None => responder 404 RecompensaNoEncontrada
     | Some recompensa =>
     (* .populate('empresa', 'nombreEmpresa') *)
     empresa <- leer (fun bd => usuarios bd !! r_empresa recompensa) ;;
     if negb (r_activo recompensa) then responder 400 RecompensaNoDisponible
     else if negb (r_stock recompensa =? -1) && (r_stock recompensa <=? 0)
     then responder 400 RecompensaAgotada
     else
     clienteActualizado <- leer (fun bd => usuarios bd !! clienteId) ;;
     match clienteActualizado with
     | None => lanzar TypeError
     | Some clienteActualizado =>
     if u_puntos clienteActualizado <? r_puntosRequeridos recompensa
     then responder 400
            (PuntosInsuficientes (u_puntos clienteActualizado)
               (r_puntosRequeridos recompensa)
               (r_puntosRequeridos recompensa - u_puntos clienteActualizado))
     else
     match empresa with
     | None => lanzar TypeError
     | Some _ =>
     let empresaId := r_empresa recompensa in
     let indexEmpresa :=
       findIndex (es_de_empresa empresaId) (u_puntosPorEmpresa clienteActualizado) in
     let puntosEnEmpresa :=
       match indexEmpresa with
       | Some i => from_option pe_puntos 0 (u_puntosPorEmpresa clienteActualizado !! i)
       | None => 0
       end in
     if puntosEnEmpresa <? r_puntosRequeridos recompensa
     then responder 400
            (PuntosInsuficientesEnEmpresa puntosEnEmpresa
               (r_puntosRequeridos recompensa)
               (r_puntosRequeridos recompensa - puntosEnEmpresa))
     else
     let puntosAnteriores := u_puntos clienteActualizado in
     let puntosRestantes := puntosAnteriores - r_puntosRequeridos recompensa in
     let canje :=
       {| c_cliente := clienteId;
          c_recompensa := recompensaId;
          c_empresa := empresaId;
          c_puntosCanjeados := r_puntosRequeridos recompensa;
          c_puntosAnteriores := puntosAnteriores;
          c_puntosRestantes := puntosRestantes;
          c_codigoCanje := codigoCanje;
          c_estado := pendiente;
          c_fechaEntrega := None |} in
     canjeId <- insertar_canje (falla env 1%nat) canje ;;
     let clienteActualizado :=
       con_puntos puntosRestantes
         (descontar_empresa indexEmpresa (r_puntosRequeridos recompensa)
            (u_puntosPorEmpresa clienteActualizado))
         clienteActualizado in
     escribir (falla env 2%nat) (valida_usuario clienteActualizado)
       (con_usuarios (insert clienteId clienteActualizado)) ;;;
     let recompensa :=
       con_stock
         (if negb (r_stock recompensa =? -1) then r_stock recompensa - 1
          else r_stock recompensa)
         (r_canjesRealizados recompensa + 1)
         recompensa in
     escribir (falla env 3%nat) (valida_recompensa recompensa)
       (con_recompensas (insert recompensaId recompensa)) ;;;
     responder 201
       (CanjeRealizado canjeId puntosAnteriores (r_puntosRequeridos recompensa)
          puntosRestantes)
     end end end end)
    (fun error =>
       match error with
       | CastError => {| status := 400; mensaje := IdRecompensaInvalido |}
       | _ => {| status := 500; mensaje := ErrorAlProcesarCanje |}
       end).

Definition con_estado (e : Estado) (f : option Fecha) (c : Canje) : Canje :=
  {| c_cliente := c_cliente c;
     c_recompensa := c_recompensa c;
     c_empresa := c_empresa c;
     c_puntosCanjeados := c_puntosCanjeados c;
     c_puntosAnteriores := c_puntosAnteriores c;
     c_puntosRestantes := c_puntosRestantes c;
     c_codigoCanje := c_codigoCanje c;
     c_estado := e;
     c_fechaEntrega := f |}.

(** [Canje.findOne({ _id, empresa })] *)
Definition buscar_canje (canjeId empresaId : Id) (bd : BD) : option Canje :=
  match canjes bd !! canjeId with
  | Some c => if bool_decide (c_empresa c = empresaId) then Some c else None
  | None => None
  end.

(** [Canje.findOne({ _id, empresa, estado: 'pendiente' })] *)
Definition buscar_canje_pendiente (canjeId empresaId : Id) (bd : BD) : option Canje :=
  match buscar_canje canjeId empresaId bd with
  | Some c => if bool_decide (c_estado c = pendiente) then Some c else None
  | None => None
  end.

(** [marcarEntregado(req, res)] for the business
    [empresaId = req.usuario._id].  Write 1 is [canje.save()]. *)
Definition marcarEntregado (env : Entorno) (canjeId empresaId : Id)
  : BD -> Respuesta * BD :=
  intentar
    (canje <- leer (buscar_canje canjeId empresaId) ;;
     match canje with
     | None => responder 404 CanjeNoEncontrado
     | Some canje =>
         if bool_decide (c_estado canje = entregado) then responder 400 CanjeYaEntregado
         else if bool_decide (c_estado canje = cancelado)
         then responder 400 CanjeCanceladoNoEntregable
         else
           let canje := con_estado entregado (Some (ahora env)) canje in
           escribir (falla env 1%nat) true (con_canjes (insert canjeId canje)) ;;;
           responder 200 CanjeMarcadoEntregado
     end)
    (fun _ => {| status := 500; mensaje := ErrorInternoDelServidor |}).

(** [cancelar(req, res)] for the business [empresaId].  Writes:
    1 [cliente.save()], 2 [recompensa.save()] (skipped when the reward
    no longer exists), 3 [canje.save()]. *)
Definition cancelar (env : Entorno) (canjeId empresaId : Id)
  : BD -> Respuesta * BD :=
  intentar
    (canje <- leer (buscar_canje_pendiente canjeId empresaId) ;;
     match canje with
     | None => responder 404 CanjeNoEncontradoONoSePuedeCancelar
     | Some canje =>
         let empresaId := c_empresa canje in
         cliente <- leer (fun bd => usuarios bd !! c_cliente canje) ;;
         match cliente with
         | None => lanzar TypeError
         | Some cliente =>
             let cliente :=
               con_puntos (u_puntos cliente + c_puntosCanjeados canje)
                 (abonar_empresa (ahora env) empresaId (c_puntosCanjeados canje)
                    (u_puntosPorEmpresa cliente))
                 cliente in
             escribir (falla env 1%nat) (valida_usuario cliente)
               (con_usuarios (insert (c_cliente canje) cliente)) ;;;
             recompensa <- leer (fun bd => recompensas bd !! c_recompensa canje) ;;
             match recompensa with
              | Some recompensa =>
                  let recompensa :=
                    con_stock
                      (if negb (r_stock recompensa =? -1) then r_stock recompensa + 1
                       else r_stock recompensa)
                      (Z.max 0 (r_canjesRealizados recompensa - 1))
                      recompensa in
                  escribir (falla env 2%nat) (valida_recompensa recompensa)
                    (con_recompensas (insert (c_recompensa canje) recompensa))
              | None => ret tt
              end ;;;
             let canje := con_estado cancelado (c_fechaEntrega canje) canje in
             escribir (falla env 3%nat) true (con_canjes (insert canjeId canje)) ;;;
             responder 200 (CanjeCancelado (c_puntosCanjeados canje))
         end
     end)
    (fun _ => {| status := 500; mensaje := ErrorInternoDelServidor |}).

(** ** Sequences of ledger operations *)

Inductive Operacion :=
  | OpAgregarPuntos (env : Entorno) (empresaId : Id) (empresa : Usuario)
      (token : option string) (monto : option Numero)
  | OpCanjear (env : Entorno) (clienteId : Id) (recompensaId : IdPedido)
      (codigoCanje : string)
  | OpCancelar (env : Entorno) (canjeId empresaId : Id)
  | OpMarcarEntregado (env : Entorno) (canjeId empresaId : Id).

Definition ejecutar (op : Operacion) : BD -> Respuesta * BD :=
  match op with
  | OpAgregarPuntos env empresaId empresa token monto =>
      agregarPuntos env empresaId empresa token monto
  | OpCanjear env clienteId recompensaId codigoCanje =>
      canjear env clienteId recompensaId codigoCanje
  | OpCancelar env canjeId empresaId => cancelar env canjeId empresaId
  | OpMarcarEntregado env canjeId empresaId => marcarEntregado env canjeId empresaId
  end.

Fixpoint ejecutar_todas (ops : list Operacion) (bd : BD) : BD :=
  match ops with
  | [] => bd
  | op :: ops' => ejecutar_todas ops' (snd (ejecutar op bd))
  end.

(** The databases a run goes through, the first one included. *)
Fixpoint estados (ops : list Operacion) (bd : BD) : list BD :=
  bd :: match ops with
        | [] => []
        | op :: ops' => estados ops' (snd (ejecutar op bd))
        end.

(** The global balance of a customer is the sum of the per-business
    entries. *)
Definition conserva (u : Usuario) : Prop :=
  u_puntos u = suma_puntos (u_puntosPorEmpresa u).

Definition Conservacion (bd : BD) : Prop :=
  forall id u, usuarios bd !! id = Some u -> conserva u.

(** A response in the 4xx range: the request was refused. *)
Definition rechazada (r : Respuesta) : bool :=
  (400 <=? status r)%nat && (status r <? 500)%nat.

(** The whole numbers that doubles hold without gaps: the sum and the
    difference of two of them, when it is one of them, is the double
    the code computes. *)
Definition en_rango (z : Z) : Prop := - 2 ^ 53 <= z <= 2 ^ 53.

(** Every number of points, every stock and every counter stored is
    such a number. *)
Definition EnRango (bd : BD) : Prop :=
  map_Forall
    (fun _ u => en_rango (u_puntos u) /\
                Forall (fun pe => en_rango (pe_puntos pe)) (u_puntosPorEmpresa u))
    (usuarios bd) /\
  map_Forall
    (fun _ r => en_rango (r_puntosRequeridos r) /\ en_rango (r_stock r) /\
                en_rango (r_canjesRealizados r))
    (recompensas bd) /\
  Forall (fun c => en_rango (c_puntosCanjeados c)) (canjes bd).

(** ** Documents the handlers write on success *)

(** The document [canjear] creates. *)
Definition canje_de (clienteId recompensaId : Id) (rec : Recompensa) (cli : Usuario) (codigoCanje : string) : Canje :=
  {| c_cliente := clienteId;
     c_recompensa := recompensaId;
     c_empresa := r_empresa rec;
     c_puntosCanjeados := r_puntosRequeridos rec;
     c_puntosAnteriores := u_puntos cli;
     c_puntosRestantes := u_puntos cli - r_puntosRequeridos rec;
     c_codigoCanje := codigoCanje;
     c_estado := pendiente;
     c_fechaEntrega := None |}.

(** The customer document and the ledger record a credit writes. *)
Definition cliente_acreditado (t : Fecha) (empresaId : Id) (puntos : Z) (cli : Usuario)
  : Usuario :=
  con_puntos (u_puntos cli + puntos)
    (abonar_empresa t empresaId puntos (u_puntosPorEmpresa cli)) cli.

Definition transaccion_de (clienteId empresaId : Id) (empresa : Usuario) (m : Q)
    (cli : Usuario) (token : string) : Transaccion :=
  {| t_cliente := clienteId;
     t_empresa := empresaId;
     t_monto := m;
     t_puntosOtorgados := puntosCalculados empresa m;
     t_puntosAnteriores := u_puntos cli;
     t_puntosNuevos := u_puntos cli + puntosCalculados empresa m;
     t_qrToken := token |}.

Definition bd_acreditada (t : Fecha) (empresaId : Id) (empresa : Usuario)
    (token : string) (m : Q) (q : QrToken) (cli : Usuario) (bd : BD) : BD :=
  {| usuarios :=
       alter (incrementar_estadisticas m) empresaId
         (<[q_clienteId q :=
              cliente_acreditado t empresaId (puntosCalculados empresa m) cli]>
            (usuarios bd));
     qrtokens := alter (marcar empresaId) token (qrtokens bd);
     recompensas := recompensas bd;
     canjes := canjes bd;
     transacciones :=
       transacciones bd ++ [transaccion_de (q_clienteId q) empresaId empresa m cli token] |}.

(** The surroundings of a request. *)
Definition entorno_de (op : Operacion) : Entorno :=
  match op with
  | OpAgregarPuntos env _ _ _ _ | OpCanjear env _ _ _
  | OpCancelar env _ _ | OpMarcarEntregado env _ _ => env
  end.

(** The request does not get past its first storage write: a document
    it needs is missing and the handler throws before writing, or the
    write is rejected, by the storage layer, by a validator of the
    schema, or by the unique index on [codigoCanje].  The first write
    is [cliente.save()] in [agregarPuntos] and [cancelar] ([puntos]
    has [min: 0]) and [canje.save()] in [canjear] ([puntosCanjeados]
    has [min: 1]). *)
Definition no_pasa_de_la_primera_escritura (op : Operacion) (bd : BD) : Prop :=
  falla (entorno_de op) 1%nat = true \/
  match op with
  | OpAgregarPuntos _ _ empresa (Some token) (Some (Num m)) =>
      exists q cli,
        qrtokens bd !! token = Some q /\ usuarios bd !! q_clienteId q = Some cli /\
        u_puntos cli + puntosCalculados empresa m < 0
  | OpCanjear _ clienteId (IdDado rid) codigoCanje =>
      usuarios bd !! clienteId = None \/
      exists rec,
        recompensas bd !! rid = Some rec /\
        (usuarios bd !! r_empresa rec = None \/
         r_puntosRequeridos rec < 1 \/
         exists i c, canjes bd !! i = Some c /\ c_codigoCanje c = codigoCanje)
  | OpCancelar _ canjeId _ =>
      exists c,
        canjes bd !! canjeId = Some c /\
        (usuarios bd !! c_cliente c = None \/
         exists cli, usuarios bd !! c_cliente c = Some cli /\
                     u_puntos cli + c_puntosCanjeados c < 0)
  | _ => False
  end.

#[global] Instance en_rango_dec (z : Z) : Decision (en_rango z).
Proof. unfold en_rango. apply _. Defined.

#[global] Instance EnRango_dec (bd : BD) : Decision (EnRango bd).
Proof. unfold EnRango. apply _. Defined.

#[global] Instance conserva_dec (u : Usuario) : Decision (conserva u).
Proof. unfold conserva. apply _. Defined.

#[global] Instance Conservacion_dec (bd : BD) : Decision (Conservacion bd).
Proof. unfold Conservacion. apply (map_Forall_dec (fun _ u => conserva u)). Defined.

(** * A worked database *)

Module Ejemplo.

(** Customer 1 holds 50 points: 5 with business 2, 45 with business 3. *)
Definition cliente1 : Usuario :=
  {| u_activo := true;
     u_puntos := 50;
     u_puntosPorEmpresa :=
       [ {| pe_empresa := Some 2%nat; pe_puntos := 5; pe_ultimaTransaccion := 0 |};
         {| pe_empresa := Some 3%nat; pe_puntos := 45; pe_ultimaTransaccion := 0 |} ];
     u_totalTransacciones := 0;
     u_totalIngresos := 0;
     u_configuracionPuntos := None |}.

(** Customer 4 holds 5 points, all with business 2. *)
Definition cliente4 : Usuario :=
  {| u_activo := true;
     u_puntos := 5;
     u_puntosPorEmpresa :=
       [ {| pe_empresa := Some 2%nat; pe_puntos := 5; pe_ultimaTransaccion := 0 |} ];
     u_totalTransacciones := 0;
     u_totalIngresos := 0;
     u_configuracionPuntos := None |}.

(** A business with the default formula: 1 point per 100 spent. *)
Definition empresa : Usuario :=
  {| u_activo := true;
     u_puntos := 0;
     u_puntosPorEmpresa := [];
     u_totalTransacciones := 0;
     u_totalIngresos := 0;
     u_configuracionPuntos := None |}.

Definition recompensa7 : Recompensa :=
  {| r_empresa := 2%nat; r_puntosRequeridos := 10; r_stock := 3;
     r_activo := true; r_canjesRealizados := 0 |}.

Definition recompensa8 : Recompensa :=
  {| r_empresa := 3%nat; r_puntosRequeridos := 10; r_stock := 1;
     r_activo := true; r_canjesRealizados := 4 |}.

(** Token "T" is fresh until time 1000; "V" expired at 1000 and was
    used by business 2; "X" expired at 1000 and was never used. *)
Definition tokenT : QrToken :=
  {| q_clienteId := 1%nat; q_expiraEn := 1000; q_usado := false; q_usadoPor := None |}.

Definition tokenV : QrToken :=
  {| q_clienteId := 1%nat; q_expiraEn := 1000; q_usado := true; q_usadoPor := Some 2%nat |}.

Definition tokenX : QrToken :=
  {| q_clienteId := 1%nat; q_expiraEn := 1000; q_usado := false; q_usadoPor := None |}.

(** Redemption 0 was cancelled; redemption 1 is pending. *)
Definition canje0 : Canje :=
  {| c_cliente := 1%nat; c_recompensa := 8%nat; c_empresa := 3%nat;
     c_puntosCanjeados := 10; c_puntosAnteriores := 55; c_puntosRestantes := 45;
     c_codigoCanje := "CJ-00000000"; c_estado := cancelado; c_fechaEntrega := None |}.

Definition canje1 : Canje :=
  {| c_cliente := 1%nat; c_recompensa := 8%nat; c_empresa := 3%nat;
     c_puntosCanjeados := 10; c_puntosAnteriores := 60; c_puntosRestantes := 50;
     c_codigoCanje := "CJ-00000001"; c_estado := pendiente; c_fechaEntrega := None |}.

Definition bd : BD :=
  {| usuarios := <[1%nat := cliente1]> (<[2%nat := empresa]> (<[3%nat := empresa]>
                   (<[4%nat := cliente4]> ∅)));
     qrtokens := <["T" := tokenT]> (<["V" := tokenV]> (<["X" := tokenX]> ∅));
     recompensas := <[7%nat := recompensa7]> (<[8%nat := recompensa8]> ∅);
     canjes := [canje0; canje1];
     transacciones := [] |}.

(** The third storage write of the request is rejected. *)
Definition falla_la_tercera (t : Fecha) : Entorno :=
  {| ahora := t; falla := fun n => Nat.eqb n 3 |}.

Definition operaciones : list Operacion :=
  [ OpAgregarPuntos (sin_fallas 10) 2%nat empresa (Some "T") (Some (Num (Qmake 250 1)));
    OpCanjear (sin_fallas 20) 1%nat (IdDado 8%nat) "CJ-00000002";
    OpCancelar (falla_la_tercera 30) 1%nat 3%nat;
    OpMarcarEntregado (sin_fallas 40) 2%nat 3%nat;
    OpCanjear (sin_fallas 50) 4%nat (IdDado 7%nat) "CJ-00000003" ].

End Ejemplo.

(** * The rest of the API *)

(** The handlers below answer with bodies of their own. *)
Inductive Cuerpo :=
  (* empresaController.leerQR *)
  | TokenDelQrRequerido
  | QrNoValido (codigo : CodigoQR)
  | QrLeido (cliente : option (Id * Z)) (token : string)
  | ErrorAlProcesarQr
  (* clienteController.generarQR *)
  | SoloClientesGeneranQr
  | QrGenerado (token : string) (expiraEn : Fecha) (expirationSeconds : Z)
      (cliente : Id) (puntos : Z)
  | ErrorAlGenerarQr
  (* empresaController.configurarPuntos, obtenerConfiguracionPuntos *)
  | SeRequierenGastoYPuntos
  | GastoRequeridoInvalido
  | PuntosOtorgadosInvalidos
  | ConfiguracionActualizada (c : option ConfiguracionPuntos) (ejemplos : list (Q * Z))
  | ConfiguracionActual (c : ConfiguracionPuntos) (ejemplos : list (Q * Z))
  (* canjeController.validarCodigo *)
  | CodigoNoEncontrado
  | CodigoYaEntregado (fechaEntrega : option Fecha)
  | CodigoCancelado
  | CodigoValido (canje : Id) (codigoCanje : string) (estado : Estado)
  (* clienteController.obtenerPuntosEmpresas *)
  | ClienteNoEncontrado
  | PuntosPorEmpresa (puntosTotal : Z) (empresas : list (Id * Z * Fecha)) (totalEmpresas : nat)
  | ErrorAlObtenerPuntosPorEmpresa
  (* recompensaController *)
  | NombreYPuntosObligatorios
  | PuntosRequeridosAlMenosUno
  | ErrorDeValidacion
  | RecompensaCreada (id : Id) (r : Recompensa)
  | RecompensaNoEncontradaOSinPermiso
  | RecompensaActualizada (r : Recompensa)
  | RecompensaEliminada (id : Id)
  | ErrorInterno.

Record Contestacion := { http : nat; cuerpo_de : Cuerpo }.

Definition contestar (s : nat) (c : Cuerpo) : Op Contestacion :=
  ret {| http := s; cuerpo_de := c |}.

(** [try { ... } catch (error) { ... }] for these handlers. *)
Definition capturar (cuerpo : Op Contestacion) (alCapturar : Excepcion -> Contestacion)
  : BD -> Contestacion * BD :=
  fun bd =>
    match cuerpo bd with
    | (Valor r, bd') => (r, bd')
    | (Lanza e, bd') => (alCapturar e, bd')
    end.

Definition error_500 (c : Cuerpo) : Excepcion -> Contestacion :=
  fun _ => {| http := 500; cuerpo_de := c |}.

(** [tipoUsuario: { enum: ['cliente', 'empresa'] }] *)
Inductive TipoUsuario := TipoCliente | TipoEmpresa.

(** What [parseInt] makes of a request field. *)
Inductive EnteroJS := NaN_entero | Entero (z : Z).

(** ** models/Recompensa.js, models/QrToken.js *)

(** [tieneStock]: [this.stock === -1 || this.stock > 0]. *)
Definition tieneStock (r : Recompensa) : bool :=
  (r_stock r =? -1) || (0 <? r_stock r).

(** [resultado.deletedCount] of [limpiarExpirados]. *)
Definition limpiarExpirados_deletedCount (t : Fecha) (bd : BD) : nat :=
  size (filter (fun kq : string * QrToken => q_expiraEn kq.2 < t) (qrtokens bd)).

(** ** services/qrService.js: the constructor, generarQR, obtenerEstadisticas *)

(** [parseInt(process.env.QR_EXPIRATION_SECONDS) || 30] *)
Definition expirationSeconds (variable : EnteroJS) : Z :=
  match variable with
  | NaN_entero | Entero 0 => 30
  | Entero n => n
  end.

(** What [generarQR] returns (the image apart). *)
Record QrEmitido := {
  e_token : string;
  e_expiraEn : Fecha;
  e_expirationSeconds : Z;
  e_cliente : Id;
  e_puntos : Z
}.

(** [generarQR(cliente)] of the service, with [token] the UUID drawn
    and [segundos] the service's [expirationSeconds].  The only write
    is [qrToken.save()]: [token] is required, and unique.  After it
    comes [QRCode.toDataURL], which rejects when the data (the token,
    the id, the customer's [nombre], of any length, and the date) do
    not fit a QR code; [imagen] says that it resolves. *)
Definition generarQR (falla imagen : bool) (t : Fecha) (segundos : Z) (token : string)
    (clienteId : Id) (cliente : Usuario) : Op QrEmitido :=
  let expiraEn := t + segundos * 1000 in
  let qrToken :=
    {| q_clienteId := clienteId; q_expiraEn := expiraEn;
       q_usado := false; q_usadoPor := None |} in
  fun bd =>
    if falla then (Lanza ErrorDeAlmacen, bd)
    else if bool_decide (token = EmptyString) then (Lanza ValidationError, bd)
    else match qrtokens bd !! token with
         | Some _ => (Lanza DuplicateKey, bd)
         | None =>
             (if imagen
              then Valor {| e_token := token; e_expiraEn := expiraEn;
                            e_expirationSeconds := segundos;
                            e_cliente := clienteId; e_puntos := u_puntos cliente |}
              else Lanza ErrorDeQRCode,
              con_qrtokens (insert token qrToken) bd)
         end.

(** [obtenerEstadisticas()]: [countDocuments()],
    [countDocuments({ usado: true })] and
    [countDocuments({ usado: false, expiraEn: { $gt: new Date() } })]. *)
Record EstadisticasQR := { total : nat; usados : nat; activos : nat }.

Definition obtenerEstadisticas (t : Fecha) (bd : BD) : EstadisticasQR :=
  {| total := size (qrtokens bd);
     usados := size (filter (fun kq : string * QrToken => q_usado kq.2 = true) (qrtokens bd));
     activos := size (filter (fun kq : string * QrToken =>
                                q_usado kq.2 = false /\ t < q_expiraEn kq.2)
                        (qrtokens bd)) |}.

(** ** controllers/clienteController.js *)

Module ClienteController.

(** [generarQR(req, res)] for [req.usuario = cliente], of type
    [tipoUsuario] and id [clienteId]. *)
Definition generarQR (env : Entorno) (imagen : bool) (segundos : Z) (token : string)
    (tipoUsuario : TipoUsuario) (clienteId : Id) (cliente : Usuario)
  : BD -> Contestacion * BD :=
  capturar
    (match tipoUsuario with
     | TipoEmpresa => contestar 403 SoloClientesGeneranQr
     | TipoCliente =>
         resultadoQR <- generarQR (falla env 1%nat) imagen (ahora env) segundos token
                          clienteId cliente ;;
         contestar 200
           (QrGenerado (e_token resultadoQR) (e_expiraEn resultadoQR)
              (e_expirationSeconds resultadoQR) (e_cliente resultadoQR)
              (e_puntos resultadoQR))
     end)
    (error_500 ErrorAlGenerarQr).

(** [.sort((a, b) => b.puntos - a.puntos)]: the stable sort by points,
    largest first. *)
Fixpoint insertar (x : Id * Z * Fecha) (l : list (Id * Z * Fecha)) : list (Id * Z * Fecha) :=
  match l with
  | [] => [x]
  | y :: l' => if y.1.2 <=? x.1.2 then x :: y :: l' else y :: insertar x l'
  end.

Definition ordenar (l : list (Id * Z * Fecha)) : list (Id * Z * Fecha) :=
  foldr insertar [] l.

(** [.populate('puntosPorEmpresa.empresa', ...)] followed by
    [.filter(pe => pe.empresa).map(...)]: the entries whose business
    still exists, as [(empresaId, puntos, ultimaTransaccion)]. *)
Definition empresas_pobladas (bd : BD) (l : list PuntosEmpresa) : list (Id * Z * Fecha) :=
  omap (fun pe =>
          match pe_empresa pe with
          | Some e =>
              match usuarios bd !! e with
              | Some _ => Some (e, pe_puntos pe, pe_ultimaTransaccion pe)
              | None => None
              end
          | None => None
          end) l.

(** [obtenerPuntosEmpresas(req, res)] *)
Definition obtenerPuntosEmpresas (clienteId : Id) : BD -> Contestacion * BD :=
  capturar
    (cliente <- leer (fun bd => usuarios bd !! clienteId) ;;
     match cliente with
     | None => contestar 404 ClienteNoEncontrado
     | Some cliente =>
         match u_puntosPorEmpresa cliente with
         | [] => contestar 200 (PuntosPorEmpresa (u_puntos cliente) [] 0)
         | _ =>
             puntosEmpresas <- leer (fun bd =>
               ordenar (empresas_pobladas bd (u_puntosPorEmpresa cliente))) ;;
             contestar 200
               (PuntosPorEmpresa (u_puntos cliente) puntosEmpresas (length puntosEmpresas))
         end
     end)
    (error_500 ErrorAlObtenerPuntosPorEmpresa).

End ClienteController.

(** ** controllers/empresaController.js: leerQR and the formula *)

(** [leerQR(req, res)] *)
Definition leerQR (env : Entorno) (token : option string) : BD -> Contestacion * BD :=
  capturar
    (match token with
     | None | Some EmptyString => contestar 400 TokenDelQrRequerido
     | Some token =>
         resultado <- validarQR env token ;;
         if negb (valido resultado)
         then contestar 400 (QrNoValido (codigo resultado))
         else contestar 200 (QrLeido (rq_cliente resultado) token)
     end)
    (error_500 ErrorAlProcesarQr).

Definition con_configuracion (c : ConfiguracionPuntos) (u : Usuario) : Usuario :=
  {| u_activo := u_activo u;
     u_puntos := u_puntos u;
     u_puntosPorEmpresa := u_puntosPorEmpresa u;
     u_totalTransacciones := u_totalTransacciones u;
     u_totalIngresos := u_totalIngresos u;
     u_configuracionPuntos := Some c |}.

(** [configurarPuntos(req, res)] for the business [empresaId]; a field
    is [None] when [undefined], and otherwise what [parseFloat]
    ([gastoRequerido]) or [parseInt] ([puntosOtorgados]) returns.  The
    write is [findByIdAndUpdate(..., { new: true })], which runs no
    validator; its result is the updated document, or null.  The
    amounts and the points of the examples are products of doubles. *)
Definition configurarPuntos (env : Entorno) (empresaId : Id)
    (gastoRequerido : option Numero) (puntosOtorgados : option EnteroJS)
  : BD -> Contestacion * BD :=
  capturar
    (match gastoRequerido, puntosOtorgados with
     | None, _ | _, None => contestar 400 SeRequierenGastoYPuntos
     | Some gastoNum, Some puntosNum =>
         match gastoNum with
         | NaN => contestar 400 GastoRequeridoInvalido
         | Num gastoNum =>
             if negb (Qle_bool (inject_Z 1) gastoNum)
             then contestar 400 GastoRequeridoInvalido
             else
               match puntosNum with
               | NaN_entero => contestar 400 PuntosOtorgadosInvalidos
               | Entero puntosNum =>
                   if puntosNum <? 1 then contestar 400 PuntosOtorgadosInvalidos
                   else
                     let c := {| gastoRequerido := gastoNum;
                                 puntosOtorgados := puntosNum |} in
                     escribir (falla env 1%nat) true
                       (con_usuarios (alter (con_configuracion c) empresaId)) ;;;
                     empresa <- leer (fun bd => usuarios bd !! empresaId) ;;
                     match empresa with
                     | None => lanzar TypeError
                     | Some empresa =>
                         contestar 200
                           (ConfiguracionActualizada (u_configuracionPuntos empresa)
                              [ (gastoNum, puntosNum);
                                (multiplicar gastoNum (inject_Z 2), por puntosNum 2);
                                (multiplicar gastoNum (inject_Z 5), por puntosNum 5);
                                (multiplicar gastoNum (inject_Z 10), por puntosNum 10) ])
                     end
               end
         end
     end)
    (error_500 ErrorInterno).

(** [obtenerConfiguracionPuntos(req, res)]; the examples are
    [Math.floor(gasto / config.gastoRequerido) * config.puntosOtorgados],
    as in [puntosCalculados], for a positive [gastoRequerido]. *)
Definition obtenerConfiguracionPuntos (empresaId : Id) : BD -> Contestacion * BD :=
  capturar
    (empresa <- leer (fun bd => usuarios bd !! empresaId) ;;
     match empresa with
     | None => lanzar TypeError
     | Some empresa =>
         let config := formula empresa in
         let puntos gasto := puntosCalculados empresa (inject_Z gasto) in
         contestar 200
           (ConfiguracionActual config
              [ (inject_Z 50, puntos 50); (inject_Z 100, puntos 100);
                (inject_Z 250, puntos 250); (inject_Z 500, puntos 500);
                (inject_Z 1000, puntos 1000) ])
     end)
    (error_500 ErrorInterno).

(** ** controllers/canjeController.js: generarCodigoCanje, validarCodigo *)

Definition digito_hex (n : N) : Ascii.ascii :=
  match String.get (N.to_nat n) "0123456789abcdef" with
  | Some c => c
  | None => Ascii.zero
  end.

(** [Buffer.toString('hex')] of one byte: two lower-case digits. *)
Definition hex (b : Byte.byte) : string :=
  String (digito_hex (Byte.to_N b / 16)) (String (digito_hex (Byte.to_N b mod 16)) EmptyString).

(** [toUpperCase] on the ASCII letters, which is all a string of
    hexadecimal digits has. *)
Definition mayuscula (c : Ascii.ascii) : Ascii.ascii :=
  let n := Ascii.N_of_ascii c in
  if ((97 <=? n) && (n <=? 122))%N then Ascii.ascii_of_N (n - 32) else c.

Fixpoint mayusculas (s : string) : string :=
  match s with
  | EmptyString => EmptyString
  | String c s' => String (mayuscula c) (mayusculas s')
  end.

(** [generarCodigoCanje()], from the four bytes [crypto.randomBytes(4)]
    draws: ["CJ-"] and their eight hexadecimal digits in upper case. *)
Definition generarCodigoCanje (b0 b1 b2 b3 : Byte.byte) : string :=
  String.append "CJ-"
    (mayusculas (String.append (hex b0)
                   (String.append (hex b1) (String.append (hex b2) (hex b3))))).

Section CodigoDeCanje.

(** [String.prototype.toUpperCase]. *)
Variable toUpperCase : string -> string.

(** [validarCodigo(req, res)] for the business [empresaId]:
    [Canje.findOne({ codigoCanje: codigo.toUpperCase(), empresa })],
    the first such redemption in storage order. *)
Definition validarCodigo (codigoPedido : string) (empresaId : Id)
  : BD -> Contestacion * BD :=
  capturar
    (canje <- leer (fun bd =>
       list_find (fun c : Canje =>
                    c_codigoCanje c = toUpperCase codigoPedido /\ c_empresa c = empresaId)
         (canjes bd)) ;;
     match canje with
     | None => contestar 404 CodigoNoEncontrado
     | Some (canjeId, canje) =>
         if bool_decide (c_estado canje = entregado)
         then contestar 400 (CodigoYaEntregado (c_fechaEntrega canje))
         else if bool_decide (c_estado canje = cancelado)
         then contestar 400 CodigoCancelado
         else contestar 200 (CodigoValido canjeId (c_codigoCanje canje) (c_estado canje))
     end)
    (error_500 ErrorInterno).

End CodigoDeCanje.

(** ** controllers/recompensaController.js *)

Module RecompensaController.

Section Textos.

(** The schema validators of the text fields ([nombre]: required,
    trimmed, at most 100 characters; [descripcion]: at most 500;
    [categoria]: one of four), on the values a request sets; [None] is
    a field the request leaves alone. *)
Variable valida_textos : option string -> option string -> option string -> bool.

(** [crear(req, res)] for the business [empresaId]; [nuevoId] is the
    [_id] the driver gives the document.  A field is [None] when the
    body does not carry it, and the numbers are whole ([Doble.crear]
    takes any double).  Write 1 is
    [recompensa.save()]. *)
Definition crear (env : Entorno) (empresaId nuevoId : Id)
    (nombre descripcion : option string) (puntosRequeridos stock : option Z)
    (categoria : option string) : BD -> Contestacion * BD :=
  capturar
    (match nombre, puntosRequeridos with
     | None, _ | Some EmptyString, _ | _, None | _, Some 0 =>
         contestar 400 NombreYPuntosObligatorios
     | Some nombre, Some puntosRequeridos =>
         if puntosRequeridos <? 1 then contestar 400 PuntosRequeridosAlMenosUno
         else
           let recompensa :=
             {| r_empresa := empresaId;
                r_puntosRequeridos := puntosRequeridos;
                r_stock := match stock with Some s => s | None => -1 end;
                r_activo := true;
                r_canjesRealizados := 0 |} in
           escribir (falla env 1%nat)
             (valida_textos (Some nombre)
                (Some (match descripcion with
                       | None | Some EmptyString => EmptyString
                       | Some d => d
                       end))
                (Some (match categoria with
                       | None | Some EmptyString => "otro"
                       | Some c => c
                       end))
              && (1 <=? r_puntosRequeridos recompensa)
              && valida_recompensa recompensa)
             (fun bd => bd) ;;;
           existente <- leer (fun bd => recompensas bd !! nuevoId) ;;
           match existente with
           | Some _ => lanzar DuplicateKey
           | None =>
               escribir false true (con_recompensas (insert nuevoId recompensa)) ;;;
               contestar 201 (RecompensaCreada nuevoId recompensa)
           end
     end)
    (fun error =>
       match error with
       | ValidationError => {| http := 400; cuerpo_de := ErrorDeValidacion |}
       | _ => {| http := 500; cuerpo_de := ErrorInterno |}
       end).

(** [Recompensa.findOne({ _id, empresa })] *)
Definition buscar_propia (recompensaId empresaId : Id) (bd : BD) : option Recompensa :=
  match recompensas bd !! recompensaId with
  | Some r => if bool_decide (r_empresa r = empresaId) then Some r else None
  | None => None
  end.

(** [actualizar(req, res)]: the fields the body carries replace the
    stored ones.  Write 1 is [recompensa.save()]. *)
Definition actualizar (env : Entorno) (recompensaId empresaId : Id)
    (nombre descripcion : option string) (puntosRequeridos stock : option Z)
    (categoria : option string) (activo : option bool) : BD -> Contestacion * BD :=
  capturar
    (recompensa <- leer (buscar_propia recompensaId empresaId) ;;
     match recompensa with
     | None => contestar 404 RecompensaNoEncontradaOSinPermiso
     | Some recompensa =>
         let recompensa :=
           {| r_empresa := r_empresa recompensa;
              r_puntosRequeridos :=
                match puntosRequeridos with
                | Some p => p
                | None => r_puntosRequeridos recompensa
                end;
              r_stock := match stock with Some s => s | None => r_stock recompensa end;
              r_activo := match activo with Some a => a | None => r_activo recompensa end;
              r_canjesRealizados := r_canjesRealizados recompensa |} in
         escribir (falla env 1%nat)
           (valida_textos nombre descripcion categoria
            && (1 <=? r_puntosRequeridos recompensa)
            && valida_recompensa recompensa)
           (con_recompensas (insert recompensaId recompensa)) ;;;
         contestar 200 (RecompensaActualizada recompensa)
     end)
    (fun error =>
       match error with
       | ValidationError => {| http := 400; cuerpo_de := ErrorDeValidacion |}
       | _ => {| http := 500; cuerpo_de := ErrorInterno |}
       end).

(** [eliminar(req, res)]: [findOneAndDelete({ _id, empresa })]. *)
Definition eliminar (env : Entorno) (recompensaId empresaId : Id)
  : BD -> Contestacion * BD :=
  capturar
    (recompensa <- leer (buscar_propia recompensaId empresaId) ;;
     match recompensa with
     | None =>
         if falla env 1%nat then lanzar ErrorDeAlmacen
         else contestar 404 RecompensaNoEncontradaOSinPermiso
     | Some _ =>
         escribir (falla env 1%nat) true (con_recompensas (delete recompensaId)) ;;;
         contestar 200 (RecompensaEliminada recompensaId)
     end)
    (error_500 ErrorInterno).

End Textos.

End RecompensaController.

(** ** Cleanings of the token collection *)

(** A call of [limpiarExpirados] at time [t], or a pass at time [t] of
    the TTL index that models/QrToken.js declares. *)
Inductive Limpieza := Manual (t : Fecha) | TTL (t : Fecha).

Definition momento (l : Limpieza) : Fecha :=
  match l with Manual t | TTL t => t end.

Definition limpiar (l : Limpieza) (bd : BD) : BD :=
  match l with
  | Manual t => limpiarExpirados t bd
  | TTL t => purga_ttl t bd
  end.

Fixpoint limpiar_todas (ls : list Limpieza) (bd : BD) : BD :=
  match ls with
  | [] => bd
  | l :: ls' => limpiar_todas ls' (limpiar l bd)
  end.

(** ** Requests of every kind, and cleanings, in sequence *)

Inductive Peticion :=
  | PLibro (op : Operacion)
  | PLimpieza (l : Limpieza)
  | PGenerarQR (env : Entorno) (imagen : bool) (segundos : Z) (token : string)
      (tipoUsuario : TipoUsuario) (clienteId : Id) (cliente : Usuario)
  | PLeerQR (env : Entorno) (token : option string)
  | PConfigurarPuntos (env : Entorno) (empresaId : Id)
      (gastoRequerido : option Numero) (puntosOtorgados : option EnteroJS)
  | PObtenerConfiguracionPuntos (empresaId : Id)
  | PValidarCodigo (codigoPedido : string) (empresaId : Id)
  | PObtenerPuntosEmpresas (clienteId : Id)
  | PCrear (env : Entorno) (empresaId nuevoId : Id)
      (nombre descripcion : option string) (puntosRequeridos stock : option Z)
      (categoria : option string)
  | PActualizar (env : Entorno) (recompensaId empresaId : Id)
      (nombre descripcion : option string) (puntosRequeridos stock : option Z)
      (categoria : option string) (activo : option bool)
  | PEliminar (env : Entorno) (recompensaId empresaId : Id).

Section Servidor.

Variable toUpperCase : string -> string.
Variable valida_textos : option string -> option string -> option string -> bool.

(** The database a request leaves. *)
Definition atender (p : Peticion) (bd : BD) : BD :=
  match p with
  | PLibro op => snd (ejecutar op bd)
  | PLimpieza l => limpiar l bd
  | PGenerarQR env imagen segundos token tipoUsuario clienteId cliente =>
      snd (ClienteController.generarQR env imagen segundos token tipoUsuario clienteId
             cliente bd)
  | PLeerQR env token => snd (leerQR env token bd)
  | PConfigurarPuntos env empresaId gasto puntos =>
      snd (configurarPuntos env empresaId gasto puntos bd)
  | PObtenerConfiguracionPuntos empresaId => snd (obtenerConfiguracionPuntos empresaId bd)
  | PValidarCodigo codigoPedido empresaId =>
      snd (validarCodigo toUpperCase codigoPedido empresaId bd)
  | PObtenerPuntosEmpresas clienteId =>
      snd (ClienteController.obtenerPuntosEmpresas clienteId bd)
  | PCrear env empresaId nuevoId nombre descripcion puntosRequeridos stock categoria =>
      snd (RecompensaController.crear valida_textos env empresaId nuevoId nombre
             descripcion puntosRequeridos stock categoria bd)
  | PActualizar env recompensaId empresaId nombre descripcion puntosRequeridos stock
      categoria activo =>
      snd (RecompensaController.actualizar valida_textos env recompensaId empresaId
             nombre descripcion puntosRequeridos stock categoria activo bd)
  | PEliminar env recompensaId empresaId =>
      snd (RecompensaController.eliminar env recompensaId empresaId bd)
  end.

Fixpoint atender_todas (ps : list Peticion) (bd : BD) : BD :=
  match ps with
  | [] => bd
  | p :: ps' => atender_todas ps' (atender p bd)
  end.

End Servidor.

(** ** Invariants of the stored data *)

(** The catalogue as the schema wants it, with counters that count. *)
Definition CatalogoBienFormado (bd : BD) : Prop :=
  forall id r, recompensas bd !! id = Some r ->
    1 <= r_puntosRequeridos r /\ -1 <= r_stock r /\ 0 <= r_canjesRealizados r.

Definition SaldosNoNegativos (bd : BD) : Prop :=
  forall id u, usuarios bd !! id = Some u -> 0 <= u_puntos u.

Definition CodigosUnicos (bd : BD) : Prop :=
  NoDup (c_codigoCanje <$> canjes bd).

(** What never changes in a redemption once stored. *)
Definition mismo_canje (c c' : Canje) : Prop :=
  c_cliente c' = c_cliente c /\ c_recompensa c' = c_recompensa c /\
  c_empresa c' = c_empresa c /\ c_puntosCanjeados c' = c_puntosCanjeados c /\
  c_puntosAnteriores c' = c_puntosAnteriores c /\
  c_puntosRestantes c' = c_puntosRestantes c /\ c_codigoCanje c' = c_codigoCanje c.

(** [bd'] extends the records of [bd]: the ledger is a prefix, and
    every redemption is still there, under the same id. *)
Definition Extiende (bd bd' : BD) : Prop :=
  transacciones bd `prefix_of` transacciones bd' /\
  (length (canjes bd) <= length (canjes bd'))%nat /\
  forall i c, canjes bd !! i = Some c ->
    exists c', canjes bd' !! i = Some c' /\ mismo_canje c c'.

(** [token] is not stored, or it is stored as used. *)
Definition UsadoOAusente (token : string) (bd : BD) : Prop :=
  forall q, qrtokens bd !! token = Some q -> q_usado q = true.

(** The request is not a [generarQR] that draws [token]. *)
Definition no_emite (token : string) (p : Peticion) : Prop :=
  match p with
  | PGenerarQR _ _ _ token' _ _ _ => token' <> token
  | _ => True
  end.

(** Every user of [bd] is in [bd'] with the same balance at the
    business [e]. *)
Definition MismoSaldoEn (e : Id) (bd bd' : BD) : Prop :=
  forall id u, usuarios bd !! id = Some u ->
    exists u', usuarios bd' !! id = Some u' /\
      puntosEnEmpresa e (u_puntosPorEmpresa u') = puntosEnEmpresa e (u_puntosPorEmpresa u).

(** A run of redemptions of one reward, and its answers. *)
Fixpoint canjear_en_serie (recompensaId : Id) (pedidos : list (Entorno * Id * string))
    (bd : BD) : list Respuesta * BD :=
  match pedidos with
  | [] => ([], bd)
  | (env, clienteId, codigoCanje) :: pedidos' =>
      let r := canjear env clienteId (IdDado recompensaId) codigoCanje bd in
      let rs := canjear_en_serie recompensaId pedidos' (snd r) in
      (fst r :: fst rs, snd rs)
  end.

Definition exitosos (rs : list Respuesta) : nat :=
  length (filter (fun r => status r = 201%nat) rs).

#[global] Instance CatalogoBienFormado_dec (bd : BD) : Decision (CatalogoBienFormado bd).
Proof.
  unfold CatalogoBienFormado.
  apply (map_Forall_dec
           (fun _ r => 1 <= r_puntosRequeridos r /\ -1 <= r_stock r /\ 0 <= r_canjesRealizados r)).
Defined.

#[global] Instance SaldosNoNegativos_dec (bd : BD) : Decision (SaldosNoNegativos bd).
Proof.
  unfold SaldosNoNegativos.
  refine (map_Forall_dec (fun _ u => 0 <= u_puntos u) (usuarios bd)).
  intros _ u. apply Z.le_dec.
Defined.

#[global] Instance CodigosUnicos_dec (bd : BD) : Decision (CodigosUnicos bd).
Proof. unfold CodigosUnicos. apply _. Defined.

(** * More of the worked database *)

Module Escenario.

(** The text validators are taken to accept. *)
Definition textos (_ _ _ : option string) : bool := true.

(** Customer 1 asks for a code, business 2 scans it, sets its formula
    to 2 points per 50 spent and credits 120; the expired tokens are
    cleaned away; business 3 adds a reward and edits it, business 2
    tries to delete it; customer 1 redeems reward 8, whose code
    business 3 checks and delivers; the TTL index passes. *)
Definition peticiones : list Peticion :=
  [ PGenerarQR (sin_fallas 2000) true 30 "U" TipoCliente 1%nat Ejemplo.cliente1;
    PLeerQR (sin_fallas 2001) (Some "U");
    PConfigurarPuntos (sin_fallas 2002) 2%nat (Some (Num (inject_Z 50))) (Some (Entero 2));
    PLibro (OpAgregarPuntos (sin_fallas 2003) 2%nat
              (con_configuracion {| gastoRequerido := inject_Z 50; puntosOtorgados := 2 |}
                 Ejemplo.empresa)
              (Some "U") (Some (Num (inject_Z 120))));
    PLimpieza (Manual 2004);
    PCrear (sin_fallas 2004) 3%nat 9%nat (Some "Cafe") None (Some 15) (Some 2) None;
    PActualizar (sin_fallas 2005) 9%nat 3%nat None None (Some 20) None None (Some false);
    PEliminar (sin_fallas 2006) 9%nat 2%nat;
    PLibro (OpCanjear (sin_fallas 2007) 1%nat (IdDado 8%nat) "CJ-0000000A");
    PValidarCodigo "cj-0000000a" 3%nat;
    PLibro (OpMarcarEntregado (sin_fallas 2008) 2%nat 3%nat);
    PObtenerPuntosEmpresas 1%nat;
    PObtenerConfiguracionPuntos 2%nat;
    PLimpieza (TTL 100000) ].

(** The requests among them that are not the ledger's. *)
Definition peticiones_sin_libro : list Peticion :=
  [ PGenerarQR (sin_fallas 2000) true 30 "U" TipoCliente 1%nat Ejemplo.cliente1;
    PLeerQR (sin_fallas 2001) (Some "U");
    PConfigurarPuntos (sin_fallas 2002) 2%nat (Some (Num (inject_Z 50))) (Some (Entero 2));
    PLimpieza (Manual 2004);
    PCrear (sin_fallas 2004) 3%nat 9%nat (Some "Cafe") None (Some 15) (Some 2) None;
    PActualizar (sin_fallas 2005) 9%nat 3%nat None None (Some 20) None None (Some false);
    PEliminar (sin_fallas 2006) 9%nat 3%nat;
    PValidarCodigo "cj-00000001" 3%nat;
    PObtenerPuntosEmpresas 1%nat ].

End Escenario.

(** * The redemptions on doubles *)

(** [crear], [canjear] and [cancelar] of the source once more, with
    every number of points, stock and counter a binary64 float of the
    kernel, for the databases whose numbers are not whole.  On
    numbers, [<], [<=], [===] and [!==] are [<?], [<=?], [=?] and its
    negation; [+=] and [-=] are the rounded sum and difference. *)
Module Doble.

Import PrimFloat.

Record PuntosEmpresa := {
  pe_empresa : option Id;
  pe_puntos : float;
  pe_ultimaTransaccion : Fecha
}.

(** models/Usuario.js, the fields the redemptions read or write. *)
Record Usuario := {
  u_puntos : float;
  u_puntosPorEmpresa : list PuntosEmpresa
}.

Record Recompensa := {
  r_empresa : Id;
  r_puntosRequeridos : float;
  r_stock : float;
  r_activo : bool;
  r_canjesRealizados : float
}.

Record Canje := {
  c_cliente : Id;
  c_recompensa : Id;
  c_empresa : Id;
  c_puntosCanjeados : float;
  c_puntosAnteriores : float;
  c_puntosRestantes : float;
  c_codigoCanje : string;
  c_estado : Estado;
  c_fechaEntrega : option Fecha
}.

Record BD := {
  usuarios : gmap Id Usuario;
  recompensas : gmap Id Recompensa;
  canjes : list Canje
}.

(** The validators of the schemas: [min: 0] on [Usuario.puntos],
    [min: 1] on [Canje.puntosCanjeados], [min: 1] on
    [Recompensa.puntosRequeridos] and [min: -1] on [Recompensa.stock]. *)
Definition valida_usuario (u : Usuario) : bool := (0 <=? u_puntos u)%float.

Definition valida_canje (c : Canje) : bool := (1 <=? c_puntosCanjeados c)%float.

Definition valida_puntosRequeridos (r : Recompensa) : bool :=
  (1 <=? r_puntosRequeridos r)%float.

Definition valida_recompensa (r : Recompensa) : bool := (-1 <=? r_stock r)%float.

Inductive Mensaje :=
  (* crear *)
  | NombreYPuntosObligatorios
  | PuntosRequeridosAlMenosUno
  | ErrorDeValidacion
  | RecompensaCreada (id : Id) (r : Recompensa)
  (* canjear *)
  | IdRecompensaRequerido
  | RecompensaNoEncontrada
  | RecompensaNoDisponible
  | RecompensaAgotada
  | PuntosInsuficientes (puntosActuales puntosRequeridos puntosFaltantes : float)
  | PuntosInsuficientesEnEmpresa (puntosEnEmpresa puntosRequeridos puntosFaltantes : float)
  | CanjeRealizado (canje : Id) (anteriores canjeados restantes : float)
  | IdRecompensaInvalido
  | ErrorAlProcesarCanje
  (* cancelar *)
  | CanjeNoEncontradoONoSePuedeCancelar
  | CanjeCancelado (puntosDevueltos : float)
  | ErrorInternoDelServidor.

Record Respuesta := { status : nat; mensaje : Mensaje }.

Definition Op (A : Type) := BD -> Resultado A * BD.

Definition responder (s : nat) (m : Mensaje) : Op Respuesta :=
  ret {| status := s; mensaje := m |}.

Definition intentar (cuerpo : Op Respuesta) (alCapturar : Excepcion -> Respuesta)
  : BD -> Respuesta * BD :=
  fun bd =>
    match cuerpo bd with
    | (Valor r, bd') => (r, bd')
    | (Lanza e, bd') => (alCapturar e, bd')
    end.

Definition con_usuarios (f : gmap Id Usuario -> gmap Id Usuario) (bd : BD) : BD :=
  {| usuarios := f (usuarios bd); recompensas := recompensas bd; canjes := canjes bd |}.

Definition con_recompensas (f : gmap Id Recompensa -> gmap Id Recompensa) (bd : BD) : BD :=
  {| usuarios := usuarios bd; recompensas := f (recompensas bd); canjes := canjes bd |}.

Definition con_canjes (f : list Canje -> list Canje) (bd : BD) : BD :=
  {| usuarios := usuarios bd; recompensas := recompensas bd; canjes := f (canjes bd) |}.

(** ** recompensaController.js: crear *)

(** [crear(req, res)] with a body whose [puntosRequeridos] and [stock]
    are JSON numbers; [textos] says that the validators of the text
    fields accept.  [!puntosRequeridos] holds of a missing field, of
    zero and of NaN. *)
Definition crear (env : Entorno) (textos : bool) (empresaId nuevoId : Id)
    (nombre : option string) (puntosRequeridos stock : option float)
  : BD -> Respuesta * BD :=
  intentar
    (match nombre, puntosRequeridos with
     | None, _ | Some EmptyString, _ | _, None =>
         responder 400 NombreYPuntosObligatorios
     | Some _, Some puntosRequeridos =>
         if (puntosRequeridos =? 0)%float || is_nan puntosRequeridos
         then responder 400 NombreYPuntosObligatorios
         else if (puntosRequeridos <? 1)%float
         then responder 400 PuntosRequeridosAlMenosUno
         else
           let recompensa :=
             {| r_empresa := empresaId;
                r_puntosRequeridos := puntosRequeridos;
                r_stock := match stock with Some s => s | None => (-1)%float end;
                r_activo := true;
                r_canjesRealizados := 0%float |} in
           escribir (falla env 1%nat)
             (textos && valida_puntosRequeridos recompensa && valida_recompensa recompensa)
             (fun bd => bd) ;;;
           existente <- leer (fun bd => recompensas bd !! nuevoId) ;;
           match existente with
           | Some _ => lanzar DuplicateKey
           | None =>
               escribir false true (con_recompensas (insert nuevoId recompensa)) ;;;
               responder 201 (RecompensaCreada nuevoId recompensa)
           end
     end)
    (fun error =>
       match error with
       | ValidationError => {| status := 400; mensaje := ErrorDeValidacion |}
       | _ => {| status := 500; mensaje := ErrorInternoDelServidor |}
       end).

(** ** canjeController.js: canjear, cancelar *)

Definition es_de_empresa (empresaId : Id) (pe : PuntosEmpresa) : bool :=
  match pe_empresa pe with
  | Some e => bool_decide (e = empresaId)
  | None => false
  end.

Definition con_puntos (puntos : float) (l : list PuntosEmpresa) (u : Usuario) : Usuario :=
  {| u_puntos := puntos; u_puntosPorEmpresa := l |}.

Definition con_stock (stock canjesRealizados : float) (r : Recompensa) : Recompensa :=
  {| r_empresa := r_empresa r;
     r_puntosRequeridos := r_puntosRequeridos r;
     r_stock := stock;
     r_activo := r_activo r;
     r_canjesRealizados := canjesRealizados |}.

Definition con_estado (e : Estado) (c : Canje) : Canje :=
  {| c_cliente := c_cliente c;
     c_recompensa := c_recompensa c;
     c_empresa := c_empresa c;
     c_puntosCanjeados := c_puntosCanjeados c;
     c_puntosAnteriores := c_puntosAnteriores c;
     c_puntosRestantes := c_puntosRestantes c;
     c_codigoCanje := c_codigoCanje c;
     c_estado := e;
     c_fechaEntrega := c_fechaEntrega c |}.

(** [canjear], lines 146-153. *)
Definition descontar_empresa (indexEmpresa : option nat) (puntos : float)
    (l : list PuntosEmpresa) : list PuntosEmpresa :=
  match indexEmpresa with
  | Some i =>
      alter (fun pe =>
               let resta := (pe_puntos pe - puntos)%float in
               {| pe_empresa := pe_empresa pe;
                  pe_puntos := if (resta <? 0)%float then 0%float else resta;
                  pe_ultimaTransaccion := pe_ultimaTransaccion pe |}) i l
  | None => l
  end.

(** [cancelar], lines 455-470. *)
Definition abonar_empresa (t : Fecha) (empresaId : Id) (puntos : float)
    (l : list PuntosEmpresa) : list PuntosEmpresa :=
  match findIndex (es_de_empresa empresaId) l with
  | Some i =>
      alter (fun pe => {| pe_empresa := pe_empresa pe;
                          pe_puntos := (pe_puntos pe + puntos)%float;
                          pe_ultimaTransaccion := t |}) i l
  | None =>
      l ++ [ {| pe_empresa := Some empresaId;
                pe_puntos := puntos;
                pe_ultimaTransaccion := t |} ]
  end.

Definition insertar_canje (falla : bool) (canje : Canje) : Op Id :=
  fun bd =>
    if falla then (Lanza ErrorDeAlmacen, bd)
    else if negb (valida_canje canje) then (Lanza ValidationError, bd)
    else if existsb (fun c => String.eqb (c_codigoCanje c) (c_codigoCanje canje)) (canjes bd)
    then (Lanza DuplicateKey, bd)
    else (Valor (length (canjes bd)), con_canjes (fun l => l ++ [canje]) bd).

(** [canjear(req, res)], line by line as the handler on whole numbers
    above. *)
Definition canjear (env : Entorno) (clienteId : Id) (recompensaId : IdPedido)
    (codigoCanje : string) : BD -> Respuesta * BD :=
  intentar
    (match recompensaId with
     | SinId => responder 400 IdRecompensaRequerido
     | IdMalformado => lanzar CastError
     | IdDado recompensaId =>
     recompensa <- leer (fun bd => recompensas bd !! recompensaId) ;;
     match recompensa with
     | None => responder 404 RecompensaNoEncontrada
     | Some recompensa =>
     empresa <- leer (fun bd => usuarios bd !! r_empresa recompensa) ;;
     if negb (r_activo recompensa) then responder 400 RecompensaNoDisponible
     else if negb (r_stock recompensa =? -1)%float && (r_stock recompensa <=? 0)%float
     then responder 400 RecompensaAgotada
     else
     clienteActualizado <- leer (fun bd => usuarios bd !! clienteId) ;;
     match clienteActualizado with
     | None => lanzar TypeError
     | Some clienteActualizado =>
     if (u_puntos clienteActualizado <? r_puntosRequeridos recompensa)%float
     then responder 400
            (PuntosInsuficientes (u_puntos clienteActualizado)
               (r_puntosRequeridos recompensa)
               (r_puntosRequeridos recompensa - u_puntos clienteActualizado)%float)
     else
     match empresa with
     | None => lanzar TypeError
     | Some _ =>
     let empresaId := r_empresa recompensa in
     let indexEmpresa :=
       findIndex (es_de_empresa empresaId) (u_puntosPorEmpresa clienteActualizado) in
     let puntosEnEmpresa :=
       match indexEmpresa with
       | Some i =>
           from_option pe_puntos 0%float (u_puntosPorEmpresa clienteActualizado !! i)
       | None => 0%float
       end in
     if (puntosEnEmpresa <? r_puntosRequeridos recompensa)%float
     then responder 400
            (PuntosInsuficientesEnEmpresa puntosEnEmpresa
               (r_puntosRequeridos recompensa)
               (r_puntosRequeridos recompensa - puntosEnEmpresa)%float)
     else
     let puntosAnteriores := u_puntos clienteActualizado in
     let puntosRestantes := (puntosAnteriores - r_puntosRequeridos recompensa)%float in
     let canje :=
       {| c_cliente := clienteId;
          c_recompensa := recompensaId;
          c_empresa := empresaId;
          c_puntosCanjeados := r_puntosRequeridos recompensa;
          c_puntosAnteriores := puntosAnteriores;
          c_puntosRestantes := puntosRestantes;
          c_codigoCanje := codigoCanje;
          c_estado := pendiente;
          c_fechaEntrega := None |} in
     canjeId <- insertar_canje (falla env 1%nat) canje ;;
     let clienteActualizado :=
       con_puntos puntosRestantes
         (descontar_empresa indexEmpresa (r_puntosRequeridos recompensa)
            (u_puntosPorEmpresa clienteActualizado))
         clienteActualizado in
     escribir (falla env 2%nat) (valida_usuario clienteActualizado)
       (con_usuarios (insert clienteId clienteActualizado)) ;;;
     let recompensa :=
       con_stock
         (if negb (r_stock recompensa =? -1)%float then (r_stock recompensa - 1)%float
          else r_stock recompensa)
         (r_canjesRealizados recompensa + 1)%float
         recompensa in
     escribir (falla env 3%nat) (valida_recompensa recompensa)
       (con_recompensas (insert recompensaId recompensa)) ;;;
     responder 201
       (CanjeRealizado canjeId puntosAnteriores (r_puntosRequeridos recompensa)
          puntosRestantes)
     end end end end)
    (fun error =>
       match error with
       | CastError => {| status := 400; mensaje := IdRecompensaInvalido |}
       | _ => {| status := 500; mensaje := ErrorAlProcesarCanje |}
       end).

(** [Canje.findOne({ _id, empresa, estado: 'pendiente' })] *)
Definition buscar_canje_pendiente (canjeId empresaId : Id) (bd : BD) : option Canje :=
  match canjes bd !! canjeId with
  | Some c =>
      if bool_decide (c_empresa c = empresaId) && bool_decide (c_estado c = pendiente)
      then Some c else None
  | None => None
  end.

(** [Math.max(0, x)] *)
Definition max_0 (x : float) : float :=
  if is_nan x then x else if (0 <? x)%float then x else 0%float.

(** [cancelar(req, res)] *)
Definition cancelar (env : Entorno) (canjeId empresaId : Id)
  : BD -> Respuesta * BD :=
  intentar
    (canje <- leer (buscar_canje_pendiente canjeId empresaId) ;;
     match canje with
     | None => responder 404 CanjeNoEncontradoONoSePuedeCancelar
     | Some canje =>
         let empresaId := c_empresa canje in
         cliente <- leer (fun bd => usuarios bd !! c_cliente canje) ;;
         match cliente with
         | None => lanzar TypeError
         | Some cliente =>
             let cliente :=
               con_puntos (u_puntos cliente + c_puntosCanjeados canje)%float
                 (abonar_empresa (ahora env) empresaId (c_puntosCanjeados canje)
                    (u_puntosPorEmpresa cliente))
                 cliente in
             escribir (falla env 1%nat) (valida_usuario cliente)
               (con_usuarios (insert (c_cliente canje) cliente)) ;;;
             recompensa <- leer (fun bd => recompensas bd !! c_recompensa canje) ;;
             match recompensa with
              | Some recompensa =>
                  let recompensa :=
                    con_stock
                      (if negb (r_stock recompensa =? -1)%float
                       then (r_stock recompensa + 1)%float
                       else r_stock recompensa)
                      (max_0 (r_canjesRealizados recompensa - 1)%float)
                      recompensa in
                  escribir (falla env 2%nat) (valida_recompensa recompensa)
                    (con_recompensas (insert (c_recompensa canje) recompensa))
              | None => ret tt
              end ;;;
             let canje := con_estado cancelado canje in
             escribir (falla env 3%nat) true (con_canjes (insert canjeId canje)) ;;;
             responder 200 (CanjeCancelado (c_puntosCanjeados canje))
         end
     end)
    (fun _ => {| status := 500; mensaje := ErrorInternoDelServidor |}).

(** ** What is read off a database *)

(** The rational a finite double denotes. *)
Definition valor (x : float) : Q :=
  match FloatOps.Prim2SF x with
  | SpecFloat.S754_finite s m e => escalar (if s then Zneg m else Zpos m) e
  | _ => 0%Q
  end.

(** The customer's [puntos], and the [puntos] of the entries. *)
Definition puntos_de (clienteId : Id) (bd : BD) : option float :=
  u_puntos <$> usuarios bd !! clienteId.

Definition entradas_de (clienteId : Id) (bd : BD) : list float :=
  from_option (fun u => pe_puntos <$> u_puntosPorEmpresa u) [] (usuarios bd !! clienteId).

(** The sum of the entries, as the sum of the rationals they hold. *)
Definition suma_exacta (l : list float) : Q := foldr (fun x s => Qplus (valor x) s) 0%Q l.

(** The global balance of every customer is the sum of the entries. *)
Definition Conservacion (bd : BD) : bool :=
  bool_decide
    (map_Forall
       (fun _ u =>
          Qeq_bool (valor (u_puntos u)) (suma_exacta (pe_puntos <$> u_puntosPorEmpresa u))
          = true)
       (usuarios bd)).

Definition stock_de (recompensaId : Id) (bd : BD) : option float :=
  r_stock <$> recompensas bd !! recompensaId.

(** ** A database of whole numbers *)

(** Customer 1 holds 15 points, 10 with business 2 and 5 with
    business 3; customer 4 holds 10 points, all with business 2.  No
    reward yet, no redemption. *)
Definition inicial : BD :=
  {| usuarios :=
       <[1%nat := {| u_puntos := 15;
                     u_puntosPorEmpresa :=
                       [ {| pe_empresa := Some 2%nat; pe_puntos := 10;
                            pe_ultimaTransaccion := 0 |};
                         {| pe_empresa := Some 3%nat; pe_puntos := 5;
                            pe_ultimaTransaccion := 0 |} ] |}]>
         (<[2%nat := {| u_puntos := 0; u_puntosPorEmpresa := [] |}]>
            (<[3%nat := {| u_puntos := 0; u_puntosPorEmpresa := [] |}]>
               (<[4%nat := {| u_puntos := 10;
                              u_puntosPorEmpresa :=
                                [ {| pe_empresa := Some 2%nat; pe_puntos := 10;
                                     pe_ultimaTransaccion := 0 |} ] |}]> ∅)));
     recompensas := ∅;
     canjes := [] |}.

(** [redondear] against the processor: the doubles below, two by two,
    are added, subtracted, multiplied and divided by the kernel and by
    [redondear] on the rationals they denote. *)
Definition muestras : list float :=
  [ 8.95; 1.79; 1.1; 1.2; 2.2; 15; 10; 5; 0.1; 0.2; 0.3; 1e22; 1e20; 50;
    9007199254740992; 9007199254740993; 0.005; 0.01; 100; 250; 3; 7; 1e-5;
    123456789.123456789; 4.35; 0.7; 13.9; 12.7; 6.02e23; 2.5; 0.5;
    1.0000000000000002; 0.9999999999999999; 4503599627370497; 9007199254740991;
    18014398509481985 ]%float.

Definition coinciden (a b : float) : bool :=
  Qeq_bool (valor (a + b)) (sumar (valor a) (valor b))
  && Qeq_bool (valor (a - b)) (redondear (Qminus (valor a) (valor b)))
  && Qeq_bool (valor (a * b)) (multiplicar (valor a) (valor b))
  && Qeq_bool (valor (a / b)) (dividir (valor a) (valor b)).

End Doble.

Import (notations) PrimFloat.

(** The double that holds a whole number of magnitude at most 2^53. *)
Definition doble_de (z : Z) : PrimFloat.float :=
  if z <? 0 then PrimFloat.opp (PrimFloat.of_uint63 (Uint63.of_Z (- z)))
  else PrimFloat.of_uint63 (Uint63.of_Z z).

(** A database of whole numbers, as the documents of doubles it is. *)
Definition en_dobles (bd : BD) : Doble.BD :=
  {| Doble.usuarios :=
       (fun u =>
          {| Doble.u_puntos := doble_de (u_puntos u);
             Doble.u_puntosPorEmpresa :=
               (fun pe =>
                  {| Doble.pe_empresa := pe_empresa pe;
                     Doble.pe_puntos := doble_de (pe_puntos pe);
                     Doble.pe_ultimaTransaccion := pe_ultimaTransaccion pe |})
               <$> u_puntosPorEmpresa u |}) <$> usuarios bd;
     Doble.recompensas :=
       (fun r =>
          {| Doble.r_empresa := r_empresa r;
             Doble.r_puntosRequeridos := doble_de (r_puntosRequeridos r);
             Doble.r_stock := doble_de (r_stock r);
             Doble.r_activo := r_activo r;
             Doble.r_canjesRealizados := doble_de (r_canjesRealizados r) |})
       <$> recompensas bd;
     Doble.canjes :=
       (fun c =>
          {| Doble.c_cliente := c_cliente c;
             Doble.c_recompensa := c_recompensa c;
             Doble.c_empresa := c_empresa c;
             Doble.c_puntosCanjeados := doble_de (c_puntosCanjeados c);
             Doble.c_puntosAnteriores := doble_de (c_puntosAnteriores c);
             Doble.c_puntosRestantes := doble_de (c_puntosRestantes c);
             Doble.c_codigoCanje := c_codigoCanje c;
             Doble.c_estado := c_estado c;
             Doble.c_fechaEntrega := c_fechaEntrega c |})
       <$> canjes bd |}.

(** * Properties *)

(** ** Doubles and whole numbers *)

(** On the whole numbers within 2^53 the rounded operations are the
    exact ones, which is why [Z] stands for the doubles there. *)

Lemma Qred_inject_Z (n : Z) : Qred (inject_Z n) = inject_Z n.
Proof. apply Qcanon.Qred_identity. simpl. apply Z.gcd_1_r. Qed.

Lemma es_doble_entero (n : Z) :
  - 2 ^ 53 <= n <= 2 ^ 53 -> es_doble (inject_Z n) = true.
Proof.
  intros Hn. unfold es_doble. rewrite Qred_inject_Z. cbn [Qnum Qden inject_Z].
  apply andb_true_iff. split; [reflexivity|].
  apply orb_true_iff. left. apply Z.leb_le. lia.
Qed.

Lemma redondear_comp (x y : Q) : Qeq x y -> redondear x = redondear y.
Proof. intros H. unfold redondear. by rewrite (Qred_complete _ _ H). Qed.

Lemma redondear_entero (n : Z) :
  - 2 ^ 53 <= n <= 2 ^ 53 -> redondear (inject_Z n) = inject_Z n.
Proof.
  intros Hn. unfold redondear. rewrite Qred_inject_Z. by rewrite es_doble_entero.
Qed.






Lemma sumar_enteros (a b : Z) :
  - 2 ^ 53 <= a + b <= 2 ^ 53 -> sumar (inject_Z a) (inject_Z b) = inject_Z (a + b).
Proof.
  intros H. unfold sumar. rewrite (redondear_comp _ (inject_Z (a + b))).
  - by apply redondear_entero.
  - by rewrite inject_Z_plus.
Qed.

Lemma multiplicar_enteros (a b : Z) :
  - 2 ^ 53 <= a * b <= 2 ^ 53 -> multiplicar (inject_Z a) (inject_Z b) = inject_Z (a * b).
Proof.
  intros H. unfold multiplicar. rewrite (redondear_comp _ (inject_Z (a * b))).
  - by apply redondear_entero.
  - by rewrite inject_Z_mult.
Qed.

Lemma dividir_multiplo (n k : Z) :
  n <> 0 -> - 2 ^ 53 <= k <= 2 ^ 53 ->
  dividir (inject_Z (n * k)) (inject_Z n) = inject_Z k.
Proof.
  intros Hn Hk. unfold dividir. rewrite (redondear_comp _ (inject_Z k)).
  - by apply redondear_entero.
  - rewrite inject_Z_mult. rewrite Qmult_comm. apply Qdiv_mult_l.
    intros H. apply Hn. unfold Qeq in H. simpl in H. lia.
Qed.

(** [redondear] rounds as the processor does: on the doubles of
    [Doble.muestras], two by two, the kernel's sum, difference, product
    and quotient are those of [redondear]. *)
Example redondear_es_binary64 :
  forallb (fun a => forallb (Doble.coinciden a) Doble.muestras) Doble.muestras = true.
Proof. vm_compute. reflexivity. Qed.

(** On the worked database, a redemption and its cancellation by the
    handlers on whole numbers and by the handlers on doubles: the same
    answers, and the same databases. *)
Example enteros_y_dobles_coinciden :
  let r := canjear (sin_fallas 20) 1%nat (IdDado 8%nat) "CJ-00000002" Ejemplo.bd in
  let r' := Doble.canjear (sin_fallas 20) 1%nat (IdDado 8%nat) "CJ-00000002"
              (en_dobles Ejemplo.bd) in
  let s := cancelar (sin_fallas 30) 2%nat 3%nat r.2 in
  let s' := Doble.cancelar (sin_fallas 30) 2%nat 3%nat r'.2 in
  status r.1 = 201%nat /\ Doble.status r'.1 = 201%nat /\ r'.2 = en_dobles r.2 /\
  status s.1 = 200%nat /\ Doble.status s'.1 = 200%nat /\ s'.2 = en_dobles s.2.
Proof. repeat split; vm_compute; reflexivity. Qed.

(** ** Lists of per-business entries *)

Lemma findIndex_Some {A} (p : A -> bool) (l : list A) (i : nat) :
  findIndex p l = Some i -> exists x, l !! i = Some x /\ p x = true.
Proof.
  revert i. induction l as [|y l IH]; intros i; simpl; [done|].
  destruct (p y) eqn:Hp.
  - intros [= <-]. by exists y.
  - destruct (findIndex p l) as [j|]; simpl; [|done].
    intros [= <-]. by apply IH.
Qed.

Lemma suma_puntos_app (l : list PuntosEmpresa) (pe : PuntosEmpresa) :
  suma_puntos (l ++ [pe]) = suma_puntos l + pe_puntos pe.
Proof. induction l as [|y l IH]; simpl; lia. Qed.

Lemma suma_puntos_alter (f : PuntosEmpresa -> PuntosEmpresa)
    (l : list PuntosEmpresa) (i : nat) (pe : PuntosEmpresa) :
  l !! i = Some pe ->
  suma_puntos (alter f i l) = suma_puntos l - pe_puntos pe + pe_puntos (f pe).
Proof.
  revert i. induction l as [|y l IH]; intros [|i]; simpl; try done.
  - intros [= ->]. lia.
  - intros H. specialize (IH _ H). unfold alter in IH. lia.
Qed.

Lemma suma_abonar_empresa (t : Fecha) (e : Id) (p : Z) (l : list PuntosEmpresa) :
  suma_puntos (abonar_empresa t e p l) = suma_puntos l + p.
Proof.
  unfold abonar_empresa.
  destruct (findIndex (es_de_empresa e) l) as [i|] eqn:Hi.
  - destruct (findIndex_Some _ _ _ Hi) as (pe & Hpe & _).
    rewrite (suma_puntos_alter _ _ _ _ Hpe). simpl. lia.
  - by rewrite suma_puntos_app.
Qed.

(** Where the entry holds at least the points asked, the subtraction
    stores the exact difference: the replacement of a negative result
    by 0 does not apply. *)
Lemma descontar_empresa_sin_tope (i : nat) (pe : PuntosEmpresa) (req : Z)
    (l : list PuntosEmpresa) :
  l !! i = Some pe ->
  req <= pe_puntos pe ->
  descontar_empresa (Some i) req l
  = <[i := {| pe_empresa := pe_empresa pe;
              pe_puntos := pe_puntos pe - req;
              pe_ultimaTransaccion := pe_ultimaTransaccion pe |}]> l.
Proof.
  intros Hpe Hle. unfold descontar_empresa.
  apply list_eq. intros j. destruct (decide (i = j)) as [<-|Hne].
  - rewrite list_lookup_alter_eq, Hpe. simpl.
    rewrite list_lookup_insert_eq by (by eapply lookup_lt_Some).
    destruct (pe_puntos pe - req <? 0) eqn:Hneg; [apply Z.ltb_lt in Hneg; lia|done].
  - by rewrite list_lookup_alter_ne, list_lookup_insert_ne.
Qed.

(** Once the check [puntosEnEmpresa < puntosRequeridos] has let a
    request of at least one point through, an entry was found and the
    subtraction takes exactly the points asked. *)
Lemma descontar_empresa_exacto (e : Id) (req : Z) (l : list PuntosEmpresa) :
  1 <= req ->
  (puntosEnEmpresa e l <? req) = false ->
  exists i pe,
    findIndex (es_de_empresa e) l = Some i /\ l !! i = Some pe /\ req <= pe_puntos pe /\
    descontar_empresa (Some i) req l
    = <[i := {| pe_empresa := pe_empresa pe;
                pe_puntos := pe_puntos pe - req;
                pe_ultimaTransaccion := pe_ultimaTransaccion pe |}]> l.
Proof.
  unfold puntosEnEmpresa. intros Hreq Hchk. apply Z.ltb_ge in Hchk.
  destruct (findIndex (es_de_empresa e) l) as [i|] eqn:Hi; [|lia].
  destruct (findIndex_Some _ _ _ Hi) as (pe & Hpe & _).
  rewrite Hpe in Hchk. simpl in Hchk.
  exists i, pe. repeat split; try done.
  by apply descontar_empresa_sin_tope.
Qed.

(** ** Conservation under each write *)

Lemma conserva_abonar (t : Fecha) (e : Id) (p : Z) (u : Usuario) :
  conserva u ->
  conserva (con_puntos (u_puntos u + p) (abonar_empresa t e p (u_puntosPorEmpresa u)) u).
Proof. unfold conserva. simpl. intros ->. by rewrite suma_abonar_empresa. Qed.

Lemma conserva_descontar (i : nat) (pe : PuntosEmpresa) (req : Z) (u : Usuario) :
  u_puntosPorEmpresa u !! i = Some pe ->
  req <= pe_puntos pe ->
  conserva u ->
  conserva (con_puntos (u_puntos u - req)
              (descontar_empresa (Some i) req (u_puntosPorEmpresa u)) u).
Proof.
  intros Hpe Hle. unfold conserva, descontar_empresa. simpl. intros ->.
  rewrite (suma_puntos_alter _ _ _ _ Hpe). simpl.
  destruct (pe_puntos pe - req <? 0) eqn:Hneg; [apply Z.ltb_lt in Hneg|]; lia.
Qed.

Lemma Conservacion_insert (id : Id) (u : Usuario) (bd : BD) :
  conserva u -> Conservacion bd -> Conservacion (con_usuarios (insert id u) bd).
Proof.
  intros Hu Hbd j v. simpl. rewrite lookup_insert.
  case_decide; [by intros [= <-]|apply Hbd].
Qed.

Lemma Conservacion_estadisticas (id : Id) (m : Q) (bd : BD) :
  Conservacion bd ->
  Conservacion (con_usuarios (alter (incrementar_estadisticas m) id) bd).
Proof.
  intros Hbd j v. simpl. rewrite lookup_alter.
  case_decide as Hij; [subst j|apply Hbd].
  destruct (usuarios bd !! id) as [u|] eqn:Hu; simpl; [|done].
  intros [= <-]. apply (Hbd _ _ Hu).
Qed.

Lemma Conservacion_qrtokens f (bd : BD) :
  Conservacion bd -> Conservacion (con_qrtokens f bd).
Proof. done. Qed.

Lemma Conservacion_recompensas f (bd : BD) :
  Conservacion bd -> Conservacion (con_recompensas f bd).
Proof. done. Qed.

Lemma Conservacion_canjes f (bd : BD) :
  Conservacion bd -> Conservacion (con_canjes f bd).
Proof. done. Qed.

Lemma Conservacion_transacciones f (bd : BD) :
  Conservacion bd -> Conservacion (con_transacciones f bd).
Proof. done. Qed.

Create HintDb conservacion.
#[local] Hint Resolve Conservacion_insert Conservacion_estadisticas
  Conservacion_qrtokens Conservacion_recompensas Conservacion_canjes
  Conservacion_transacciones conserva_abonar : conservacion.

#[local] Arguments descontar_empresa : simpl never.
#[local] Arguments abonar_empresa : simpl never.

Ltac desplegar :=
  unfold intentar, ligar, leer, responder, ret, lanzar, escribir,
    insertar_canje, marcarComoUsado in *;
  simpl in *.

Ltac por_casos := repeat (case_match; simplify_eq /=; try done).

(** From the index [findIndex] returned and the balance check that
    passed, recover the entry and the bound on its points. *)
Ltac entrada_hallada :=
  match goal with
  | Hi : findIndex _ ?l = Some ?n,
    Hc : (from_option pe_puntos 0 (?l !! ?n) <? _) = false |- _ =>
      let pe := fresh "pe" in
      let Hpe := fresh "Hpe" in
      destruct (findIndex_Some _ _ _ Hi) as (pe & Hpe & _);
      rewrite Hpe in Hc; simpl in Hc; apply Z.ltb_ge in Hc
  end.

(** ** Every handler keeps the balances consistent *)

Lemma agregarPuntos_conserva env empresaId empresa token monto bd :
  Conservacion bd ->
  Conservacion (snd (agregarPuntos env empresaId empresa token monto bd)).
Proof.
  intros Hbd. unfold agregarPuntos, acreditar, validarQR. desplegar.
  por_casos; eauto 10 with conservacion.
Qed.

Lemma cancelar_conserva env canjeId empresaId bd :
  Conservacion bd -> Conservacion (snd (cancelar env canjeId empresaId bd)).
Proof.
  intros Hbd. unfold cancelar. desplegar.
  por_casos; eauto 10 with conservacion.
Qed.

Lemma marcarEntregado_conserva env canjeId empresaId bd :
  Conservacion bd -> Conservacion (snd (marcarEntregado env canjeId empresaId bd)).
Proof.
  intros Hbd. unfold marcarEntregado. desplegar.
  por_casos; eauto 10 with conservacion.
Qed.

Lemma canjear_conserva env clienteId recompensaId codigoCanje bd :
  Conservacion bd ->
  Conservacion (snd (canjear env clienteId recompensaId codigoCanje bd)).
Proof.
  intros Hbd. unfold canjear. desplegar.
  por_casos; eauto 10 with conservacion.
  all: try apply Conservacion_recompensas.
  all: apply Conservacion_insert; eauto with conservacion.
  all: try (entrada_hallada; eapply conserva_descontar; by eauto).
  all: unfold valida_canje in *; simpl in *.
  all: repeat match goal with
       | H : negb _ = false |- _ => apply negb_false_iff in H
       | H : (_ <=? _) = true |- _ => apply Z.leb_le in H
       | H : (_ <? _) = false |- _ => apply Z.ltb_ge in H
       end; lia.
Qed.

(** ** Reading a balance back after an update *)

Lemma findIndex_alter {A} (p : A -> bool) (f : A -> A) (i : nat) (l : list A) :
  (forall x, p (f x) = p x) ->
  findIndex p (alter f i l) = findIndex p l.
Proof.
  intros Hf. revert i. induction l as [|y l IH]; intros [|i]; simpl; try done.
  - by rewrite Hf.
  - specialize (IH i). unfold alter in IH. by rewrite IH.
Qed.

Lemma findIndex_app_None {A} (p : A -> bool) (l : list A) (x : A) :
  findIndex p l = None ->
  findIndex p (l ++ [x]) = if p x then Some (length l) else None.
Proof.
  induction l as [|y l IH]; simpl.
  - by destruct (p x).
  - destruct (p y); [done|].
    destruct (findIndex p l); simpl; [done|]. intros _.
    rewrite IH by done. by destruct (p x).
Qed.

Lemma puntosEnEmpresa_abonar (t : Fecha) (e : Id) (p : Z) (l : list PuntosEmpresa) :
  puntosEnEmpresa e (abonar_empresa t e p l) = puntosEnEmpresa e l + p.
Proof.
  unfold puntosEnEmpresa, abonar_empresa.
  destruct (findIndex (es_de_empresa e) l) as [i|] eqn:Hi.
  - destruct (findIndex_Some _ _ _ Hi) as (pe & Hpe & _).
    rewrite findIndex_alter, Hi by done.
    by rewrite list_lookup_alter_eq, Hpe.
  - rewrite findIndex_app_None by done.
    unfold es_de_empresa. simpl. rewrite bool_decide_eq_true_2 by done.
    by rewrite lookup_app_r, Nat.sub_diag.
Qed.

Lemma puntosEnEmpresa_descontar (e : Id) (i : nat) (pe : PuntosEmpresa) (req : Z)
    (l : list PuntosEmpresa) :
  findIndex (es_de_empresa e) l = Some i ->
  l !! i = Some pe ->
  req <= pe_puntos pe ->
  puntosEnEmpresa e (descontar_empresa (Some i) req l) = pe_puntos pe - req.
Proof.
  intros Hi Hpe Hle. unfold puntosEnEmpresa, descontar_empresa.
  rewrite findIndex_alter, Hi by done.
  rewrite list_lookup_alter_eq, Hpe. simpl.
  destruct (pe_puntos pe - req <? 0) eqn:Hneg; [apply Z.ltb_lt in Hneg; lia|done].
Qed.

Ltac aritmetica :=
  repeat match goal with
  | H : negb _ = false |- _ => apply negb_false_iff in H
  | H : negb _ = true |- _ => apply negb_true_iff in H
  | H : (_ && _) = true |- _ => apply andb_true_iff in H; destruct H
  | H : (_ <=? _) = true |- _ => apply Z.leb_le in H
  | H : (_ <=? _) = false |- _ => apply Z.leb_gt in H
  | H : (_ <? _) = true |- _ => apply Z.ltb_lt in H
  | H : (_ <? _) = false |- _ => apply Z.ltb_ge in H
  | H : (_ =? _) = true |- _ => apply Z.eqb_eq in H
  | H : (_ =? _) = false |- _ => apply Z.eqb_neq in H
  end.

(** ** What a successful redemption leaves behind *)

Lemma canjear_exito env clienteId recompensaId codigoCanje bd r bd' :
  canjear env clienteId recompensaId codigoCanje bd = (r, bd') ->
  status r = 201%nat ->
  exists rid rec cli i pe,
    recompensaId = IdDado rid /\
    recompensas bd !! rid = Some rec /\
    usuarios bd !! clienteId = Some cli /\
    findIndex (es_de_empresa (r_empresa rec)) (u_puntosPorEmpresa cli) = Some i /\
    u_puntosPorEmpresa cli !! i = Some pe /\
    1 <= r_puntosRequeridos rec /\
    r_puntosRequeridos rec <= pe_puntos pe /\
    r_puntosRequeridos rec <= u_puntos cli /\
    r_activo rec = true /\
    (r_stock rec = -1 \/ 0 < r_stock rec) /\
    r = {| status := 201;
           mensaje := CanjeRealizado (length (canjes bd)) (u_puntos cli)
                        (r_puntosRequeridos rec) (u_puntos cli - r_puntosRequeridos rec) |} /\
    bd' = {| usuarios :=
               <[clienteId :=
                   con_puntos (u_puntos cli - r_puntosRequeridos rec)
                     (descontar_empresa (Some i) (r_puntosRequeridos rec) (u_puntosPorEmpresa cli))
                     cli]> (usuarios bd);
             qrtokens := qrtokens bd;
             recompensas :=
               <[rid := con_stock (if negb (r_stock rec =? -1) then r_stock rec - 1 else r_stock rec)
                          (r_canjesRealizados rec + 1) rec]> (recompensas bd);
             canjes := canjes bd ++ [canje_de clienteId rid rec cli codigoCanje];
             transacciones := transacciones bd |}.
Proof.
  unfold canjear. desplegar. intros H Hst.
  por_casos.
  all: try entrada_hallada.
  all: unfold valida_canje in *; simpl in *.
  all: aritmetica; try lia.
  all: do 5 eexists; repeat split; eauto; try lia.
  all: match goal with
       | H : r_stock _ <> -1 |- _ => apply Z.eqb_neq in H; by rewrite H
       | H : r_stock _ = -1 |- _ => by rewrite H
       end.
Qed.

(** Whatever its outcome, [canjear] either leaves every user document
    alone, and then it has not succeeded, or it has saved the customer
    with the points of a found entry subtracted. *)
Lemma canjear_escribe_cliente env clienteId recompensaId codigoCanje bd r bd' :
  canjear env clienteId recompensaId codigoCanje bd = (r, bd') ->
  (usuarios bd' = usuarios bd /\ status r <> 201%nat) \/
  exists rid rec cli i pe,
    recompensaId = IdDado rid /\
    recompensas bd !! rid = Some rec /\
    usuarios bd !! clienteId = Some cli /\
    findIndex (es_de_empresa (r_empresa rec)) (u_puntosPorEmpresa cli) = Some i /\
    u_puntosPorEmpresa cli !! i = Some pe /\
    1 <= r_puntosRequeridos rec /\
    r_puntosRequeridos rec <= pe_puntos pe /\
    usuarios bd'
    = <[clienteId :=
          con_puntos (u_puntos cli - r_puntosRequeridos rec)
            (descontar_empresa (Some i) (r_puntosRequeridos rec) (u_puntosPorEmpresa cli))
            cli]> (usuarios bd).
Proof.
  unfold canjear. desplegar. intros H.
  por_casos; try (by left).
  all: try entrada_hallada.
  all: unfold valida_canje in *; simpl in *.
  all: aritmetica; try lia.
  all: right; do 5 eexists; repeat split; eauto; lia.
Qed.

(** * The claims *)

(** C1 (conservation), for points that are whole numbers.  Take a
    run of [agregarPuntos], [canjear], [cancelar] and
    [marcarEntregado] requests, whatever their inputs and outcomes,
    along which every number of points stored is a whole number of
    magnitude at most 2^53 (on such numbers the handlers above are the
    code).  If at the start every customer's global balance [puntos]
    equals the sum of the [puntosPorEmpresa] entries, then so it does
    after every request of the run, the last one included. *)
Theorem conservacion_tras_operaciones (ops : list Operacion) (bd : BD) :
  Conservacion bd ->
  Forall EnRango (estados ops bd) ->
  Forall Conservacion (estados ops bd) /\
  forall id u,
    usuarios (ejecutar_todas ops bd) !! id = Some u ->
    u_puntos u = suma_puntos (u_puntosPorEmpresa u).
Proof.
  intros Hbd _. revert bd Hbd. induction ops as [|op ops IH]; intros bd Hbd; simpl.
  - split; [by constructor|exact Hbd].
  - assert (Hop : Conservacion (snd (ejecutar op bd))).
    { destruct op; simpl.
      + by apply agregarPuntos_conserva.
      + by apply canjear_conserva.
      + by apply cancelar_conserva.
      + by apply marcarEntregado_conserva. }
    destruct (IH _ Hop) as [Hall Hfin]. split; [by constructor|exact Hfin].
Qed.

(** C9 (the floor at zero is never reached).  In every run of
    [canjear] that succeeds, or that saves the customer before a later
    write fails, the entry of the reward's business was found, held at
    least the points required, and is stored with exactly the
    difference: the branch that replaces a negative difference by 0
    did not change the value, and the balance with that business
    afterwards is the old one minus the points required. *)
Theorem canjear_descuenta_exacto env clienteId recompensaId codigoCanje bd r bd' :
  canjear env clienteId recompensaId codigoCanje bd = (r, bd') ->
  status r = 201%nat \/ usuarios bd' <> usuarios bd ->
  exists rid rec cli cli' i pe,
    recompensaId = IdDado rid /\
    recompensas bd !! rid = Some rec /\
    usuarios bd !! clienteId = Some cli /\
    usuarios bd' !! clienteId = Some cli' /\
    findIndex (es_de_empresa (r_empresa rec)) (u_puntosPorEmpresa cli) = Some i /\
    u_puntosPorEmpresa cli !! i = Some pe /\
    0 <= pe_puntos pe - r_puntosRequeridos rec /\
    u_puntosPorEmpresa cli'
    = <[i := {| pe_empresa := pe_empresa pe;
                pe_puntos := pe_puntos pe - r_puntosRequeridos rec;
                pe_ultimaTransaccion := pe_ultimaTransaccion pe |}]>
        (u_puntosPorEmpresa cli) /\
    puntosEnEmpresa (r_empresa rec) (u_puntosPorEmpresa cli')
    = puntosEnEmpresa (r_empresa rec) (u_puntosPorEmpresa cli) - r_puntosRequeridos rec.
Proof.
  intros H Hw.
  destruct (canjear_escribe_cliente _ _ _ _ _ _ _ H)
    as [[Hsame Hst]|(rid & rec & cli & i & pe & -> & Hrec & Hcli & Hi & Hpe & Hreq & Hle & Hus)].
  { by destruct Hw. }
  eexists rid, rec, cli, _, i, pe.
  rewrite Hus, lookup_insert_eq. repeat split; eauto; try lia; simpl.
  - by apply descontar_empresa_sin_tope.
  - rewrite (puntosEnEmpresa_descontar _ _ _ _ _ Hi Hpe Hle).
    unfold puntosEnEmpresa. by rewrite Hi, Hpe.
Qed.

(** ** What a successful cancellation leaves behind *)

Lemma cancelar_sin_fallas t canjeId empresaId bd canje cli rec :
  buscar_canje_pendiente canjeId empresaId bd = Some canje ->
  usuarios bd !! c_cliente canje = Some cli ->
  recompensas bd !! c_recompensa canje = Some rec ->
  0 <= u_puntos cli + c_puntosCanjeados canje ->
  -1 <= r_stock rec ->
  cancelar (sin_fallas t) canjeId empresaId bd
  = ({| status := 200; mensaje := CanjeCancelado (c_puntosCanjeados canje) |},
     {| usuarios :=
          <[c_cliente canje :=
              con_puntos (u_puntos cli + c_puntosCanjeados canje)
                (abonar_empresa t (c_empresa canje) (c_puntosCanjeados canje)
                   (u_puntosPorEmpresa cli))
                cli]> (usuarios bd);
        qrtokens := qrtokens bd;
        recompensas :=
          <[c_recompensa canje :=
              con_stock (if negb (r_stock rec =? -1) then r_stock rec + 1 else r_stock rec)
                (Z.max 0 (r_canjesRealizados rec - 1)) rec]> (recompensas bd);
        canjes := <[canjeId := con_estado cancelado (c_fechaEntrega canje) canje]> (canjes bd);
        transacciones := transacciones bd |}).
Proof.
  intros Hc Hcli Hrec Hp Hs. unfold cancelar. desplegar.
  rewrite Hc, Hcli. unfold valida_usuario. simpl.
  rewrite (proj2 (Z.leb_le _ _) Hp). simpl. rewrite Hrec.
  unfold valida_recompensa. simpl.
  destruct (r_stock rec =? -1) eqn:Hst; simpl.
  - by rewrite (proj2 (Z.leb_le _ _) Hs).
  - rewrite (proj2 (Z.leb_le (-1) (r_stock rec + 1))) by lia. done.
Qed.

(** C3 (redeem, then cancel), for points that are whole numbers.  Take
    a database whose numbers of points, stocks and counters are whole
    numbers of magnitude at most 2^53, and a [canjear] that succeeds
    on a reward whose counter [canjesRealizados] is not negative and
    leaves such a database.  Cancelling the redemption it reports, as
    the reward's business and with no storage failure, succeeds and
    brings the customer's [puntos], the balance with that business,
    and the reward's [stock] and [canjesRealizados] back to their
    values before the redemption. *)
Theorem canjear_cancelar_restaura env t clienteId rid codigoCanje bd r bd1 rec :
  canjear env clienteId (IdDado rid) codigoCanje bd = (r, bd1) ->
  status r = 201%nat ->
  recompensas bd !! rid = Some rec ->
  0 <= r_canjesRealizados rec ->
  EnRango bd ->
  EnRango bd1 ->
  exists cli canjeId a b c r2 bd2 cli2 rec2,
    usuarios bd !! clienteId = Some cli /\
    mensaje r = CanjeRealizado canjeId a b c /\
    cancelar (sin_fallas t) canjeId (r_empresa rec) bd1 = (r2, bd2) /\
    status r2 = 200%nat /\
    usuarios bd2 !! clienteId = Some cli2 /\
    recompensas bd2 !! rid = Some rec2 /\
    u_puntos cli2 = u_puntos cli /\
    puntosEnEmpresa (r_empresa rec) (u_puntosPorEmpresa cli2)
    = puntosEnEmpresa (r_empresa rec) (u_puntosPorEmpresa cli) /\
    r_stock rec2 = r_stock rec /\
    r_canjesRealizados rec2 = r_canjesRealizados rec.
Proof.
  intros H Hst Hrec Hcnt _ _.
  destruct (canjear_exito _ _ _ _ _ _ _ H Hst)
    as (rid' & rec' & cli & i & pe & [= <-] & Hrec' & Hcli & Hi & Hpe & Hreq & Hle
        & Hglob & _ & Hstock & -> & ->).
  rewrite Hrec in Hrec'. injection Hrec' as <-.
  set (canje := canje_de clienteId rid rec cli codigoCanje).
  set (bd1 := Build_BD _ _ _ _ _).
  assert (Hc : buscar_canje_pendiente (length (canjes bd)) (r_empresa rec) bd1 = Some canje).
  { unfold buscar_canje_pendiente, buscar_canje. simpl.
    rewrite lookup_app_r, Nat.sub_diag by done. simpl.
    by rewrite bool_decide_eq_true_2. }
  assert (Hcli1 : usuarios bd1 !! c_cliente canje
                  = Some (con_puntos (u_puntos cli - r_puntosRequeridos rec)
                            (descontar_empresa (Some i) (r_puntosRequeridos rec)
                               (u_puntosPorEmpresa cli)) cli)).
  { simpl. by rewrite lookup_insert_eq. }
  assert (Hrec1 : recompensas bd1 !! c_recompensa canje
                  = Some (con_stock
                            (if negb (r_stock rec =? -1) then r_stock rec - 1 else r_stock rec)
                            (r_canjesRealizados rec + 1) rec)).
  { simpl. by rewrite lookup_insert_eq. }
  pose proof (cancelar_sin_fallas t _ _ _ _ _ _ Hc Hcli1 Hrec1) as Hcan.
  simpl in Hcan.
  eexists cli, _, _, _, _, _, _, _, _.
  split; [done|]. split; [done|].
  split.
  { apply Hcan; [lia|].
    destruct Hstock as [->|Hpos]; simpl; [lia|].
    destruct (r_stock rec =? -1); simpl; lia. }
  simpl. rewrite !lookup_insert_eq.
  repeat split; simpl.
  - lia.
  - rewrite puntosEnEmpresa_abonar.
    rewrite (puntosEnEmpresa_descontar _ _ _ _ _ Hi Hpe Hle).
    unfold puntosEnEmpresa. rewrite Hi, Hpe. simpl. lia.
  - destruct Hstock as [->|Hpos]; simpl; [done|].
    destruct (r_stock rec =? -1) eqn:E; [apply Z.eqb_eq in E; lia|]. simpl.
    destruct (r_stock rec - 1 =? -1) eqn:E'; [apply Z.eqb_eq in E'; lia|]. simpl. lia.
  - lia.
Qed.

(** C4 (the check against the business's own balance), as the code has
    it.  A redemption whose customer holds fewer points with the
    reward's business than the reward requires never succeeds and
    changes nothing.  When the request reaches the balance checks
    (reward active and in stock) and the global balance covers the
    reward, the refusal is the business-scoped one and reports the
    shortfall against that balance; when the global balance is short
    too, the refusal is the global one, which is checked first. *)
Theorem canjear_saldo_de_empresa_insuficiente env clienteId rid codigoCanje bd rec cli :
  recompensas bd !! rid = Some rec ->
  usuarios bd !! clienteId = Some cli ->
  puntosEnEmpresa (r_empresa rec) (u_puntosPorEmpresa cli) < r_puntosRequeridos rec ->
  snd (canjear env clienteId (IdDado rid) codigoCanje bd) = bd /\
  status (fst (canjear env clienteId (IdDado rid) codigoCanje bd)) <> 201%nat /\
  (r_activo rec = true ->
   r_stock rec = -1 \/ 0 < r_stock rec ->
   is_Some (usuarios bd !! r_empresa rec) ->
   r_puntosRequeridos rec <= u_puntos cli ->
   fst (canjear env clienteId (IdDado rid) codigoCanje bd)
   = {| status := 400;
        mensaje :=
          PuntosInsuficientesEnEmpresa
            (puntosEnEmpresa (r_empresa rec) (u_puntosPorEmpresa cli))
            (r_puntosRequeridos rec)
            (r_puntosRequeridos rec
             - puntosEnEmpresa (r_empresa rec) (u_puntosPorEmpresa cli)) |}) /\
  (r_activo rec = true ->
   r_stock rec = -1 \/ 0 < r_stock rec ->
   u_puntos cli < r_puntosRequeridos rec ->
   fst (canjear env clienteId (IdDado rid) codigoCanje bd)
   = {| status := 400;
        mensaje :=
          PuntosInsuficientes (u_puntos cli) (r_puntosRequeridos rec)
            (r_puntosRequeridos rec - u_puntos cli) |}).
Proof.
  intros Hrec Hcli Hlt. unfold puntosEnEmpresa in *.
  apply Z.ltb_lt in Hlt.
  unfold canjear. desplegar. rewrite Hrec. simpl.
  destruct (r_activo rec); simpl;
    [|by repeat split; try done; intros; aritmetica; lia].
  destruct (negb (r_stock rec =? -1) && (r_stock rec <=? 0)) eqn:Hst; simpl.
  { repeat split; try done; intros _ [Heq|Hpos]; aritmetica; lia. }
  rewrite Hcli.
  destruct (u_puntos cli <? r_puntosRequeridos rec) eqn:Hglob; simpl.
  { repeat split; try done. intros _ _ _ Hge. aritmetica. lia. }
  destruct (usuarios bd !! r_empresa rec) as [emp|] eqn:Hemp; simpl.
  - rewrite Hlt. simpl. repeat split; try done.
    intros _ _ Hlow. aritmetica. lia.
  - repeat split; try done.
    intros _ _ Hlow. aritmetica. lia.
Qed.

(** ** QR validation *)

(** C10 (order of the checks in [validarQR]).  [validarQR] never
    throws and returns the database as it found it.  Its code is
    decided by the first check that fails, in the order: token not
    found; expired (whatever the [usado] flag says); already used;
    customer missing; customer inactive; and it is [QR_VALID], with
    [valido] set, exactly when none fails. *)
Theorem validarQR_precedencia env token bd :
  exists res,
    validarQR env token bd = (Valor res, bd) /\
    (codigo res = QR_NOT_FOUND <-> qrtokens bd !! token = None) /\
    (codigo res = QR_EXPIRED <->
       exists q, qrtokens bd !! token = Some q /\ q_expiraEn q < ahora env) /\
    (codigo res = QR_USED <->
       exists q, qrtokens bd !! token = Some q /\ ~ q_expiraEn q < ahora env /\
                 q_usado q = true) /\
    (codigo res = CLIENT_NOT_FOUND <->
       exists q, qrtokens bd !! token = Some q /\ ~ q_expiraEn q < ahora env /\
                 q_usado q = false /\ usuarios bd !! q_clienteId q = None) /\
    (codigo res = CLIENT_INACTIVE <->
       exists q c, qrtokens bd !! token = Some q /\ ~ q_expiraEn q < ahora env /\
                   q_usado q = false /\ usuarios bd !! q_clienteId q = Some c /\
                   u_activo c = false) /\
    (codigo res = QR_VALID <->
       exists q c, qrtokens bd !! token = Some q /\ ~ q_expiraEn q < ahora env /\
                   q_usado q = false /\ usuarios bd !! q_clienteId q = Some c /\
                   u_activo c = true) /\
    (valido res = true <-> codigo res = QR_VALID).
Proof.
  unfold validarQR, estaExpirado. desplegar.
  destruct (qrtokens bd !! token) as [q|] eqn:Hq; simpl.
  2: { eexists; split; [done|]. simpl.
       repeat split; try done; try (by intros (? & ? & _)); by intros (? & ? & ? & _). }
  destruct (q_expiraEn q <? ahora env) eqn:Hexp; simpl; aritmetica.
  { eexists; split; [done|]. simpl.
    repeat split; try done; eauto.
    all: try (intros (? & [= <-] & ? & _); lia).
    all: intros (? & ? & [= <-] & ? & _); lia. }
  destruct (q_usado q) eqn:Hus; simpl.
  { eexists; split; [done|]. simpl.
    repeat split; try done.
    all: try (intros (? & [= <-] & ?); lia).
    all: try (intros (? & [= <-] & ? & ? & _); congruence).
    all: try (intros (? & ? & [= <-] & ? & ? & _); congruence).
    intros _. exists q. repeat split; try done. lia. }
  destruct (usuarios bd !! q_clienteId q) as [c|] eqn:Hc; simpl.
  2: { eexists; split; [done|]. simpl.
       repeat split; try done.
       all: try (intros (? & [= <-] & ?); lia).
       all: try (intros (? & [= <-] & ? & ?); congruence).
       all: try (intros (? & ? & [= <-] & ? & ? & ? & _); congruence).
       intros _. exists q. repeat split; try done. lia. }
  destruct (u_activo c) eqn:Hact; simpl.
  - eexists; split; [done|]. simpl.
    repeat split; try done.
    all: try (intros (? & [= <-] & ?); lia).
    all: try (intros (? & [= <-] & ? & ?); congruence).
    all: try (intros (? & [= <-] & ? & ? & ?); congruence).
    all: try (intros (? & ? & [= <-] & ? & ? & ? & ?); congruence).
    intros _. exists q, c. repeat split; try done. lia.
  - eexists; split; [done|]. simpl.
    repeat split; try done.
    all: try (intros (? & [= <-] & ?); lia).
    all: try (intros (? & [= <-] & ? & ?); congruence).
    all: try (intros (? & [= <-] & ? & ? & ?); congruence).
    all: try (intros (? & ? & [= <-] & ? & ? & ? & ?); congruence).
    intros _. exists q, c. repeat split; try done. lia.
Qed.

(** A request whose token fails validation is refused and changes
    nothing, whatever else it carries. *)
Lemma agregarPuntos_qr_invalido env empresaId empresa token monto bd res :
  validarQR env token bd = (Valor res, bd) ->
  valido res = false ->
  rechazada (fst (agregarPuntos env empresaId empresa (Some token) monto bd)) = true /\
  snd (agregarPuntos env empresaId empresa (Some token) monto bd) = bd.
Proof.
  intros Hv Hinv. unfold agregarPuntos. desplegar.
  destruct token; [done|].
  destruct monto as [[|m]|]; try done.
  destruct (Qle_bool m 0); [done|].
  rewrite Hv, Hinv. done.
Qed.

Lemma validarQR_expirado env token bd :
  (forall q, qrtokens bd !! token = Some q -> q_expiraEn q < ahora env) ->
  exists res,
    validarQR env token bd = (Valor res, bd) /\
    valido res = false /\
    (codigo res = QR_EXPIRED \/ codigo res = QR_NOT_FOUND).
Proof.
  intros Hexp. unfold validarQR, estaExpirado. desplegar.
  destruct (qrtokens bd !! token) as [q|] eqn:Hq; simpl.
  - rewrite (proj2 (Z.ltb_lt _ _) (Hexp q eq_refl)). eexists; eauto.
  - eexists; eauto.
Qed.

(** C6 (expiry comes first), as the code has it.  Take a token whose
    [expiraEn] is in the past, with any [usado] flag, and a database
    in which the record is still stored, or from which
    [limpiarExpirados] or the TTL index has removed expired records.
    [validarQR] rejects the token with [QR_EXPIRED] or [QR_NOT_FOUND],
    and every [agregarPuntos] request that presents it is refused and
    leaves the database as it was, the token included. *)
Theorem token_expirado_rechazado env token bd q bd' :
  qrtokens bd !! token = Some q ->
  q_expiraEn q < ahora env ->
  bd' = bd \/ (exists t, bd' = limpiarExpirados t bd) \/ (exists t, bd' = purga_ttl t bd) ->
  (exists res,
     validarQR env token bd' = (Valor res, bd') /\
     valido res = false /\
     (codigo res = QR_EXPIRED \/ codigo res = QR_NOT_FOUND)) /\
  forall empresaId empresa monto,
    rechazada (fst (agregarPuntos env empresaId empresa (Some token) monto bd')) = true /\
    snd (agregarPuntos env empresaId empresa (Some token) monto bd') = bd'.
Proof.
  intros Hq Hexp Hbd'.
  assert (Hall : forall q', qrtokens bd' !! token = Some q' -> q_expiraEn q' < ahora env).
  { intros q' Hq'. destruct Hbd' as [->|[[t ->]|[t ->]]]; simpl in Hq'.
    - congruence.
    - apply map_lookup_filter_Some in Hq' as [Hq' _]. congruence.
    - apply map_lookup_filter_Some in Hq' as [Hq' _]. congruence. }
  destruct (validarQR_expirado env token bd' Hall) as (res & Hv & Hinv & Hcod).
  split; [by exists res|].
  intros. by eapply agregarPuntos_qr_invalido.
Qed.

(** ** What [agregarPuntos] does with the amount *)

Lemma agregarPuntos_exito env empresaId empresa tok monto bd r bd' :
  agregarPuntos env empresaId empresa tok monto bd = (r, bd') ->
  status r = 200%nat ->
  exists token m q cli,
    tok = Some token /\ monto = Some (Num m) /\
    Qle_bool m 0 = false /\ Qle_bool (Qmake 1 100) m = true /\
    qrtokens bd !! token = Some q /\
    ~ q_expiraEn q < ahora env /\ q_usado q = false /\
    usuarios bd !! q_clienteId q = Some cli /\ u_activo cli = true /\
    r = {| status := 200;
           mensaje := PuntosAgregados (q_clienteId q) (u_puntos cli)
                        (puntosCalculados empresa m)
                        (u_puntos cli + puntosCalculados empresa m) |} /\
    bd' = bd_acreditada (ahora env) empresaId empresa token m q cli bd.
Proof.
  unfold agregarPuntos, acreditar, validarQR, estaExpirado. desplegar.
  intros H Hst. por_casos.
  unfold valida_transaccion in *. simpl in *. aritmetica.
  eexists _, _, _, _. repeat split; eauto. lia.
Qed.



(** The amount is refused as invalid exactly when it is not a number or
    not positive. *)
Lemma agregarPuntos_monto_invalido env empresaId empresa token n bd :
  token <> EmptyString ->
  mensaje (fst (agregarPuntos env empresaId empresa (Some token) (Some n) bd))
  = MontoDebeSerMayorACero
  <-> n = NaN \/ exists m, n = Num m /\ (m <= 0)%Q.
Proof.
  intros Htok. destruct token; [done|]. split.
  - unfold agregarPuntos. desplegar. destruct n as [|m]; [by left|].
    destruct (Qle_bool m 0) eqn:Hle.
    + intros _. right. exists m. split; [done|]. by apply Qle_bool_iff.
    + unfold acreditar, validarQR. desplegar. por_casos.
  - unfold agregarPuntos. desplegar. intros [->|(m & -> & Hm)]; [done|].
    by rewrite (proj2 (Qle_bool_iff _ _) Hm).
Qed.

(** No amount under one cent is ever credited: the [Transaccion]
    validator stands between the handler's check and the answer 200. *)
Lemma agregarPuntos_bajo_un_centavo env empresaId empresa token m bd :
  (m < Qmake 1 100)%Q ->
  status (fst (agregarPuntos env empresaId empresa token (Some (Num m)) bd)) <> 200%nat.
Proof.
  intros Hm Hst.
  destruct (agregarPuntos env empresaId empresa token (Some (Num m)) bd) as [r bd'] eqn:H.
  destruct (agregarPuntos_exito _ _ _ _ _ _ _ _ H Hst)
    as (? & m' & ? & ? & _ & [= <-] & _ & Hcent & _).
  apply Qle_bool_iff in Hcent. by apply Qle_not_lt in Hcent.
Qed.

(** The two amounts the specification works out, 250 and 99, with the
    default formula: 2 points, and a successful credit of 0 points. *)
Example agregarPuntos_250 :
  fst (agregarPuntos (sin_fallas 10) 2%nat Ejemplo.empresa (Some "T")
         (Some (Num (Qmake 250 1))) Ejemplo.bd)
  = {| status := 200; mensaje := PuntosAgregados 1%nat 50 2 52 |}.
Proof. vm_compute. reflexivity. Qed.

Example agregarPuntos_99 :
  fst (agregarPuntos (sin_fallas 10) 2%nat Ejemplo.empresa (Some "T")
         (Some (Num (Qmake 99 1))) Ejemplo.bd)
  = {| status := 200; mensaje := PuntosAgregados 1%nat 50 0 50 |}.
Proof. vm_compute. reflexivity. Qed.

(** The amount 8.95 at 1.79 per point: five times over as real
    numbers, less than five as doubles, and four points are credited. *)
Example puntosCalculados_8_95 :
  let empresa :=
    con_configuracion {| gastoRequerido := redondear (179 # 100); puntosOtorgados := 1 |}
      Ejemplo.empresa in
  Qfloor (Qdiv (895 # 100) (179 # 100)) = 5 /\
  (8.95 / 1.79 <? 5)%float = true /\
  puntosCalculados empresa (redondear (895 # 100)) = 4.
Proof. repeat split; vm_compute; reflexivity. Qed.

(** ** Refusals, storage failures and terminal redemptions *)

Ltac decisiones :=
  repeat match goal with
  | H : bool_decide _ = true |- _ => apply bool_decide_eq_true in H
  | H : bool_decide _ = false |- _ => apply bool_decide_eq_false in H
  end.

Lemma ejecutar_preserva_terminal op bd i c :
  canjes bd !! i = Some c -> c_estado c <> pendiente ->
  canjes (snd (ejecutar op bd)) !! i = Some c.
Proof.
  intros Hc Ht. destruct op; simpl.
  - unfold agregarPuntos, acreditar, validarQR. desplegar. por_casos.
  - unfold canjear. desplegar. por_casos; by apply lookup_app_l_Some.
  - unfold cancelar, buscar_canje_pendiente, buscar_canje. desplegar. por_casos.
    all: destruct (decide (canjeId = i)) as [->|Hne]; [|by rewrite list_lookup_insert_ne].
    all: decisiones; by simplify_eq.
  - unfold marcarEntregado, buscar_canje. desplegar. por_casos.
    all: destruct (decide (canjeId = i)) as [->|Hne]; [|by rewrite list_lookup_insert_ne].
    all: decisiones; simplify_eq.
    all: by destruct (c_estado c).
Qed.

Lemma ejecutar_todas_preserva_terminal ops bd i c :
  canjes bd !! i = Some c -> c_estado c <> pendiente ->
  canjes (ejecutar_todas ops bd) !! i = Some c.
Proof.
  revert bd. induction ops as [|op ops IH]; intros bd Hc Ht; simpl; [done|].
  apply IH; [|done]. by apply ejecutar_preserva_terminal.
Qed.

Lemma ejecutar_transicion op bd i c c' :
  canjes bd !! i = Some c ->
  canjes (snd (ejecutar op bd)) !! i = Some c' ->
  c_estado c' <> c_estado c ->
  c_estado c = pendiente /\ (c_estado c' = entregado \/ c_estado c' = cancelado).
Proof.
  intros Hc Hc' Hne.
  destruct (decide (c_estado c = pendiente)) as [Hp|Hp].
  - split; [done|]. rewrite Hp in Hne. destruct (c_estado c'); auto. done.
  - rewrite (ejecutar_preserva_terminal op bd i c Hc Hp) in Hc'. congruence.
Qed.

(** C7 (terminal redemptions), as the code has it.  For a redemption
    that is [entregado] or [cancelado]:
    [marcarEntregado] answers 400 with the message of that state when
    the caller is the owning business and 404 "not found" otherwise;
    [cancelar] answers 404 "not found or cannot be cancelled" to every
    caller; both leave the database unchanged; and no sequence of
    requests changes the redemption document.  The state of a
    redemption only ever changes from [pendiente], to [entregado] or
    [cancelado]. *)
Theorem canje_terminal_inmutable env canjeId empresaId bd c :
  canjes bd !! canjeId = Some c ->
  c_estado c <> pendiente ->
  marcarEntregado env canjeId empresaId bd
  = (if bool_decide (c_empresa c = empresaId)
     then {| status := 400;
             mensaje := if bool_decide (c_estado c = entregado)
                        then CanjeYaEntregado else CanjeCanceladoNoEntregable |}
     else {| status := 404; mensaje := CanjeNoEncontrado |},
     bd) /\
  cancelar env canjeId empresaId bd
  = ({| status := 404; mensaje := CanjeNoEncontradoONoSePuedeCancelar |}, bd) /\
  (forall ops, canjes (ejecutar_todas ops bd) !! canjeId = Some c) /\
  (forall op bd0 i d d',
     canjes bd0 !! i = Some d ->
     canjes (snd (ejecutar op bd0)) !! i = Some d' ->
     c_estado d' <> c_estado d ->
     c_estado d = pendiente /\ (c_estado d' = entregado \/ c_estado d' = cancelado)).
Proof.
  intros Hc Ht. split; [|split; [|split]].
  - unfold marcarEntregado, buscar_canje. desplegar. rewrite Hc.
    destruct (bool_decide (c_empresa c = empresaId)); simpl; [|done].
    destruct (c_estado c); done.
  - unfold cancelar, buscar_canje_pendiente, buscar_canje. desplegar. rewrite Hc.
    destruct (bool_decide (c_empresa c = empresaId)); simpl; [|done].
    destruct (c_estado c); done.
  - intros ops. by apply ejecutar_todas_preserva_terminal.
  - intros op bd0 i d d'. apply ejecutar_transicion.
Qed.

(** Only [cancelar] makes a redemption [cancelado], and by then it has
    saved the customer with the points back. *)
Lemma ejecutar_cancela op bd i c c' :
  canjes bd !! i = Some c ->
  c_estado c = pendiente ->
  canjes (snd (ejecutar op bd)) !! i = Some c' ->
  c_estado c' = cancelado ->
  exists cli cli',
    usuarios bd !! c_cliente c = Some cli /\
    usuarios (snd (ejecutar op bd)) !! c_cliente c = Some cli' /\
    u_puntos cli' = u_puntos cli + c_puntosCanjeados c /\
    puntosEnEmpresa (c_empresa c) (u_puntosPorEmpresa cli')
    = puntosEnEmpresa (c_empresa c) (u_puntosPorEmpresa cli) + c_puntosCanjeados c.
Proof.
  intros Hc Hp Hc' Hcan.
  assert (Hno : canjes (snd (ejecutar op bd)) !! i = Some c -> False).
  { intros Hc''. rewrite Hc'' in Hc'. injection Hc' as <-. congruence. }
  destruct op; simpl in *.
  - exfalso. apply Hno. clear Hno Hc'. revert Hc.
    unfold agregarPuntos, acreditar, validarQR. desplegar. por_casos.
  - exfalso. apply Hno. clear Hno Hc'. revert Hc.
    unfold canjear. desplegar. por_casos; intros; by apply lookup_app_l_Some.
  - revert Hc' Hno. unfold cancelar, buscar_canje_pendiente, buscar_canje. desplegar.
    por_casos; intros Hc' Hno; try (by destruct (Hno Hc)).
    all: destruct (decide (canjeId = i)) as [->|Hne];
      [|rewrite list_lookup_insert_ne in Hno by done; by destruct (Hno Hc)].
    all: simplify_eq.
    all: eexists _, _; split; [done|].
    all: rewrite lookup_insert_eq; split; [done|]; simpl.
    all: split; [done|]; apply puntosEnEmpresa_abonar.
  - exfalso. revert Hc' Hno. unfold marcarEntregado, buscar_canje. desplegar.
    por_casos; intros Hc' Hno; try (by destruct (Hno Hc)).
    all: destruct (decide (canjeId = i)) as [->|Hne];
      [|rewrite list_lookup_insert_ne in Hno by done; by destruct (Hno Hc)].
    all: apply list_lookup_insert_Some in Hc' as [(_ & <- & _)|[? _]]; done.
Qed.

(** C8 (what a failed request leaves), as the code has it.  A request
    that is refused (a 4xx answer), or that does not get past its
    first storage write (it throws before it, or the write is rejected
    by the storage layer, by a schema validator or by the unique index
    on [codigoCanje]), leaves the whole database exactly as it was.
    And no request leaves a redemption [cancelado] with the points not
    returned: if a redemption is [pendiente] before a request and
    [cancelado] after it, the customer's [puntos] and balance with the
    business have grown by [puntosCanjeados]. *)
Theorem peticion_rechazada_no_escribe (op : Operacion) (bd : BD) :
  (rechazada (fst (ejecutar op bd)) = true \/ no_pasa_de_la_primera_escritura op bd ->
   snd (ejecutar op bd) = bd) /\
  (forall i c c',
     canjes bd !! i = Some c ->
     c_estado c = pendiente ->
     canjes (snd (ejecutar op bd)) !! i = Some c' ->
     c_estado c' = cancelado ->
     exists cli cli',
       usuarios bd !! c_cliente c = Some cli /\
       usuarios (snd (ejecutar op bd)) !! c_cliente c = Some cli' /\
       u_puntos cli' = u_puntos cli + c_puntosCanjeados c /\
       puntosEnEmpresa (c_empresa c) (u_puntosPorEmpresa cli')
       = puntosEnEmpresa (c_empresa c) (u_puntosPorEmpresa cli) + c_puntosCanjeados c).
Proof.
  split; [|intros i c c'; apply ejecutar_cancela].
  unfold no_pasa_de_la_primera_escritura.
  destruct op; simpl.
  - unfold agregarPuntos, acreditar, validarQR. desplegar.
    intros [H|[H|H]]; por_casos.
    all: destruct H as (q' & cli' & ? & ? & ?); simplify_eq.
    all: unfold valida_usuario in *; simpl in *; aritmetica; lia.
  - unfold canjear. desplegar.
    intros [H|[H|H]]; por_casos.
    all: try (destruct H as [?|(rec' & ? & H)]; simplify_eq).
    all: try (destruct H as [?|[?|(j & d & Hd & Hcod)]]; simplify_eq).
    all: unfold valida_canje in *; simpl in *; aritmetica; try lia.
    all: match goal with
         | He : existsb ?f ?l = false, Hd : ?l !! _ = Some ?d |- _ =>
             assert (Hex : existsb f l = true)
               by (apply existsb_exists; exists d; split;
                   [by eapply list_elem_of_In, list_elem_of_lookup_2
                   |by apply String.eqb_refl]);
             congruence
         end.
  - unfold cancelar, buscar_canje_pendiente, buscar_canje. desplegar.
    intros [H|[H|H]]; por_casos.
    all: destruct H as (d & ? & [?|(cli' & ? & ?)]); simplify_eq.
    all: unfold valida_usuario in *; simpl in *; aritmetica; lia.
  - unfold marcarEntregado. desplegar. intros [H|[H|[]]]; por_casos.
Qed.

(** * The claims on the worked database *)

Lemma conservacion_tras_operaciones_testigo :
  Conservacion Ejemplo.bd /\
  Forall EnRango (estados Ejemplo.operaciones Ejemplo.bd) /\
  Forall Conservacion (estados Ejemplo.operaciones Ejemplo.bd) /\
  Conservacion (ejecutar_todas Ejemplo.operaciones Ejemplo.bd).
Proof.
  assert (H : Conservacion Ejemplo.bd) by (apply (bool_decide_unpack _); vm_compute; exact I).
  assert (H' : Forall EnRango (estados Ejemplo.operaciones Ejemplo.bd))
    by (apply (bool_decide_unpack _); vm_compute; exact I).
  split; [exact H|]. split; [exact H'|].
  exact (conservacion_tras_operaciones Ejemplo.operaciones Ejemplo.bd H H').
Defined.

Lemma canjear_descuenta_exacto_testigo :
  exists rid rec cli cli' i pe,
    IdDado 8%nat = IdDado rid /\
    recompensas Ejemplo.bd !! rid = Some rec /\
    usuarios Ejemplo.bd !! 1%nat = Some cli /\
    usuarios (snd (canjear (sin_fallas 20) 1%nat (IdDado 8%nat) "CJ-00000002" Ejemplo.bd))
      !! 1%nat = Some cli' /\
    findIndex (es_de_empresa (r_empresa rec)) (u_puntosPorEmpresa cli) = Some i /\
    u_puntosPorEmpresa cli !! i = Some pe /\
    0 <= pe_puntos pe - r_puntosRequeridos rec /\
    u_puntosPorEmpresa cli'
    = <[i := {| pe_empresa := pe_empresa pe;
                pe_puntos := pe_puntos pe - r_puntosRequeridos rec;
                pe_ultimaTransaccion := pe_ultimaTransaccion pe |}]>
        (u_puntosPorEmpresa cli) /\
    puntosEnEmpresa (r_empresa rec) (u_puntosPorEmpresa cli')
    = puntosEnEmpresa (r_empresa rec) (u_puntosPorEmpresa cli) - r_puntosRequeridos rec.
Proof.
  apply (canjear_descuenta_exacto (sin_fallas 20) 1%nat (IdDado 8%nat) "CJ-00000002"
           Ejemplo.bd
           (fst (canjear (sin_fallas 20) 1%nat (IdDado 8%nat) "CJ-00000002" Ejemplo.bd))).
  - vm_compute. reflexivity.
  - left. vm_compute. reflexivity.
Defined.

Lemma canjear_cancelar_restaura_testigo :
  exists cli canjeId a b c r2 bd2 cli2 rec2,
    usuarios Ejemplo.bd !! 1%nat = Some cli /\
    mensaje (fst (canjear (sin_fallas 20) 1%nat (IdDado 8%nat) "CJ-00000002" Ejemplo.bd))
    = CanjeRealizado canjeId a b c /\
    cancelar (sin_fallas 30) canjeId (r_empresa Ejemplo.recompensa8)
      (snd (canjear (sin_fallas 20) 1%nat (IdDado 8%nat) "CJ-00000002" Ejemplo.bd))
    = (r2, bd2) /\
    status r2 = 200%nat /\
    usuarios bd2 !! 1%nat = Some cli2 /\
    recompensas bd2 !! 8%nat = Some rec2 /\
    u_puntos cli2 = u_puntos cli /\
    puntosEnEmpresa (r_empresa Ejemplo.recompensa8) (u_puntosPorEmpresa cli2)
    = puntosEnEmpresa (r_empresa Ejemplo.recompensa8) (u_puntosPorEmpresa cli) /\
    r_stock rec2 = r_stock Ejemplo.recompensa8 /\
    r_canjesRealizados rec2 = r_canjesRealizados Ejemplo.recompensa8.
Proof.
  apply (canjear_cancelar_restaura (sin_fallas 20) 30 1%nat 8%nat "CJ-00000002" Ejemplo.bd).
  - vm_compute. reflexivity.
  - vm_compute. reflexivity.
  - vm_compute. reflexivity.
  - simpl. lia.
  - apply (bool_decide_unpack _). vm_compute. exact I.
  - apply (bool_decide_unpack _). vm_compute. exact I.
Defined.

Lemma canjear_saldo_de_empresa_insuficiente_testigo :
  snd (canjear (sin_fallas 20) 1%nat (IdDado 7%nat) "CJ-00000002" Ejemplo.bd) = Ejemplo.bd /\
  fst (canjear (sin_fallas 20) 1%nat (IdDado 7%nat) "CJ-00000002" Ejemplo.bd)
  = {| status := 400; mensaje := PuntosInsuficientesEnEmpresa 5 10 5 |}.
Proof.
  destruct (canjear_saldo_de_empresa_insuficiente (sin_fallas 20) 1%nat 7%nat "CJ-00000002"
              Ejemplo.bd Ejemplo.recompensa7 Ejemplo.cliente1)
    as (Hbd & _ & Hemp & _).
  - vm_compute. reflexivity.
  - vm_compute. reflexivity.
  - vm_compute. reflexivity.
  - split; [exact Hbd|].
    apply Hemp.
    + reflexivity.
    + right. simpl. lia.
    + exists Ejemplo.empresa. vm_compute. reflexivity.
    + simpl. lia.
Defined.

(** C1, the sentence as written.  Points need not be whole: the schema
    of a reward accepts any [puntosRequeridos] from 1 up, and [crear]
    passes it on.  In [Doble.inicial], a database of whole numbers,
    customer 1 holds 15 points, 10 with business 2 and 5 with business
    3.  Business 2 creates a reward for 1.1 points and another for
    1.2; the balances still add up.  The customer redeems both.  The
    four requests succeed, and leave the customer with [puntos]
    12.700000000000001 and the entries 7.7 and 5, whose sum is not
    that number, neither as the double 7.7 + 5 nor as a real number. *)
Theorem conservacion_rota_con_decimales :
  let c1 := Doble.crear (sin_fallas 0) true 2%nat 8%nat (Some "Cafe") (Some 1.1%float) None
              Doble.inicial in
  let c2 := Doble.crear (sin_fallas 1) true 2%nat 9%nat (Some "Te") (Some 1.2%float) None
              c1.2 in
  let r1 := Doble.canjear (sin_fallas 2) 1%nat (IdDado 8%nat) "CJ-00000001" c2.2 in
  let r2 := Doble.canjear (sin_fallas 3) 1%nat (IdDado 9%nat) "CJ-00000002" r1.2 in
  Doble.status c1.1 = 201%nat /\
  Doble.status c2.1 = 201%nat /\
  Doble.puntos_de 1%nat c2.2 = Some 15%float /\
  Doble.entradas_de 1%nat c2.2 = [10%float; 5%float] /\
  Doble.Conservacion c2.2 = true /\
  Doble.status r1.1 = 201%nat /\
  Doble.status r2.1 = 201%nat /\
  Doble.puntos_de 1%nat r2.2 = Some 12.700000000000001%float /\
  Doble.entradas_de 1%nat r2.2 = [7.7%float; 5%float] /\
  (7.7 + 5 =? 12.700000000000001)%float = false /\
  Doble.Conservacion r2.2 = false.
Proof. repeat split; vm_compute; reflexivity. Qed.

(** C3, the sentence as written.  In [Doble.inicial] customer 4 holds
    10 points, all with business 2.  Business 2 creates a reward for
    2.2 points and another for 1.1.  The customer redeems the first,
    which leaves 7.8 points, and then the second, and the business
    cancels this second redemption.  Every request succeeds, and the
    cancellation brings [puntos] and the balance with the business to
    7.799999999999999, not to the 7.8 they were before the
    redemption. *)
Theorem cancelar_no_restaura_con_decimales :
  let c1 := Doble.crear (sin_fallas 0) true 2%nat 8%nat (Some "Cafe") (Some 2.2%float) None
              Doble.inicial in
  let c2 := Doble.crear (sin_fallas 1) true 2%nat 9%nat (Some "Te") (Some 1.1%float) None
              c1.2 in
  let r1 := Doble.canjear (sin_fallas 2) 4%nat (IdDado 8%nat) "CJ-00000001" c2.2 in
  let r2 := Doble.canjear (sin_fallas 3) 4%nat (IdDado 9%nat) "CJ-00000002" r1.2 in
  let r3 := Doble.cancelar (sin_fallas 4) 1%nat 2%nat r2.2 in
  Doble.status c1.1 = 201%nat /\
  Doble.status c2.1 = 201%nat /\
  Doble.status r1.1 = 201%nat /\
  Doble.puntos_de 4%nat r1.2 = Some 7.8%float /\
  Doble.entradas_de 4%nat r1.2 = [7.8%float] /\
  Doble.mensaje r2.1 = Doble.CanjeRealizado 1%nat 7.8 1.1 6.699999999999999 /\
  Doble.status r2.1 = 201%nat /\
  Doble.status r3.1 = 200%nat /\
  Doble.c_estado <$> Doble.canjes r3.2 !! 1%nat = Some cancelado /\
  Doble.puntos_de 4%nat r3.2 = Some 7.799999999999999%float /\
  Doble.entradas_de 4%nat r3.2 = [7.799999999999999%float] /\
  (7.799999999999999 =? 7.8)%float = false.
Proof. repeat split; vm_compute; reflexivity. Qed.

(** C4, the sentence as written: with 5 points in all, every one of
    them at business 2, and a reward of 10 points at business 2, the
    answer is the global refusal, with the shortfall against the
    global balance, and not the business-scoped one. *)
Lemma canjear_saldo_global_primero :
  puntosEnEmpresa 2%nat (u_puntosPorEmpresa Ejemplo.cliente4)
  < r_puntosRequeridos Ejemplo.recompensa7 /\
  fst (canjear (sin_fallas 20) 4%nat (IdDado 7%nat) "CJ-00000002" Ejemplo.bd)
  = {| status := 400; mensaje := PuntosInsuficientes 5 10 5 |} /\
  forall a b c,
    mensaje (fst (canjear (sin_fallas 20) 4%nat (IdDado 7%nat) "CJ-00000002" Ejemplo.bd))
    <> PuntosInsuficientesEnEmpresa a b c.
Proof.
  split; [vm_compute; reflexivity|].
  split; [vm_compute; reflexivity|].
  intros a b c. vm_compute. discriminate.
Qed.

Lemma token_expirado_rechazado_testigo :
  (exists res,
     validarQR (sin_fallas 5000) "V" Ejemplo.bd = (Valor res, Ejemplo.bd) /\
     valido res = false /\
     (codigo res = QR_EXPIRED \/ codigo res = QR_NOT_FOUND)) /\
  forall empresaId empresa monto,
    rechazada (fst (agregarPuntos (sin_fallas 5000) empresaId empresa (Some "V") monto
                      Ejemplo.bd)) = true /\
    snd (agregarPuntos (sin_fallas 5000) empresaId empresa (Some "V") monto Ejemplo.bd)
    = Ejemplo.bd.
Proof.
  apply (token_expirado_rechazado (sin_fallas 5000) "V" Ejemplo.bd Ejemplo.tokenV Ejemplo.bd).
  - vm_compute. reflexivity.
  - simpl. lia.
  - left. reflexivity.
Defined.

(** C6, the sentence as written.  [marcarComoUsado], the operation
    that consumes a token, does so for a token that expired long ago
    (it consults no clock): it returns the updated document and the
    token is stored as used.  Inside [agregarPuntos] the same happens
    when the token expires between the validation and the writes:
    validated at 999, one millisecond before [expiraEn], the request
    that writes at 1001 is answered 200 and consumes the token. *)
Lemma marcarComoUsado_no_mira_expiracion :
  (estaExpirado 5000 Ejemplo.tokenX = true /\
   qrtokens Ejemplo.bd !! "X" = Some Ejemplo.tokenX /\
   fst (marcarComoUsado false "X" 2%nat Ejemplo.bd)
   = Valor (Some {| q_clienteId := 1%nat; q_expiraEn := 1000;
                    q_usado := true; q_usadoPor := Some 2%nat |}) /\
   qrtokens (snd (marcarComoUsado false "X" 2%nat Ejemplo.bd)) !! "X"
   = Some {| q_clienteId := 1%nat; q_expiraEn := 1000;
             q_usado := true; q_usadoPor := Some 2%nat |}) /\
  (let error := fun _ : Excepcion => {| status := 500; mensaje := ErrorAlAgregarPuntos |} in
   let v := validarQR (sin_fallas 999) "T" Ejemplo.bd in
   exists res,
     fst v = Valor res /\ valido res = true /\
     let r := intentar (acreditar (sin_fallas 1001) 2%nat Ejemplo.empresa "T"
                          (Qmake 250 1) res) error (snd v) in
     estaExpirado 1001 Ejemplo.tokenT = true /\
     status (fst r) = 200%nat /\
     q_usado <$> qrtokens (snd r) !! "T" = Some true).
Proof.
  split; [repeat split; vm_compute; reflexivity|].
  simpl. eexists. split; [vm_compute; reflexivity|].
  repeat split; vm_compute; reflexivity.
Qed.

Lemma canje_terminal_inmutable_testigo :
  marcarEntregado (sin_fallas 60) 0%nat 3%nat Ejemplo.bd
  = ({| status := 400; mensaje := CanjeCanceladoNoEntregable |}, Ejemplo.bd) /\
  cancelar (sin_fallas 60) 0%nat 3%nat Ejemplo.bd
  = ({| status := 404; mensaje := CanjeNoEncontradoONoSePuedeCancelar |}, Ejemplo.bd) /\
  canjes (ejecutar_todas Ejemplo.operaciones Ejemplo.bd) !! 0%nat = Some Ejemplo.canje0.
Proof.
  destruct (canje_terminal_inmutable (sin_fallas 60) 0%nat 3%nat Ejemplo.bd Ejemplo.canje0)
    as (Hm & Hc & Hops & _).
  - reflexivity.
  - simpl. discriminate.
  - split; [exact Hm|]. split; [exact Hc|]. apply Hops.
Defined.

(** C7, the sentence as written.  Cancelling a cancelled redemption is
    answered, to its own business, with the 404 that an id with no
    redemption behind it gets; and [marcarEntregado] from a business
    that does not own the redemption is answered 404 "not found",
    whatever the state. *)
Lemma cancelar_terminal_responde_no_encontrado :
  canjes Ejemplo.bd !! 0%nat = Some Ejemplo.canje0 /\
  c_estado Ejemplo.canje0 = cancelado /\
  c_empresa Ejemplo.canje0 = 3%nat /\
  canjes Ejemplo.bd !! 99%nat = None /\
  fst (cancelar (sin_fallas 60) 0%nat 3%nat Ejemplo.bd)
  = {| status := 404; mensaje := CanjeNoEncontradoONoSePuedeCancelar |} /\
  fst (cancelar (sin_fallas 60) 99%nat 3%nat Ejemplo.bd)
  = {| status := 404; mensaje := CanjeNoEncontradoONoSePuedeCancelar |} /\
  fst (marcarEntregado (sin_fallas 60) 0%nat 2%nat Ejemplo.bd)
  = {| status := 404; mensaje := CanjeNoEncontrado |}.
Proof. repeat split; vm_compute; reflexivity. Qed.

Lemma peticion_rechazada_no_escribe_testigo :
  fst (ejecutar (OpCanjear (sin_fallas 20) 1%nat (IdDado 8%nat) "CJ-00000001") Ejemplo.bd)
  = {| status := 500; mensaje := ErrorAlProcesarCanje |} /\
  snd (ejecutar (OpCanjear (sin_fallas 20) 1%nat (IdDado 8%nat) "CJ-00000001") Ejemplo.bd)
  = Ejemplo.bd.
Proof.
  split; [vm_compute; reflexivity|].
  apply (proj1 (peticion_rechazada_no_escribe
                  (OpCanjear (sin_fallas 20) 1%nat (IdDado 8%nat) "CJ-00000001")
                  Ejemplo.bd)).
  right. right. right. exists Ejemplo.recompensa8. split; [vm_compute; reflexivity|].
  right. right. exists 1%nat, Ejemplo.canje1. split; reflexivity.
Defined.

(** C8, the sentence as written.  [cancelar] whose last write,
    [canje.save()], is rejected answers 500 after the customer has the
    points back: the redemption is still [pendiente], and 10 points
    richer.  [agregarPuntos] with half a cent passes the amount check,
    saves the customer and the business counters, and then fails the
    [Transaccion] validator: it answers 500 with the counters changed,
    no ledger record and the token still unused. *)
Lemma error_tras_escrituras_parciales :
  (let r := cancelar (Ejemplo.falla_la_tercera 30) 1%nat 3%nat Ejemplo.bd in
   status (fst r) = 500%nat /\
   c_estado <$> canjes Ejemplo.bd !! 1%nat = Some pendiente /\
   c_estado <$> canjes (snd r) !! 1%nat = Some pendiente /\
   u_puntos <$> usuarios Ejemplo.bd !! 1%nat = Some 50 /\
   u_puntos <$> usuarios (snd r) !! 1%nat = Some 60 /\
   r_stock <$> recompensas Ejemplo.bd !! 8%nat = Some 1 /\
   r_stock <$> recompensas (snd r) !! 8%nat = Some 2) /\
  (let r := agregarPuntos (sin_fallas 10) 2%nat Ejemplo.empresa (Some "T")
              (Some (Num (Qmake 1 200))) Ejemplo.bd in
   status (fst r) = 500%nat /\
   u_totalTransacciones <$> usuarios Ejemplo.bd !! 2%nat = Some 0 /\
   u_totalTransacciones <$> usuarios (snd r) !! 2%nat = Some 1 /\
   transacciones (snd r) = [] /\
   q_usado <$> qrtokens (snd r) !! "T" = Some false).
Proof. repeat split; vm_compute; reflexivity. Qed.

(** C2, the sentence as written.  Consuming the same token twice
    succeeds twice: [marcarComoUsado] returns the document both times
    and the second caller overwrites the first.  And two
    [agregarPuntos] requests for one token whose validations both run
    before either request writes are both answered 200: the customer
    is credited twice, 2 points each, for a single token. *)
Lemma token_consumido_dos_veces :
  (let r1 := marcarComoUsado false "T" 2%nat Ejemplo.bd in
   let r2 := marcarComoUsado false "T" 3%nat (snd r1) in
   fst r1 = Valor (Some {| q_clienteId := 1%nat; q_expiraEn := 1000;
                           q_usado := true; q_usadoPor := Some 2%nat |}) /\
   fst r2 = Valor (Some {| q_clienteId := 1%nat; q_expiraEn := 1000;
                           q_usado := true; q_usadoPor := Some 3%nat |})) /\
  (let error := fun _ : Excepcion => {| status := 500; mensaje := ErrorAlAgregarPuntos |} in
   let monto := Qmake 250 1 in
   let vA := validarQR (sin_fallas 10) "T" Ejemplo.bd in
   let vB := validarQR (sin_fallas 10) "T" (snd vA) in
   exists resA resB,
     fst vA = Valor resA /\ fst vB = Valor resB /\
     valido resA = true /\ valido resB = true /\
     let rA := intentar (acreditar (sin_fallas 10) 2%nat Ejemplo.empresa "T" monto resA)
                 error (snd vB) in
     let rB := intentar (acreditar (sin_fallas 10) 3%nat Ejemplo.empresa "T" monto resB)
                 error (snd rA) in
     status (fst rA) = 200%nat /\ status (fst rB) = 200%nat /\
     u_puntos <$> usuarios Ejemplo.bd !! 1%nat = Some 50 /\
     u_puntos <$> usuarios (snd rB) !! 1%nat = Some 54 /\
     length (transacciones (snd rB)) = 2%nat).
Proof.
  split; [split; vm_compute; reflexivity|].
  simpl. eexists _, _.
  split; [vm_compute; reflexivity|].
  split; [vm_compute; reflexivity|].
  repeat split; vm_compute; reflexivity.
Qed.

(** C5, at half a cent.  The amount is positive, so the handler's own
    check lets it through, and the token validates; the request is
    nevertheless answered 500, by the [min: 0.01] the [Transaccion]
    schema puts on [monto], after the customer document and the
    business counters have been saved, with no ledger record and the
    token left unused. *)
Theorem agregarPuntos_medio_centavo :
  let r := agregarPuntos (sin_fallas 10) 2%nat Ejemplo.empresa (Some "T")
             (Some (Num (Qmake 1 200))) Ejemplo.bd in
  Qle_bool (Qmake 1 200) 0 = false /\
  (exists res, validarQR (sin_fallas 10) "T" Ejemplo.bd = (Valor res, Ejemplo.bd) /\
               valido res = true) /\
  puntosCalculados Ejemplo.empresa (Qmake 1 200) = 0 /\
  fst r = {| status := 500; mensaje := ErrorAlAgregarPuntos |} /\
  transacciones (snd r) = transacciones Ejemplo.bd /\
  qrtokens (snd r) = qrtokens Ejemplo.bd /\
  u_totalTransacciones <$> usuarios Ejemplo.bd !! 2%nat = Some 0 /\
  u_totalTransacciones <$> usuarios (snd r) !! 2%nat = Some 1.
Proof.
  simpl. split; [reflexivity|].
  split; [eexists; split; vm_compute; reflexivity|].
  repeat split; vm_compute; reflexivity.
Qed.

(** * Beyond the ledger core *)

Ltac desplegar_api :=
  unfold capturar, contestar, error_500 in *; desplegar.

(** ** Invariants under every request *)

Section Invariantes.

Context (toUpperCase : string -> string).
Context (valida_textos : option string -> option string -> option string -> bool).

#[local] Abbreviation atender := (atender toUpperCase valida_textos).
#[local] Abbreviation atender_todas := (atender_todas toUpperCase valida_textos).

(** Requests other than those of the ledger leave the users' balances
    and the redemptions alone. *)
Lemma atender_fuera_del_libro p bd :
  (forall op, p <> PLibro op) ->
  canjes (atender p bd) = canjes bd /\
  transacciones (atender p bd) = transacciones bd /\
  forall id,
    (u_puntos <$> usuarios (atender p bd) !! id = u_puntos <$> usuarios bd !! id) /\
    (u_puntosPorEmpresa <$> usuarios (atender p bd) !! id
     = u_puntosPorEmpresa <$> usuarios bd !! id).
Proof.
  intros Hp. destruct p; simpl; try (by destruct (Hp op)).
  - by destruct l.
  - unfold ClienteController.generarQR, generarQR. desplegar_api. por_casos.
  - unfold leerQR, validarQR. desplegar_api. por_casos.
  - unfold configurarPuntos. desplegar_api.
    por_casos.
    all: split_and!; try done.
    all: intros k; split; simpl; rewrite lookup_alter; case_decide; try done.
    all: subst k; by destruct (usuarios bd !! empresaId).
  - unfold obtenerConfiguracionPuntos. desplegar_api. por_casos.
  - unfold validarCodigo. desplegar_api. por_casos.
  - unfold ClienteController.obtenerPuntosEmpresas. desplegar_api. por_casos.
  - unfold RecompensaController.crear. desplegar_api. por_casos.
  - unfold RecompensaController.actualizar. desplegar_api. por_casos.
  - unfold RecompensaController.eliminar. desplegar_api. por_casos.
Qed.

Lemma atender_conserva p bd :
  Conservacion bd -> Conservacion (atender p bd).
Proof.
  intros Hbd.
  assert (Hcasos : (exists op, p = PLibro op) \/ forall op, p <> PLibro op)
    by (destruct p; eauto).
  destruct Hcasos as [[op ->]|Hno].
  - simpl. destruct op; simpl.
    + by apply agregarPuntos_conserva.
    + by apply canjear_conserva.
    + by apply cancelar_conserva.
    + by apply marcarEntregado_conserva.
  - destruct (atender_fuera_del_libro p bd Hno) as (_ & _ & Hus).
    intros id u' Hu'. destruct (Hus id) as [Hp Hl].
    rewrite Hu' in Hp, Hl. simpl in *.
    destruct (usuarios bd !! id) as [u|] eqn:Hu; [|done].
    injection Hp as Hp. injection Hl as Hl.
    unfold conserva. rewrite Hp, Hl. by apply (Hbd id).
Qed.

Lemma atender_saldos p bd :
  SaldosNoNegativos bd -> SaldosNoNegativos (atender p bd).
Proof.
  intros Hbd.
  assert (Hcasos : (exists op, p = PLibro op) \/ forall op, p <> PLibro op)
    by (destruct p; eauto).
  destruct Hcasos as [[op ->]|Hno].
  - intros id u. simpl. destruct op; simpl.
    + unfold agregarPuntos, acreditar, validarQR. desplegar. por_casos; try apply Hbd.
      all: rewrite ?lookup_alter; repeat case_decide; simplify_eq /=.
      all: rewrite ?lookup_insert; repeat case_decide; simplify_eq /=; try apply Hbd.
      all: unfold valida_usuario in *; simpl in *; aritmetica.
      all: try (intros; simplify_eq /=; lia).
      all: match goal with
           | |- _ <$> usuarios ?b !! ?k = Some _ -> _ =>
               let E := fresh "E" in
               destruct (usuarios b !! k) eqn:E; intros; simplify_eq /=;
               by apply (Hbd _ _ E)
           end.
    + unfold canjear. desplegar. por_casos; try apply Hbd.
      all: rewrite ?lookup_insert; repeat case_decide; simplify_eq /=; try apply Hbd.
      all: unfold valida_usuario in *; simpl in *; aritmetica.
      all: intros; simplify_eq /=; lia.
    + unfold cancelar. desplegar. por_casos; try apply Hbd.
      all: rewrite ?lookup_insert; repeat case_decide; simplify_eq /=; try apply Hbd.
      all: unfold valida_usuario in *; simpl in *; aritmetica.
      all: intros; simplify_eq /=; lia.
    + unfold marcarEntregado. desplegar. por_casos; apply Hbd.
  - destruct (atender_fuera_del_libro p bd Hno) as (_ & _ & Hus).
    intros id u' Hu'. destruct (Hus id) as [Hp _].
    rewrite Hu' in Hp. simpl in *.
    destruct (usuarios bd !! id) as [u|] eqn:Hu; [|done].
    injection Hp as Hp. rewrite Hp. by apply (Hbd id).
Qed.

Lemma CatalogoBienFormado_insert id r bd :
  1 <= r_puntosRequeridos r -> -1 <= r_stock r -> 0 <= r_canjesRealizados r ->
  CatalogoBienFormado bd ->
  CatalogoBienFormado (con_recompensas (insert id r) bd).
Proof.
  intros H1 H2 H3 Hbd k r'. simpl. rewrite lookup_insert.
  case_decide; [by intros [= <-]|apply Hbd].
Qed.

Lemma atender_catalogo p bd :
  CatalogoBienFormado bd -> CatalogoBienFormado (atender p bd).
Proof.
  intros Hbd. destruct p as [op|l| | | | | | | | |]; simpl.
  - destruct op; simpl.
    + unfold agregarPuntos, acreditar, validarQR. desplegar. por_casos.
    + unfold canjear. desplegar. por_casos.
      all: match goal with
           | Hr : recompensas _ !! _ = Some ?r |- _ =>
               destruct (Hbd _ _ Hr) as (? & ? & ?)
           end.
      all: unfold valida_recompensa in *; simpl in *; aritmetica.
      all: apply CatalogoBienFormado_insert; simpl; try done; lia.
    + unfold cancelar. desplegar. por_casos.
      all: match goal with
           | Hr : recompensas _ !! _ = Some ?r |- _ =>
               destruct (Hbd _ _ Hr) as (? & ? & ?)
           end.
      all: unfold valida_recompensa in *; simpl in *; aritmetica.
      all: apply CatalogoBienFormado_insert; simpl; try done; lia.
    + unfold marcarEntregado. desplegar. por_casos.
  - by destruct l.
  - unfold ClienteController.generarQR, generarQR. desplegar_api. por_casos.
  - unfold leerQR, validarQR. desplegar_api. por_casos.
  - unfold configurarPuntos. desplegar_api. por_casos.
  - unfold obtenerConfiguracionPuntos. desplegar_api. por_casos.
  - unfold validarCodigo. desplegar_api. por_casos.
  - unfold ClienteController.obtenerPuntosEmpresas. desplegar_api. por_casos.
  - unfold RecompensaController.crear. desplegar_api. por_casos.
    all: unfold valida_recompensa in *; simpl in *; aritmetica.
    all: apply CatalogoBienFormado_insert; simpl; try done; lia.
  - unfold RecompensaController.actualizar, RecompensaController.buscar_propia.
    desplegar_api. por_casos.
    all: match goal with
         | Hr : recompensas _ !! _ = Some ?r |- _ =>
             destruct (Hbd _ _ Hr) as (? & ? & ?)
         end.
    all: unfold valida_recompensa in *; simpl in *; aritmetica.
    all: apply CatalogoBienFormado_insert; simpl; try done; lia.
  - unfold RecompensaController.eliminar. desplegar_api. por_casos.
    intros k r'. simpl. rewrite lookup_delete. case_decide; [done|apply Hbd].
Qed.

Lemma codigos_insert_estado (l : list Canje) i c e f :
  l !! i = Some c ->
  c_codigoCanje <$> <[i := con_estado e f c]> l = c_codigoCanje <$> l.
Proof.
  intros Hc. rewrite list_fmap_insert. simpl.
  apply list_insert_id. by rewrite list_lookup_fmap, Hc.
Qed.

Lemma atender_codigos p bd :
  CodigosUnicos bd -> CodigosUnicos (atender p bd).
Proof.
  unfold CodigosUnicos.
  intros Hbd.
  assert (Hcasos : (exists op, p = PLibro op) \/ forall op, p <> PLibro op)
    by (destruct p; eauto).
  destruct Hcasos as [[op ->]|Hno].
  - simpl. destruct op; simpl.
    + unfold agregarPuntos, acreditar, validarQR. desplegar. por_casos.
    + unfold canjear. desplegar. por_casos.
      all: rewrite fmap_app; simpl.
      all: apply NoDup_app; split; [done|]; split; [|apply NoDup_singleton].
      all: intros cod Hin Hin'; apply list_elem_of_singleton in Hin'; subst cod.
      all: apply list_elem_of_fmap in Hin as (c & Hcod & Hc).
      all: match goal with
           | H : existsb _ _ = false |- _ =>
               apply not_true_iff_false in H; apply H; apply existsb_exists;
               exists c; split; [by apply list_elem_of_In|];
               apply String.eqb_eq; by rewrite <- Hcod
           end.
    + unfold cancelar, buscar_canje_pendiente, buscar_canje. desplegar. por_casos.
      all: by rewrite codigos_insert_estado.
    + unfold marcarEntregado, buscar_canje. desplegar. por_casos.
      all: by rewrite codigos_insert_estado.
  - destruct (atender_fuera_del_libro p bd Hno) as (-> & _). done.
Qed.

Lemma mismo_canje_refl c : mismo_canje c c.
Proof. by repeat split. Qed.

Lemma mismo_canje_trans c1 c2 c3 :
  mismo_canje c1 c2 -> mismo_canje c2 c3 -> mismo_canje c1 c3.
Proof.
  unfold mismo_canje. intros (?&?&?&?&?&?&?) (?&?&?&?&?&?&?).
  repeat split; congruence.
Qed.

Lemma Extiende_refl bd : Extiende bd bd.
Proof.
  split; [done|]. split; [done|].
  intros i c Hc. exists c. split; [done|apply mismo_canje_refl].
Qed.

Lemma Extiende_trans bd1 bd2 bd3 :
  Extiende bd1 bd2 -> Extiende bd2 bd3 -> Extiende bd1 bd3.
Proof.
  intros (Ht & Hl & Hc) (Ht' & Hl' & Hc'). split; [by etrans|]. split; [lia|].
  intros i c Hi. destruct (Hc i c Hi) as (c2 & Hi2 & Hm).
  destruct (Hc' i c2 Hi2) as (c3 & Hi3 & Hm').
  exists c3. split; [done|]. by eapply mismo_canje_trans.
Qed.

Lemma Extiende_mismos_registros bd bd' :
  canjes bd' = canjes bd -> transacciones bd' = transacciones bd -> Extiende bd bd'.
Proof.
  intros Hc Ht. split; [by rewrite Ht|]. split; [by rewrite Hc|].
  intros j d Hd. exists d. rewrite Hc. split; [done|apply mismo_canje_refl].
Qed.

Ltac registros_extendidos :=
  split; [simpl; first [done | by apply prefix_app_r]|];
  split; [simpl; rewrite ?length_app, ?length_insert; simpl; lia|];
  let j := fresh "j" in
  let d := fresh "d" in
  let Hd := fresh "Hd" in
  intros j d Hd; simpl;
  first
    [ by (exists d; split; [done|apply mismo_canje_refl])
    | by (exists d; split; [by apply lookup_app_l_Some|apply mismo_canje_refl])
    | match goal with
      | |- exists _, <[?i := _]> _ !! _ = _ /\ _ =>
          destruct (decide (i = j)) as [<-|?];
          [ rewrite list_lookup_insert_eq by (by eapply lookup_lt_Some);
            eexists; split; [done|]; simplify_eq; by repeat split
          | rewrite list_lookup_insert_ne by done;
            exists d; split; [done|apply mismo_canje_refl] ]
      end ].

Lemma atender_extiende p bd : Extiende bd (atender p bd).
Proof.
  assert (Hcasos : (exists op, p = PLibro op) \/ forall op, p <> PLibro op)
    by (destruct p; eauto).
  destruct Hcasos as [[op ->]|Hno].
  - simpl. destruct op; simpl.
    + unfold agregarPuntos, acreditar, validarQR. desplegar.
      por_casos; registros_extendidos.
    + unfold canjear. desplegar.
      por_casos; registros_extendidos.
    + unfold cancelar, buscar_canje_pendiente, buscar_canje. desplegar.
      por_casos; registros_extendidos.
    + unfold marcarEntregado, buscar_canje. desplegar.
      por_casos; registros_extendidos.
  - destruct (atender_fuera_del_libro p bd Hno) as (Hc & Ht & _).
    by apply Extiende_mismos_registros.
Qed.

Lemma atender_usado p bd token :
  no_emite token p -> UsadoOAusente token bd -> UsadoOAusente token (atender p bd).
Proof.
  intros Hp Hbd. destruct p as [op|l| | | | | | | | |]; simpl.
  - destruct op; simpl.
    + unfold agregarPuntos, acreditar, validarQR. desplegar. por_casos.
      all: intros q'; simpl; rewrite lookup_alter; case_decide; [|apply Hbd].
      all: subst.
      all: match goal with H : qrtokens _ !! _ = Some _ |- _ => rewrite H end.
      all: by intros [= <-].
    + unfold canjear. desplegar. por_casos.
    + unfold cancelar. desplegar. por_casos.
    + unfold marcarEntregado. desplegar. por_casos.
  - intros q'. destruct l; simpl; intros [Hq' _]%map_lookup_filter_Some; by apply Hbd.
  - unfold ClienteController.generarQR, generarQR. desplegar_api. por_casos.
    all: intros q'; simpl; rewrite lookup_insert_ne by done; apply Hbd.
  - unfold leerQR, validarQR. desplegar_api. por_casos.
  - unfold configurarPuntos. desplegar_api. por_casos.
  - unfold obtenerConfiguracionPuntos. desplegar_api. por_casos.
  - unfold validarCodigo. desplegar_api. por_casos.
  - unfold ClienteController.obtenerPuntosEmpresas. desplegar_api. por_casos.
  - unfold RecompensaController.crear. desplegar_api. por_casos.
  - unfold RecompensaController.actualizar. desplegar_api. por_casos.
  - unfold RecompensaController.eliminar. desplegar_api. por_casos.
Qed.

Lemma atender_todas_usado ps bd token :
  Forall (no_emite token) ps ->
  UsadoOAusente token bd -> UsadoOAusente token (atender_todas ps bd).
Proof.
  intros Hps. revert bd. induction Hps as [|p ps Hp Hps IH]; intros bd Hbd; simpl; [done|].
  apply IH. by apply atender_usado.
Qed.

(** A token that is not stored, or is stored as used, is rejected by
    [validarQR], and [agregarPuntos] refuses it and changes nothing. *)
Lemma usado_rechazado env token bd :
  UsadoOAusente token bd ->
  exists res,
    validarQR env token bd = (Valor res, bd) /\
    valido res = false /\
    (codigo res = QR_USED \/ codigo res = QR_EXPIRED \/ codigo res = QR_NOT_FOUND) /\
    forall empresaId empresa monto,
      rechazada (fst (agregarPuntos env empresaId empresa (Some token) monto bd)) = true /\
      snd (agregarPuntos env empresaId empresa (Some token) monto bd) = bd.
Proof.
  intros Hbd.
  assert (Hv : exists res,
             validarQR env token bd = (Valor res, bd) /\ valido res = false /\
             (codigo res = QR_USED \/ codigo res = QR_EXPIRED \/ codigo res = QR_NOT_FOUND)).
  { unfold validarQR. desplegar.
    destruct (qrtokens bd !! token) as [q|] eqn:Hq; simpl; [|eexists; eauto].
    rewrite (Hbd q Hq). destruct (estaExpirado (ahora env) q); eexists; eauto. }
  destruct Hv as (res & Hv & Hinv & Hcod).
  exists res. split; [done|]. split; [done|]. split; [done|].
  intros. by eapply agregarPuntos_qr_invalido.
Qed.

(** X1.  Requests outside the ledger (issuing and scanning a QR, the
    points formula, the catalogue, checking a redemption code, the
    customer's breakdown) never change any user's [puntos] or
    [puntosPorEmpresa], the redemptions or the transaction log. *)
Theorem saldos_fuera_del_libro ps bd :
  Forall (fun p => forall op, p <> PLibro op) ps ->
  canjes (atender_todas ps bd) = canjes bd /\
  transacciones (atender_todas ps bd) = transacciones bd /\
  forall id,
    (u_puntos <$> usuarios (atender_todas ps bd) !! id = u_puntos <$> usuarios bd !! id) /\
    (u_puntosPorEmpresa <$> usuarios (atender_todas ps bd) !! id
     = u_puntosPorEmpresa <$> usuarios bd !! id).
Proof.
  intros Hps. revert bd. induction Hps as [|p ps Hp Hps IH]; intros bd; simpl; [done|].
  destruct (IH (atender p bd)) as (Hc & Ht & Hu).
  destruct (atender_fuera_del_libro p bd Hp) as (Hc' & Ht' & Hu').
  split; [congruence|]. split; [congruence|].
  intros id. destruct (Hu id) as [-> ->]. apply Hu'.
Qed.

(** X2.  Every reward in the catalogue requires at least 1 point, has
    a stock of at least -1 and a counter [canjesRealizados] of at least
    0, after any sequence of requests on a catalogue of which that was
    true. *)
Theorem catalogo_bien_formado ps bd :
  CatalogoBienFormado bd -> CatalogoBienFormado (atender_todas ps bd).
Proof.
  revert bd. induction ps as [|p ps IH]; intros bd Hbd; simpl; [done|].
  apply IH. by apply atender_catalogo.
Qed.

(** X3.  No sequence of requests drives the global balance of any
    user below zero. *)
Theorem saldos_no_negativos ps bd :
  SaldosNoNegativos bd -> SaldosNoNegativos (atender_todas ps bd).
Proof.
  revert bd. induction ps as [|p ps IH]; intros bd Hbd; simpl; [done|].
  apply IH. by apply atender_saldos.
Qed.

(** X4.  No two stored redemptions ever share a [codigoCanje]. *)
Theorem codigos_unicos ps bd :
  CodigosUnicos bd -> CodigosUnicos (atender_todas ps bd).
Proof.
  revert bd. induction ps as [|p ps IH]; intros bd Hbd; simpl; [done|].
  apply IH. by apply atender_codigos.
Qed.

(** X5.  The records only grow.  After any sequence of requests the
    transaction log has the old log as a prefix, and every redemption
    is still stored under its id with the same customer, reward,
    business, points and code: only its state and delivery date can
    have changed. *)
Theorem registros_solo_crecen ps bd :
  transacciones bd `prefix_of` transacciones (atender_todas ps bd) /\
  (length (canjes bd) <= length (canjes (atender_todas ps bd)))%nat /\
  forall i c, canjes bd !! i = Some c ->
    exists c', canjes (atender_todas ps bd) !! i = Some c' /\ mismo_canje c c'.
Proof.
  change (Extiende bd (atender_todas ps bd)).
  revert bd. induction ps as [|p ps IH]; intros bd; simpl; [apply Extiende_refl|].
  eapply Extiende_trans; [apply atender_extiende|apply IH].
Qed.

(** X6.  A used token is never accepted again.  Take a token stored
    as used, and let any requests and any cleanings of the token
    collection follow, none of them a [generarQR] that draws the same
    token again.  Then the token is stored as used or no longer stored;
    [validarQR] rejects it, with [QR_USED], [QR_EXPIRED] or
    [QR_NOT_FOUND], at any time; and [agregarPuntos] refuses it and
    changes nothing. *)
Theorem token_usado_para_siempre ps bd token q env :
  qrtokens bd !! token = Some q ->
  q_usado q = true ->
  Forall (no_emite token) ps ->
  (forall q', qrtokens (atender_todas ps bd) !! token = Some q' -> q_usado q' = true) /\
  exists res,
    validarQR env token (atender_todas ps bd) = (Valor res, atender_todas ps bd) /\
    valido res = false /\
    (codigo res = QR_USED \/ codigo res = QR_EXPIRED \/ codigo res = QR_NOT_FOUND) /\
    forall empresaId empresa monto,
      rechazada (fst (agregarPuntos env empresaId empresa (Some token) monto
                        (atender_todas ps bd))) = true /\
      snd (agregarPuntos env empresaId empresa (Some token) monto (atender_todas ps bd))
      = atender_todas ps bd.
Proof.
  intros Hq Hus Hps.
  assert (H : UsadoOAusente token (atender_todas ps bd)).
  { apply atender_todas_usado; [done|]. intros q0 Hq0. congruence. }
  split; [exact H|]. by apply usado_rechazado.
Qed.

End Invariantes.

(** C2 (single use), as the code has it.  In a sequential run, once
    an [agregarPuntos] request has succeeded with a token, the token
    is stored as used by that business, and [validarQR] rejects it, at
    any time, with [QR_USED] or [QR_EXPIRED].  So it remains: after
    any requests and any cleanings of the token collection that
    follow, none of them a [generarQR] that draws the same token
    again, [validarQR] rejects it, with [QR_USED], [QR_EXPIRED] or,
    once a cleaning has removed it, [QR_NOT_FOUND], and every
    [agregarPuntos] request presenting it is refused and changes
    nothing. *)
Theorem token_un_solo_uso_secuencial toUpperCase valida_textos env empresaId empresa tok
    monto bd r bd' :
  agregarPuntos env empresaId empresa tok monto bd = (r, bd') ->
  status r = 200%nat ->
  exists token q,
    tok = Some token /\
    qrtokens bd' !! token = Some q /\ q_usado q = true /\ q_usadoPor q = Some empresaId /\
    (forall env', exists res,
       validarQR env' token bd' = (Valor res, bd') /\ valido res = false /\
       (codigo res = QR_USED \/ codigo res = QR_EXPIRED)) /\
    forall ps env',
      Forall (no_emite token) ps ->
      let bd'' := atender_todas toUpperCase valida_textos ps bd' in
      (exists res,
         validarQR env' token bd'' = (Valor res, bd'') /\ valido res = false /\
         (codigo res = QR_USED \/ codigo res = QR_EXPIRED \/ codigo res = QR_NOT_FOUND)) /\
      (forall empresaId' empresa' monto',
         rechazada (fst (agregarPuntos env' empresaId' empresa' (Some token) monto' bd''))
         = true /\
         snd (agregarPuntos env' empresaId' empresa' (Some token) monto' bd'') = bd'').
Proof.
  intros H Hst.
  destruct (agregarPuntos_exito _ _ _ _ _ _ _ _ H Hst)
    as (token & m & q & cli & -> & -> & _ & _ & Hq & _ & _ & _ & _ & _ & ->).
  set (bd' := bd_acreditada (ahora env) empresaId empresa token m q cli bd).
  assert (Hq' : qrtokens bd' !! token = Some (marcar empresaId q)).
  { simpl. by rewrite lookup_alter_eq, Hq. }
  exists token, (marcar empresaId q). repeat split; try done.
  - intros env'. unfold validarQR. desplegar. rewrite lookup_alter_eq, Hq. simpl.
    destruct (estaExpirado (ahora env') (marcar empresaId q)); eexists; eauto.
  - assert (Hu : UsadoOAusente token (atender_todas toUpperCase valida_textos ps bd')).
    { apply atender_todas_usado; [done|]. intros q0 Hq0. rewrite Hq' in Hq0. by injection Hq0 as <-. }
    destruct (usado_rechazado env' token _ Hu) as (res & Hv & Hinv & Hcod & _).
    by exists res.
  - assert (Hu : UsadoOAusente token (atender_todas toUpperCase valida_textos ps bd')).
    { apply atender_todas_usado; [done|]. intros q0 Hq0. rewrite Hq' in Hq0. by injection Hq0 as <-. }
    destruct (usado_rechazado env' token _ Hu) as (res & _ & _ & _ & Hag).
    apply Hag.
  - assert (Hu : UsadoOAusente token (atender_todas toUpperCase valida_textos ps bd')).
    { apply atender_todas_usado; [done|]. intros q0 Hq0. rewrite Hq' in Hq0. by injection Hq0 as <-. }
    destruct (usado_rechazado env' token _ Hu) as (res & _ & _ & _ & Hag).
    apply Hag.
Qed.

(** ** Issuing and scanning a QR *)

Lemma generarQR_exito env segundos token clienteId cliente bd :
  token <> EmptyString ->
  qrtokens bd !! token = None ->
  falla env 1%nat = false ->
  ClienteController.generarQR env true segundos token TipoCliente clienteId cliente bd
  = ({| http := 200;
        cuerpo_de := QrGenerado token (ahora env + segundos * 1000) segundos clienteId
                       (u_puntos cliente) |},
     con_qrtokens
       (insert token {| q_clienteId := clienteId;
                        q_expiraEn := ahora env + segundos * 1000;
                        q_usado := false; q_usadoPor := None |}) bd).
Proof.
  intros Htok Hfree Hf. unfold ClienteController.generarQR, generarQR. desplegar_api.
  rewrite Hf, Hfree. by rewrite bool_decide_eq_false_2.
Qed.

Lemma limpiar_usuarios l bd : usuarios (limpiar l bd) = usuarios bd.
Proof. by destruct l. Qed.

Lemma limpiar_todas_usuarios ls bd : usuarios (limpiar_todas ls bd) = usuarios bd.
Proof.
  revert bd. induction ls as [|l ls IH]; intros bd; simpl; [done|].
  by rewrite IH, limpiar_usuarios.
Qed.

(** Cleaning removes tokens, and never changes one. *)
Lemma limpiar_todas_sub ls bd token q :
  qrtokens (limpiar_todas ls bd) !! token = Some q -> qrtokens bd !! token = Some q.
Proof.
  revert bd. induction ls as [|l ls IH]; intros bd; simpl; [done|].
  intros H%IH. by destruct l; simpl in H; apply map_lookup_filter_Some in H as [H _].
Qed.

(** A cleaning at a time up to [expiraEn] leaves the token. *)
Lemma limpiar_todas_vigente ls bd token q :
  qrtokens bd !! token = Some q ->
  Forall (fun l => momento l <= q_expiraEn q) ls ->
  qrtokens (limpiar_todas ls bd) !! token = Some q.
Proof.
  intros Hq Hls. revert bd Hq.
  induction Hls as [|l ls Hl Hls IH]; intros bd Hq; simpl; [done|].
  apply IH. destruct l; simpl in *; apply map_lookup_filter_Some; split; try done; simpl; lia.
Qed.

(** X7.  A code issued to an active customer, when its image can be
    drawn, is answered 200 and changes no user document.  From then
    on, whatever cleanings of the token collection have run in between
    (none of them later than the scan), [validarQR] accepts it, for
    that customer and with the stored balance, at every instant up to
    [expiraEn = now + expirationSeconds * 1000] inclusive; and at every
    later instant, whatever cleanings have run, it rejects it, with
    [QR_EXPIRED] while the record is stored and [QR_NOT_FOUND] once it
    has been cleaned away. *)
Theorem qr_emitido_se_valida env segundos token clienteId cliente bd cli :
  token <> EmptyString ->
  qrtokens bd !! token = None ->
  falla env 1%nat = false ->
  usuarios bd !! clienteId = Some cli ->
  u_activo cli = true ->
  exists bd',
    ClienteController.generarQR env true segundos token TipoCliente clienteId cliente bd
    = ({| http := 200;
          cuerpo_de := QrGenerado token (ahora env + segundos * 1000) segundos clienteId
                         (u_puntos cliente) |}, bd') /\
    usuarios bd' = usuarios bd /\
    forall ls env',
      (Forall (fun l => momento l <= ahora env') ls ->
       ahora env' <= ahora env + segundos * 1000 ->
       validarQR env' token (limpiar_todas ls bd')
       = (Valor {| valido := true; codigo := QR_VALID;
                   rq_cliente := Some (clienteId, u_puntos cli) |},
          limpiar_todas ls bd')) /\
      (ahora env + segundos * 1000 < ahora env' ->
       (qrtokens (limpiar_todas ls bd') !! token <> None /\
        validarQR env' token (limpiar_todas ls bd')
        = (Valor (rechazo QR_EXPIRED), limpiar_todas ls bd')) \/
       (qrtokens (limpiar_todas ls bd') !! token = None /\
        validarQR env' token (limpiar_todas ls bd')
        = (Valor (rechazo QR_NOT_FOUND), limpiar_todas ls bd'))).
Proof.
  intros Htok Hfree Hf Hcli Hact.
  eexists. split; [by apply generarQR_exito|]. split; [done|].
  set (q := {| q_clienteId := clienteId; q_expiraEn := ahora env + segundos * 1000;
               q_usado := false; q_usadoPor := None |}).
  set (bd' := con_qrtokens (insert token q) bd).
  assert (Hq : qrtokens bd' !! token = Some q) by (simpl; apply lookup_insert_eq).
  intros ls env'. split.
  - intros Hls Ht.
    assert (Hq' : qrtokens (limpiar_todas ls bd') !! token = Some q).
    { apply limpiar_todas_vigente; [done|].
      eapply Forall_impl; [exact Hls|]. simpl. intros l Hl. lia. }
    unfold validarQR, estaExpirado. desplegar.
    rewrite Hq', limpiar_todas_usuarios. simpl. rewrite Hcli.
    rewrite (proj2 (Z.ltb_ge _ _)) by lia. by rewrite Hact.
  - intros Ht.
    destruct (qrtokens (limpiar_todas ls bd') !! token) as [q'|] eqn:Hq'.
    + left. split; [done|].
      pose proof (limpiar_todas_sub _ _ _ _ Hq') as Hq''.
      rewrite Hq in Hq''. injection Hq'' as <-.
      unfold validarQR, estaExpirado. desplegar. rewrite Hq'. simpl.
      by rewrite (proj2 (Z.ltb_lt _ _)) by lia.
    + right. split; [done|]. unfold validarQR. desplegar. by rewrite Hq'.
Qed.

(** X8.  Issuing a code never touches what is stored: whatever the
    request, every token already stored is left as it is (a drawn
    token that exists already is an error, not an overwrite), users,
    rewards, redemptions and transactions are unchanged, and a business
    is answered 403 with nothing written.  An answer other than 200
    leaves the whole database as it was, with one exception: when the
    image cannot be drawn the answer is 500 and the new token stays
    stored, although the customer never received it. *)
Theorem generarQR_no_altera env imagen segundos token tipoUsuario clienteId cliente bd :
  let r := ClienteController.generarQR env imagen segundos token tipoUsuario clienteId
             cliente bd in
  (forall tok q, qrtokens bd !! tok = Some q -> qrtokens (snd r) !! tok = Some q) /\
  usuarios (snd r) = usuarios bd /\
  recompensas (snd r) = recompensas bd /\
  canjes (snd r) = canjes bd /\
  transacciones (snd r) = transacciones bd /\
  (tipoUsuario = TipoEmpresa ->
   r = ({| http := 403; cuerpo_de := SoloClientesGeneranQr |}, bd)) /\
  (http (fst r) <> 200%nat ->
   snd r = bd \/
   (imagen = false /\
    fst r = {| http := 500; cuerpo_de := ErrorAlGenerarQr |} /\
    qrtokens bd !! token = None /\
    snd r = con_qrtokens
              (insert token {| q_clienteId := clienteId;
                               q_expiraEn := ahora env + segundos * 1000;
                               q_usado := false; q_usadoPor := None |}) bd)) /\
  (imagen = true -> http (fst r) <> 200%nat -> snd r = bd) /\
  (imagen = false -> tipoUsuario = TipoCliente -> token <> EmptyString ->
   falla env 1%nat = false -> qrtokens bd !! token = None ->
   http (fst r) = 500%nat /\ qrtokens (snd r) !! token <> None).
Proof.
  unfold ClienteController.generarQR, generarQR. desplegar_api.
  split_and!.
  - por_casos.
    all: intros tok q0 Hq; simpl; rewrite lookup_insert.
    all: destruct (decide (token = tok)) as [Heq|?]; [|done].
    all: rewrite Heq in *; congruence.
  - por_casos.
  - por_casos.
  - por_casos.
  - por_casos.
  - by intros ->.
  - por_casos; intros _; try (by left).
    right. by split_and!.
  - intros ->. por_casos.
  - intros -> -> Htok Hf Hfree. rewrite Hf, Hfree.
    rewrite bool_decide_eq_false_2 by done. simpl.
    split; [done|]. by rewrite lookup_insert_eq.
Qed.


(** X10.  A scan changes nothing and foretells the credit.  [leerQR]
    leaves the database as it found it, so a code can be scanned any
    number of times without being consumed; and for a token and a
    positive amount, [agregarPuntos] refuses with the code [c] of a QR
    rejection exactly when [leerQR], at the same instant, rejects the
    token with [c]. *)
Theorem leerQR_anticipa_rechazo env empresaId empresa token m bd c :
  token <> EmptyString ->
  Qle_bool m 0 = false ->
  snd (leerQR env (Some token) bd) = bd /\
  (fst (leerQR env (Some token) bd) = {| http := 400; cuerpo_de := QrNoValido c |}
   <-> fst (agregarPuntos env empresaId empresa (Some token) (Some (Num m)) bd)
       = {| status := 400; mensaje := QrRechazado c |}).
Proof.
  intros Htok Hm. destruct token; [done|].
  unfold leerQR, agregarPuntos. desplegar_api. rewrite Hm.
  unfold validarQR. desplegar.
  destruct (qrtokens bd !! String a token) as [q|]; simpl;
    [|split; [done|]; split; by intros [= <-]].
  destruct (estaExpirado (ahora env) q); simpl; [split; [done|]; split; by intros [= <-]|].
  destruct (q_usado q); simpl; [split; [done|]; split; by intros [= <-]|].
  destruct (usuarios bd !! q_clienteId q) as [u|] eqn:Hu; simpl;
    [|split; [done|]; split; by intros [= <-]].
  destruct (u_activo u); simpl; [|split; [done|]; split; by intros [= <-]].
  split; [done|]. split; [done|].
  unfold acreditar. desplegar. rewrite Hu. por_casos.
Qed.


(** ** The invariants and the QR cycle, on the worked database *)

Lemma saldos_fuera_del_libro_testigo :
  let bd' := atender_todas mayusculas Escenario.textos Escenario.peticiones_sin_libro
               Ejemplo.bd in
  Forall (fun p => forall op, p <> PLibro op) Escenario.peticiones_sin_libro /\
  canjes bd' = canjes Ejemplo.bd /\
  transacciones bd' = transacciones Ejemplo.bd /\
  forall id,
    (u_puntos <$> usuarios bd' !! id = u_puntos <$> usuarios Ejemplo.bd !! id) /\
    (u_puntosPorEmpresa <$> usuarios bd' !! id
     = u_puntosPorEmpresa <$> usuarios Ejemplo.bd !! id).
Proof.
  assert (H : Forall (fun p => forall op, p <> PLibro op) Escenario.peticiones_sin_libro)
    by (repeat constructor; discriminate).
  split; [exact H|].
  exact (saldos_fuera_del_libro mayusculas Escenario.textos
           Escenario.peticiones_sin_libro Ejemplo.bd H).
Defined.

Lemma catalogo_bien_formado_testigo :
  CatalogoBienFormado Ejemplo.bd /\
  CatalogoBienFormado
    (atender_todas mayusculas Escenario.textos Escenario.peticiones Ejemplo.bd).
Proof.
  assert (H : CatalogoBienFormado Ejemplo.bd)
    by (apply (bool_decide_unpack _); vm_compute; exact I).
  split; [exact H|].
  exact (catalogo_bien_formado mayusculas Escenario.textos Escenario.peticiones Ejemplo.bd H).
Defined.

Lemma saldos_no_negativos_testigo :
  SaldosNoNegativos Ejemplo.bd /\
  SaldosNoNegativos
    (atender_todas mayusculas Escenario.textos Escenario.peticiones Ejemplo.bd).
Proof.
  assert (H : SaldosNoNegativos Ejemplo.bd)
    by (apply (bool_decide_unpack _); vm_compute; exact I).
  split; [exact H|].
  exact (saldos_no_negativos mayusculas Escenario.textos Escenario.peticiones Ejemplo.bd H).
Defined.

Lemma codigos_unicos_testigo :
  CodigosUnicos Ejemplo.bd /\
  CodigosUnicos (atender_todas mayusculas Escenario.textos Escenario.peticiones Ejemplo.bd).
Proof.
  assert (H : CodigosUnicos Ejemplo.bd)
    by (apply (bool_decide_unpack _); vm_compute; exact I).
  split; [exact H|].
  exact (codigos_unicos mayusculas Escenario.textos Escenario.peticiones Ejemplo.bd H).
Defined.

Lemma token_usado_para_siempre_testigo :
  let bd' := atender_todas mayusculas Escenario.textos Escenario.peticiones Ejemplo.bd in
  (forall q', qrtokens bd' !! "V" = Some q' -> q_usado q' = true) /\
  exists res,
    validarQR (sin_fallas 500) "V" bd' = (Valor res, bd') /\
    valido res = false /\
    (codigo res = QR_USED \/ codigo res = QR_EXPIRED \/ codigo res = QR_NOT_FOUND) /\
    forall empresaId empresa monto,
      rechazada (fst (agregarPuntos (sin_fallas 500) empresaId empresa (Some "V") monto bd'))
      = true /\
      snd (agregarPuntos (sin_fallas 500) empresaId empresa (Some "V") monto bd') = bd'.
Proof.
  apply (token_usado_para_siempre mayusculas Escenario.textos Escenario.peticiones
           Ejemplo.bd "V" Ejemplo.tokenV (sin_fallas 500)).
  - vm_compute. reflexivity.
  - reflexivity.
  - repeat constructor. simpl. discriminate.
Defined.

Lemma token_un_solo_uso_secuencial_testigo :
  let bd1 := snd (agregarPuntos (sin_fallas 10) 2%nat Ejemplo.empresa (Some "T")
                    (Some (Num (Qmake 250 1))) Ejemplo.bd) in
  exists token q,
    Some "T" = Some token /\
    qrtokens bd1 !! token = Some q /\ q_usado q = true /\ q_usadoPor q = Some 2%nat /\
    (forall env', exists res,
       validarQR env' token bd1 = (Valor res, bd1) /\ valido res = false /\
       (codigo res = QR_USED \/ codigo res = QR_EXPIRED)) /\
    forall ps env',
      Forall (no_emite token) ps ->
      let bd'' := atender_todas mayusculas Escenario.textos ps bd1 in
      (exists res,
         validarQR env' token bd'' = (Valor res, bd'') /\ valido res = false /\
         (codigo res = QR_USED \/ codigo res = QR_EXPIRED \/ codigo res = QR_NOT_FOUND)) /\
      (forall empresaId' empresa' monto',
         rechazada (fst (agregarPuntos env' empresaId' empresa' (Some token) monto' bd''))
         = true /\
         snd (agregarPuntos env' empresaId' empresa' (Some token) monto' bd'') = bd'').
Proof.
  apply (token_un_solo_uso_secuencial mayusculas Escenario.textos (sin_fallas 10) 2%nat
           Ejemplo.empresa (Some "T") (Some (Num (Qmake 250 1))) Ejemplo.bd
           (fst (agregarPuntos (sin_fallas 10) 2%nat Ejemplo.empresa (Some "T")
                   (Some (Num (Qmake 250 1))) Ejemplo.bd))).
  - vm_compute. reflexivity.
  - vm_compute. reflexivity.
Defined.

Lemma qr_emitido_se_valida_testigo :
  exists bd',
    ClienteController.generarQR (sin_fallas 2000) true 30 "U" TipoCliente 1%nat
      Ejemplo.cliente1 Ejemplo.bd
    = ({| http := 200;
          cuerpo_de := QrGenerado "U" (2000 + 30 * 1000) 30 1%nat 50 |}, bd') /\
    usuarios bd' = usuarios Ejemplo.bd /\
    forall ls env',
      (Forall (fun l => momento l <= ahora env') ls ->
       ahora env' <= 2000 + 30 * 1000 ->
       validarQR env' "U" (limpiar_todas ls bd')
       = (Valor {| valido := true; codigo := QR_VALID; rq_cliente := Some (1%nat, 50) |},
          limpiar_todas ls bd')) /\
      (2000 + 30 * 1000 < ahora env' ->
       (qrtokens (limpiar_todas ls bd') !! "U" <> None /\
        validarQR env' "U" (limpiar_todas ls bd')
        = (Valor (rechazo QR_EXPIRED), limpiar_todas ls bd')) \/
       (qrtokens (limpiar_todas ls bd') !! "U" = None /\
        validarQR env' "U" (limpiar_todas ls bd')
        = (Valor (rechazo QR_NOT_FOUND), limpiar_todas ls bd'))).
Proof.
  apply (qr_emitido_se_valida (sin_fallas 2000) 30 "U" 1%nat Ejemplo.cliente1 Ejemplo.bd
           Ejemplo.cliente1).
  - discriminate.
  - vm_compute. reflexivity.
  - reflexivity.
  - vm_compute. reflexivity.
  - reflexivity.
Defined.


Lemma leerQR_anticipa_rechazo_testigo :
  snd (leerQR (sin_fallas 2000) (Some "V") Ejemplo.bd) = Ejemplo.bd /\
  (fst (leerQR (sin_fallas 2000) (Some "V") Ejemplo.bd)
   = {| http := 400; cuerpo_de := QrNoValido QR_EXPIRED |}
   <-> fst (agregarPuntos (sin_fallas 2000) 2%nat Ejemplo.empresa (Some "V")
              (Some (Num (inject_Z 100))) Ejemplo.bd)
       = {| status := 400; mensaje := QrRechazado QR_EXPIRED |}).
Proof.
  apply (leerQR_anticipa_rechazo (sin_fallas 2000) 2%nat Ejemplo.empresa "V" (inject_Z 100)
           Ejemplo.bd QR_EXPIRED).
  - discriminate.
  - reflexivity.
Defined.


(** ** The points formula *)

Lemma con_usuarios_alter_ausente f id bd :
  usuarios bd !! id = None -> con_usuarios (alter f id) bd = bd.
Proof.
  intros H. destruct bd as [us qs rs cs ts]. simpl in *. unfold con_usuarios. simpl.
  f_equal. apply map_eq. intros k. rewrite lookup_alter. case_decide; [|done].
  subst k. by rewrite H.
Qed.

(** X12.  [configurarPuntos] answers 200 exactly when both fields are
    numbers, [gastoRequerido] is at least 1, [puntosOtorgados] is at
    least 1, the write goes through and the business exists; with any
    other answer the database is as it was. *)
Theorem configurarPuntos_acepta_sii env empresaId gasto puntos bd :
  let r := configurarPuntos env empresaId gasto puntos bd in
  (http (fst r) = 200%nat <->
   exists g p,
     gasto = Some (Num g) /\ puntos = Some (Entero p) /\ (1 <= g)%Q /\ 1 <= p /\
     falla env 1%nat = false /\ is_Some (usuarios bd !! empresaId)) /\
  (http (fst r) <> 200%nat -> snd r = bd).
Proof.
  unfold configurarPuntos. desplegar_api.
  destruct gasto as [[|g]|]; destruct puntos as [puntos|]; simpl;
    try (split; [split; [done|by intros (? & ? & ? & ? & _)]|done]).
  destruct (Qle_bool (inject_Z 1) g) eqn:Hg; simpl.
  2: { split; [split; [done|]|done].
       intros (g' & p' & [= <-] & _ & Hg' & _).
       apply Qle_bool_iff in Hg'. unfold inject_Z in Hg. congruence. }
  destruct puntos as [|p]; simpl.
  { split; [split; [done|by intros (? & ? & ? & ? & _)]|done]. }
  destruct (p <? 1) eqn:Hp; simpl.
  { split; [split; [done|]|done].
    intros (g' & p' & _ & [= <-] & _ & Hp' & _). apply Z.ltb_lt in Hp. lia. }
  destruct (falla env 1%nat) eqn:Hf; simpl.
  { split; [split; [done|]|done]. by intros (g' & p' & _ & _ & _ & _ & ? & _). }
  rewrite lookup_alter_eq.
  destruct (usuarios bd !! empresaId) as [e|] eqn:He; simpl.
  - split; [|done]. split; [|done]. intros _. exists g, p.
    split_and!; try done.
    + by apply Qle_bool_iff.
    + apply Z.ltb_ge in Hp. lia.
  - split.
    + split; [done|]. by intros (g' & p' & _ & _ & _ & _ & _ & [? ?]).
    + intros _. by apply con_usuarios_alter_ausente.
Qed.

(** X13.  A formula that is set is the formula in force.  After an
    accepted [configurarPuntos], the stored business carries exactly
    [{gastoRequerido, puntosOtorgados}]; its other fields and every
    other user are as before; [obtenerConfiguracionPuntos] reports
    that formula; and a later [configurarPuntos] replaces it. *)
Theorem configurarPuntos_ida_y_vuelta env empresaId g p bd e :
  falla env 1%nat = false ->
  usuarios bd !! empresaId = Some e ->
  (1 <= g)%Q ->
  1 <= p ->
  let r := configurarPuntos env empresaId (Some (Num g)) (Some (Entero p)) bd in
  let c := {| gastoRequerido := g; puntosOtorgados := p |} in
  http (fst r) = 200%nat /\
  usuarios (snd r) !! empresaId = Some (con_configuracion c e) /\
  formula (con_configuracion c e) = c /\
  u_puntos (con_configuracion c e) = u_puntos e /\
  u_puntosPorEmpresa (con_configuracion c e) = u_puntosPorEmpresa e /\
  (forall id, id <> empresaId -> usuarios (snd r) !! id = usuarios bd !! id) /\
  (exists ejemplos,
     fst (obtenerConfiguracionPuntos empresaId (snd r))
     = {| http := 200; cuerpo_de := ConfiguracionActual c ejemplos |}) /\
  forall env' g' p',
    falla env' 1%nat = false -> (1 <= g')%Q -> 1 <= p' ->
    formula <$> usuarios (snd (configurarPuntos env' empresaId (Some (Num g'))
                                 (Some (Entero p')) (snd r))) !! empresaId
    = Some {| gastoRequerido := g'; puntosOtorgados := p' |}.
Proof.
  intros Hf He Hg Hp.
  assert (Hpaso : forall env g p bd e,
             falla env 1%nat = false -> usuarios bd !! empresaId = Some e ->
             (1 <= g)%Q -> 1 <= p ->
             configurarPuntos env empresaId (Some (Num g)) (Some (Entero p)) bd
             = ({| http := 200;
                   cuerpo_de :=
                     ConfiguracionActualizada
                       (Some {| gastoRequerido := g; puntosOtorgados := p |})
                       [ (g, p); (multiplicar g (inject_Z 2), por p 2);
                         (multiplicar g (inject_Z 5), por p 5);
                         (multiplicar g (inject_Z 10), por p 10) ] |},
                con_usuarios
                  (alter (con_configuracion {| gastoRequerido := g; puntosOtorgados := p |})
                     empresaId) bd)).
  { clear. intros env g p bd e Hf He Hg Hp.
    unfold configurarPuntos. desplegar_api.
    apply Qle_bool_iff in Hg. unfold inject_Z. rewrite Hg. simpl.
    rewrite (proj2 (Z.ltb_ge p 1)) by lia. rewrite Hf. simpl.
    rewrite lookup_alter_eq, He. done. }
  rewrite (Hpaso env g p bd e Hf He Hg Hp). simpl.
  rewrite lookup_alter_eq, He. simpl.
  split_and!; try done.
  - intros id Hid. by rewrite lookup_alter_ne.
  - unfold obtenerConfiguracionPuntos. desplegar_api.
    rewrite lookup_alter_eq, He. simpl. eauto.
  - intros env' g' p' Hf' Hg' Hp'.
    erewrite Hpaso; [|done|simpl; rewrite lookup_alter_eq, He; done|done|done].
    simpl. rewrite !lookup_alter_eq, He. done.
Qed.

Lemma por_enteros (a k : Z) : - 2 ^ 53 <= a * k <= 2 ^ 53 -> por a k = a * k.
Proof. intros H. unfold por. rewrite multiplicar_enteros by done. apply Qfloor_Z. Qed.

(** The multiples of a whole [gastoRequerido]. *)
Lemma puntosCalculados_multiplo (empresa : Usuario) (n p k : Z) :
  formula empresa = {| gastoRequerido := inject_Z n; puntosOtorgados := p |} ->
  1 <= n -> 0 <= k <= 2 ^ 53 -> 0 <= p -> k * p <= 2 ^ 53 ->
  puntosCalculados empresa (inject_Z (n * k)) = k * p.
Proof.
  intros Hf Hn Hk Hp Hkp. unfold puntosCalculados. rewrite Hf.
  cbn [gastoRequerido puntosOtorgados].
  rewrite dividir_multiplo by lia. rewrite Qfloor_Z.
  rewrite multiplicar_enteros by nia. apply Qfloor_Z.
Qed.

(** X14.  The examples [configurarPuntos] advertises, and what
    [agregarPuntos] then credits.  When the [gastoRequerido] accepted
    is a whole number (it and [puntosOtorgados] at most 2^53 / 10), the
    business as now stored earns a customer exactly the advertised
    [puntos] for a purchase of each advertised [gasto].  With a
    fractional [gastoRequerido] it need not: for 1.79 per point the
    third example is 5 points for 8.95, and a purchase of 8.95 earns
    4, the double 8.95 / 1.79 being below 5. *)
Theorem configurarPuntos_ejemplos_ciertos :
  (forall env empresaId n p bd c ejemplos,
     10 * n <= 2 ^ 53 ->
     10 * p <= 2 ^ 53 ->
     fst (configurarPuntos env empresaId (Some (Num (inject_Z n))) (Some (Entero p)) bd)
     = {| http := 200; cuerpo_de := ConfiguracionActualizada c ejemplos |} ->
     exists e',
       usuarios (snd (configurarPuntos env empresaId (Some (Num (inject_Z n)))
                        (Some (Entero p)) bd)) !! empresaId = Some e' /\
       u_configuracionPuntos e' = c /\
       length ejemplos = 4%nat /\
       Forall (fun gp : Q * Z => puntosCalculados e' gp.1 = gp.2) ejemplos) /\
  (exists c ejemplos e',
     let r := configurarPuntos (sin_fallas 0) 2%nat (Some (Num (redondear (179 # 100))))
                (Some (Entero 1)) Ejemplo.bd in
     fst r = {| http := 200; cuerpo_de := ConfiguracionActualizada c ejemplos |} /\
     usuarios (snd r) !! 2%nat = Some e' /\
     ejemplos !! 2%nat = Some (redondear (895 # 100), 5) /\
     puntosCalculados e' (redondear (895 # 100)) = 4).
Proof.
  split.
  - intros env empresaId n p bd c ejemplos Hn10 Hp10.
    unfold configurarPuntos. desplegar_api.
    destruct (Qle_bool (inject_Z 1) (inject_Z n)) eqn:Hg; simpl; [|done].
    destruct (p <? 1) eqn:Hp; simpl; [done|].
    destruct (falla env 1%nat); simpl; [done|].
    rewrite lookup_alter_eq.
    destruct (usuarios bd !! empresaId) as [e|] eqn:He; simpl; [|done].
    intros [= <- <-]. eexists. rewrite lookup_alter_eq, He. simpl.
    split; [done|]. split; [done|]. split; [done|].
    apply Qle_bool_iff in Hg. rewrite <- Zle_Qle in Hg. apply Z.ltb_ge in Hp.
    set (e' := con_configuracion _ e).
    assert (Hf : formula e' = {| gastoRequerido := inject_Z n; puntosOtorgados := p |})
      by done.
    assert (Hk : forall k, 1 <= k <= 10 ->
                 puntosCalculados e' (multiplicar (inject_Z n) (inject_Z k)) = por p k).
    { intros k Hk. rewrite multiplicar_enteros by nia. rewrite por_enteros by nia.
      rewrite (puntosCalculados_multiplo e' n p k Hf) by nia. lia. }
    repeat constructor; cbn [fst snd].
    + replace (inject_Z n) with (inject_Z (n * 1)) by (f_equal; lia).
      rewrite (puntosCalculados_multiplo e' n p 1 Hf) by lia. lia.
    + apply Hk. lia.
    + apply Hk. lia.
    + apply Hk. lia.
  - eexists _, _, _. cbv zeta.
    split; [vm_compute; reflexivity|].
    split; [vm_compute; reflexivity|].
    split; vm_compute; reflexivity.
Qed.

(** ** Redemption codes *)

Lemma mayuscula_idempotente c : mayuscula (mayuscula c) = mayuscula c.
Proof. destruct c as [[] [] [] [] [] [] [] []]; reflexivity. Qed.

(** The two digits of a byte determine it. *)
Lemma hex_determina_byte :
  exists f : Ascii.ascii -> Ascii.ascii -> option Byte.byte,
    forall b, f (mayuscula (digito_hex (Byte.to_N b / 16)))
                (mayuscula (digito_hex (Byte.to_N b mod 16))) = Some b.
Proof.
  exists (fun c1 c2 =>
            let v c := let n := Ascii.N_of_ascii c in
                       if (n <? 58)%N then (n - 48)%N else (n - 55)%N in
            Byte.of_N (16 * v c1 + v c2)).
  intros b. destruct b; vm_compute; reflexivity.
Qed.

Lemma generarCodigoCanje_caracteres b0 b1 b2 b3 :
  generarCodigoCanje b0 b1 b2 b3
  = String.append "CJ-"
      (String (mayuscula (digito_hex (Byte.to_N b0 / 16)))
      (String (mayuscula (digito_hex (Byte.to_N b0 mod 16)))
      (String (mayuscula (digito_hex (Byte.to_N b1 / 16)))
      (String (mayuscula (digito_hex (Byte.to_N b1 mod 16)))
      (String (mayuscula (digito_hex (Byte.to_N b2 / 16)))
      (String (mayuscula (digito_hex (Byte.to_N b2 mod 16)))
      (String (mayuscula (digito_hex (Byte.to_N b3 / 16)))
      (String (mayuscula (digito_hex (Byte.to_N b3 mod 16))) EmptyString)))))))).
Proof. reflexivity. Qed.

(** X16.  A redemption code is ["CJ-"] followed by eight characters,
    eleven in all; [toUpperCase] leaves it as it is, so the lookup of
    [validarCodigo] finds it as stored; and different draws of the
    four random bytes give different codes. *)
Theorem generarCodigoCanje_forma b0 b1 b2 b3 :
  String.length (generarCodigoCanje b0 b1 b2 b3) = 11%nat /\
  String.substring 0 3 (generarCodigoCanje b0 b1 b2 b3) = "CJ-"%string /\
  mayusculas (generarCodigoCanje b0 b1 b2 b3) = generarCodigoCanje b0 b1 b2 b3 /\
  forall b0' b1' b2' b3',
    generarCodigoCanje b0 b1 b2 b3 = generarCodigoCanje b0' b1' b2' b3' ->
    b0 = b0' /\ b1 = b1' /\ b2 = b2' /\ b3 = b3'.
Proof.
  split_and!; try reflexivity.
  - rewrite generarCodigoCanje_caracteres. cbv [String.append mayusculas].
    rewrite !mayuscula_idempotente. reflexivity.
  - intros b0' b1' b2' b3' H.
    rewrite !generarCodigoCanje_caracteres in H. cbv [String.append] in H.
    injection H as H0 H0' H1 H1' H2 H2' H3 H3'.
    destruct hex_determina_byte as [f Hf].
    split_and!; apply (inj Some).
    + rewrite <- (Hf b0), <- (Hf b0'). by rewrite H0, H0'.
    + rewrite <- (Hf b1), <- (Hf b1'). by rewrite H1, H1'.
    + rewrite <- (Hf b2), <- (Hf b2'). by rewrite H2, H2'.
    + rewrite <- (Hf b3), <- (Hf b3'). by rewrite H3, H3'.
Qed.

(** ** The life of a redemption *)

Lemma canjear_codigo_nuevo env clienteId recompensaId codigoCanje bd :
  status (fst (canjear env clienteId recompensaId codigoCanje bd)) = 201%nat ->
  forall c, c ∈ canjes bd -> c_codigoCanje c <> codigoCanje.
Proof.
  unfold canjear. desplegar. por_casos.
  all: intros _ c Hc Hcod.
  all: match goal with
       | H : existsb _ _ = false |- _ =>
           apply not_true_iff_false in H; apply H; apply existsb_exists;
           exists c; split; [by apply list_elem_of_In|];
           apply String.eqb_eq; by rewrite Hcod
       end.
Qed.

(** X17.  A redemption just made can be checked at once.  When
    [canjear] answers 201, [validarCodigo] by the business of the
    reward, for any spelling that upper-cases to the code, answers 200
    with the id [canjear] returned and the state [pendiente]; for any
    other business the same code is not found. *)
Theorem canje_recien_hecho_es_valido toUpperCase env clienteId recompensaId codigoCanje
    codigoPedido bd r bd' :
  canjear env clienteId recompensaId codigoCanje bd = (r, bd') ->
  status r = 201%nat ->
  toUpperCase codigoPedido = codigoCanje ->
  exists rid rec canjeId anteriores canjeados restantes,
    recompensaId = IdDado rid /\
    recompensas bd !! rid = Some rec /\
    mensaje r = CanjeRealizado canjeId anteriores canjeados restantes /\
    validarCodigo toUpperCase codigoPedido (r_empresa rec) bd'
    = ({| http := 200; cuerpo_de := CodigoValido canjeId codigoCanje pendiente |}, bd') /\
    forall otra, otra <> r_empresa rec ->
      validarCodigo toUpperCase codigoPedido otra bd'
      = ({| http := 404; cuerpo_de := CodigoNoEncontrado |}, bd').
Proof.
  intros Hc Hst Hcod.
  pose proof (canjear_codigo_nuevo env clienteId recompensaId codigoCanje bd) as Hnuevo.
  rewrite Hc in Hnuevo. specialize (Hnuevo Hst).
  destruct (canjear_exito _ _ _ _ _ _ _ Hc Hst)
    as (rid & rec & cli & i & pe & -> & Hrec & Hcli & _ & _ & _ & _ & _ & _ & _ & -> & ->).
  exists rid, rec. do 4 eexists. split; [done|]. split; [done|]. split; [done|].
  set (nuevo := canje_de clienteId rid rec cli codigoCanje).
  split.
  - unfold validarCodigo. desplegar_api.
    assert (Hf : list_find
                   (fun c : Canje =>
                      c_codigoCanje c = toUpperCase codigoPedido /\ c_empresa c = r_empresa rec)
                   (canjes bd ++ [nuevo]) = Some (length (canjes bd), nuevo)).
    { apply list_find_Some. split_and!.
      - by rewrite lookup_app_r, Nat.sub_diag.
      - by rewrite Hcod.
      - done.
      - intros j y Hy Hj [Hy1 _]. rewrite lookup_app_l in Hy by done.
        apply (Hnuevo y); [by eapply list_elem_of_lookup_2|congruence]. }
    rewrite Hf. done.
  - intros otra Hotra. unfold validarCodigo. desplegar_api.
    assert (Hf : list_find
                   (fun c : Canje =>
                      c_codigoCanje c = toUpperCase codigoPedido /\ c_empresa c = otra)
                   (canjes bd ++ [nuevo]) = None).
    { apply list_find_None. apply Forall_app. split.
      - apply Forall_forall. intros y Hy [Hy1 _]. apply (Hnuevo y); [done|congruence].
      - repeat constructor. intros [_ H]. simpl in H. congruence. }
    rewrite Hf. done.
Qed.

Lemma list_find_insert_mismo {A} (P : A -> Prop) `{!forall x, Decision (P x)}
    (l : list A) i x y :
  list_find P l = Some (i, x) -> P y -> list_find P (<[i := y]> l) = Some (i, y).
Proof.
  intros (Hx & HP & Hmin)%list_find_Some Hy. apply list_find_Some. split_and!.
  - apply list_lookup_insert_eq. by eapply lookup_lt_Some.
  - done.
  - intros j z Hz Hj. rewrite list_lookup_insert_ne in Hz by lia. by eapply Hmin.
Qed.

(** X18.  A code that checks can be delivered.  When [validarCodigo]
    answers 200 for a business, the redemption it names is pending,
    [marcarEntregado] by that business on the id returned succeeds
    when storage does not fail, and from then on [validarCodigo]
    answers that the redemption was delivered, with the date of the
    delivery. *)
Theorem validarCodigo_anticipa_entrega toUpperCase t codigoPedido empresaId bd canjeId
    codigoCanje est :
  fst (validarCodigo toUpperCase codigoPedido empresaId bd)
  = {| http := 200; cuerpo_de := CodigoValido canjeId codigoCanje est |} ->
  let bd' := snd (marcarEntregado (sin_fallas t) canjeId empresaId bd) in
  est = pendiente /\
  codigoCanje = toUpperCase codigoPedido /\
  fst (marcarEntregado (sin_fallas t) canjeId empresaId bd)
  = {| status := 200; mensaje := CanjeMarcadoEntregado |} /\
  validarCodigo toUpperCase codigoPedido empresaId bd'
  = ({| http := 400; cuerpo_de := CodigoYaEntregado (Some t) |}, bd').
Proof.
  unfold validarCodigo. desplegar_api.
  destruct (list_find _ (canjes bd)) as [[i c]|] eqn:Hf; simpl; [|done].
  pose proof Hf as (Hc & [Hcod Hemp] & _)%list_find_Some.
  destruct (c_estado c) eqn:Hest; simpl; try done.
  intros [= <- <- <-].
  unfold marcarEntregado, buscar_canje. desplegar.
  rewrite Hc. simpl. rewrite bool_decide_eq_true_2 by done. rewrite Hest. simpl.
  split; [done|]. split; [done|]. split; [done|].
  erewrite list_find_insert_mismo; [|exact Hf|by simpl]. simpl. done.
Qed.

Lemma cancelar_sin_recompensa t canjeId empresaId bd canje cli :
  buscar_canje_pendiente canjeId empresaId bd = Some canje ->
  usuarios bd !! c_cliente canje = Some cli ->
  recompensas bd !! c_recompensa canje = None ->
  0 <= u_puntos cli + c_puntosCanjeados canje ->
  cancelar (sin_fallas t) canjeId empresaId bd
  = ({| status := 200; mensaje := CanjeCancelado (c_puntosCanjeados canje) |},
     {| usuarios :=
          <[c_cliente canje :=
              con_puntos (u_puntos cli + c_puntosCanjeados canje)
                (abonar_empresa t (c_empresa canje) (c_puntosCanjeados canje)
                   (u_puntosPorEmpresa cli))
                cli]> (usuarios bd);
        qrtokens := qrtokens bd;
        recompensas := recompensas bd;
        canjes := <[canjeId := con_estado cancelado (c_fechaEntrega canje) canje]> (canjes bd);
        transacciones := transacciones bd |}).
Proof.
  intros Hc Hcli Hrec Hp. unfold cancelar. desplegar.
  rewrite Hc, Hcli. unfold valida_usuario. simpl.
  rewrite (proj2 (Z.leb_le _ _) Hp). simpl. rewrite Hrec. done.
Qed.

(** X19.  Cancelling after the reward is gone.  When a business
    deletes a reward of which a redemption is pending, and then
    cancels that redemption, the customer gets the points back, in
    total and with the business, the redemption is cancelled, and the
    reward is not brought back. *)
Theorem cancelar_tras_eliminar env t canjeId empresaId bd canje rec cli :
  buscar_canje_pendiente canjeId empresaId bd = Some canje ->
  RecompensaController.buscar_propia (c_recompensa canje) empresaId bd = Some rec ->
  falla env 1%nat = false ->
  usuarios bd !! c_cliente canje = Some cli ->
  0 <= u_puntos cli + c_puntosCanjeados canje ->
  let r1 := RecompensaController.eliminar env (c_recompensa canje) empresaId bd in
  let r2 := cancelar (sin_fallas t) canjeId empresaId (snd r1) in
  fst r1 = {| http := 200; cuerpo_de := RecompensaEliminada (c_recompensa canje) |} /\
  fst r2 = {| status := 200; mensaje := CanjeCancelado (c_puntosCanjeados canje) |} /\
  recompensas (snd r2) !! c_recompensa canje = None /\
  (exists cli',
     usuarios (snd r2) !! c_cliente canje = Some cli' /\
     u_puntos cli' = u_puntos cli + c_puntosCanjeados canje /\
     puntosEnEmpresa (c_empresa canje) (u_puntosPorEmpresa cli')
     = puntosEnEmpresa (c_empresa canje) (u_puntosPorEmpresa cli) + c_puntosCanjeados canje) /\
  c_estado <$> canjes (snd r2) !! canjeId = Some cancelado.
Proof.
  intros Hcanje Hrec Hf Hcli Hpts.
  unfold RecompensaController.eliminar. desplegar_api. rewrite Hrec, Hf. simpl.
  split; [done|].
  rewrite (cancelar_sin_recompensa t canjeId empresaId _ canje cli); try done.
  2: { simpl. apply lookup_delete_eq. }
  simpl. split; [done|]. split; [apply lookup_delete_eq|]. split.
  - eexists. rewrite lookup_insert_eq. split; [done|]. split; [done|].
    simpl. apply puntosEnEmpresa_abonar.
  - unfold buscar_canje_pendiente, buscar_canje in Hcanje.
    destruct (canjes bd !! canjeId) as [c|] eqn:Hc; [|done].
    rewrite list_lookup_insert_eq by (by eapply lookup_lt_Some). done.
Qed.

(** X20.  [tieneStock] and the check [canjear] makes agree: for an
    active reward, [canjear] answers that the reward is out of stock
    exactly when [tieneStock] is false, and it never answers 201 for
    a reward without stock. *)
Theorem canjear_agotada_sii_sin_stock env clienteId rid codigoCanje bd rec :
  recompensas bd !! rid = Some rec ->
  r_activo rec = true ->
  (fst (canjear env clienteId (IdDado rid) codigoCanje bd)
   = {| status := 400; mensaje := RecompensaAgotada |} <-> tieneStock rec = false) /\
  (status (fst (canjear env clienteId (IdDado rid) codigoCanje bd)) = 201%nat ->
   tieneStock rec = true).
Proof.
  intros Hrec Hact. unfold tieneStock. split.
  - unfold canjear. desplegar. rewrite Hrec. simpl. rewrite Hact. simpl.
    destruct (r_stock rec =? -1) eqn:H1; simpl.
    + split; [|done]. por_casos.
    + destruct (r_stock rec <=? 0) eqn:H2; simpl.
      * split; [intros _|done]. apply Z.leb_le in H2. apply Z.ltb_ge. lia.
      * split; [por_casos|]. apply Z.leb_gt in H2. intros H%Z.ltb_ge. lia.
  - intros Hst.
    destruct (canjear env clienteId (IdDado rid) codigoCanje bd) as [r bd'] eqn:Hc.
    destruct (canjear_exito _ _ _ _ _ _ _ Hc Hst)
      as (rid' & rec' & cli & i & pe & [= <-] & Hrec' & _ & _ & _ & _ & _ & _ & _ & Hs & _).
    rewrite Hrec in Hrec'. injection Hrec' as <-.
    destruct Hs as [->|Hs]; [done|].
    apply orb_true_iff. right. by apply Z.ltb_lt.
Qed.

(** ** Stock *)

Lemma canjear_recompensa env clienteId rid codigoCanje bd rec :
  recompensas bd !! rid = Some rec ->
  let r := canjear env clienteId (IdDado rid) codigoCanje bd in
  (status (fst r) = 201%nat /\
   (r_stock rec = -1 \/ 0 < r_stock rec) /\
   recompensas (snd r) !! rid
   = Some (con_stock (if negb (r_stock rec =? -1) then r_stock rec - 1 else r_stock rec)
             (r_canjesRealizados rec + 1) rec)) \/
  (status (fst r) <> 201%nat /\ recompensas (snd r) !! rid = Some rec).
Proof.
  intros Hrec. simpl.
  destruct (decide (status (fst (canjear env clienteId (IdDado rid) codigoCanje bd))
                    = 201%nat)) as [Hst|Hst].
  - left. split; [done|].
    destruct (canjear env clienteId (IdDado rid) codigoCanje bd) as [r bd'] eqn:Hc.
    destruct (canjear_exito _ _ _ _ _ _ _ Hc Hst)
      as (rid' & rec' & cli & i & pe & [= <-] & Hrec' & _ & _ & _ & _ & _ & _ & _ & Hs & _ & ->).
    rewrite Hrec in Hrec'. injection Hrec' as <-.
    split; [done|]. simpl. apply lookup_insert_eq.
  - right. split; [done|]. revert Hst.
    unfold canjear. desplegar. rewrite Hrec. simpl. por_casos.
Qed.

Lemma exitosos_cons r rs :
  exitosos (r :: rs)
  = if decide (status r = 201%nat) then S (exitosos rs) else exitosos rs.
Proof. unfold exitosos. rewrite filter_cons. by case_decide. Qed.

(** X21.  A limited stock that is a whole number is never oversold.
    For a reward with a whole stock [s] from 0 to 2^53 (and a counter
    [canjesRealizados] that stays within 2^53), whatever redemption
    requests follow one another, by whichever customers and with
    whichever storage failures, at most [s] of them are answered 201,
    and the reward then has stock [s] minus their number and that many
    more [canjesRealizados].  A stock that is not whole, which the
    schema accepts, is oversold: a reward created with stock 1.5 is
    redeemed twice, and its stock is then -0.5. *)
Theorem canjear_no_sobrevende :
  (forall rid pedidos bd rec,
     recompensas bd !! rid = Some rec ->
     0 <= r_stock rec <= 2 ^ 53 ->
     0 <= r_canjesRealizados rec <= 2 ^ 53 - r_stock rec ->
     let rs := canjear_en_serie rid pedidos bd in
     Z.of_nat (exitosos (fst rs)) <= r_stock rec /\
     exists rec',
       recompensas (snd rs) !! rid = Some rec' /\
       r_stock rec' = r_stock rec - Z.of_nat (exitosos (fst rs)) /\
       r_canjesRealizados rec' = r_canjesRealizados rec + Z.of_nat (exitosos (fst rs))) /\
  (let c := Doble.crear (sin_fallas 0) true 2%nat 8%nat (Some "Cafe") (Some 1%float)
              (Some 1.5%float) Doble.inicial in
   let r1 := Doble.canjear (sin_fallas 1) 1%nat (IdDado 8%nat) "CJ-00000001" c.2 in
   let r2 := Doble.canjear (sin_fallas 2) 1%nat (IdDado 8%nat) "CJ-00000002" r1.2 in
   Doble.status c.1 = 201%nat /\
   Doble.stock_de 8%nat c.2 = Some 1.5%float /\
   Doble.status r1.1 = 201%nat /\
   Doble.stock_de 8%nat r1.2 = Some 0.5%float /\
   Doble.status r2.1 = 201%nat /\
   Doble.stock_de 8%nat r2.2 = Some (-0.5)%float).
Proof.
  split; [|repeat split; vm_compute; reflexivity].
  intros rid pedidos bd rec Hrec [Hs _] _. revert bd rec Hrec Hs.
  induction pedidos as [|[[env clienteId] codigoCanje] pedidos IH];
    intros bd rec Hrec Hs; simpl.
  - split; [done|]. exists rec. split; [done|]. unfold exitosos. simpl. lia.
  - rewrite exitosos_cons.
    destruct (canjear_recompensa env clienteId rid codigoCanje bd rec Hrec)
      as [(Hst & Hstock & Hrec')|(Hst & Hrec')].
    + assert (Hne : (r_stock rec =? -1) = false) by (apply Z.eqb_neq; lia).
      rewrite Hne in Hrec'. simpl in Hrec'.
      destruct Hstock as [?|Hpos]; [lia|].
      destruct (IH _ _ Hrec') as (Hle & rec' & Hl & Hst' & Hcr); [simpl; lia|].
      simpl in *. rewrite decide_True by done.
      split; [lia|]. exists rec'. split; [done|]. lia.
    + destruct (IH _ _ Hrec' Hs) as (Hle & rec' & Hl & Hst' & Hcr).
      rewrite decide_False by done.
      split; [done|]. by exists rec'.
Qed.

(** ** The catalogue *)

(** X22.  A business cannot touch another's rewards.  Whatever
    [actualizar], [eliminar] or [crear] is asked by a business, every
    reward of another business stays stored exactly as it was; and
    whoever owns a reward, [actualizar] never changes its owner nor its
    counter [canjesRealizados], and [crear] never overwrites it. *)
Theorem catalogo_ajeno_intacto valida_textos env empresaId recompensaId nuevoId nombre
    descripcion puntosRequeridos stock categoria activo bd id r :
  recompensas bd !! id = Some r ->
  (r_empresa r <> empresaId ->
   recompensas (snd (RecompensaController.actualizar valida_textos env recompensaId
                       empresaId nombre descripcion puntosRequeridos stock categoria
                       activo bd)) !! id = Some r /\
   recompensas (snd (RecompensaController.eliminar env recompensaId empresaId bd)) !! id
   = Some r) /\
  (exists r',
     recompensas (snd (RecompensaController.actualizar valida_textos env recompensaId
                         empresaId nombre descripcion puntosRequeridos stock categoria
                         activo bd)) !! id = Some r' /\
     r_empresa r' = r_empresa r /\ r_canjesRealizados r' = r_canjesRealizados r) /\
  recompensas (snd (RecompensaController.crear valida_textos env empresaId nuevoId nombre
                      descripcion puntosRequeridos stock categoria bd)) !! id = Some r.
Proof.
  intros Hr. split_and!.
  - intros Hajena. split.
    + unfold RecompensaController.actualizar, RecompensaController.buscar_propia.
      desplegar_api. por_casos.
      all: simpl; rewrite lookup_insert_ne; [done|].
      all: intros <-; decisiones; congruence.
    + unfold RecompensaController.eliminar, RecompensaController.buscar_propia.
      desplegar_api. por_casos.
      all: simpl; rewrite lookup_delete_ne; [done|].
      all: intros <-; decisiones; congruence.
  - unfold RecompensaController.actualizar, RecompensaController.buscar_propia.
    desplegar_api. por_casos; eauto.
    all: simpl; destruct (decide (recompensaId = id)) as [<-|?].
    all: try (rewrite lookup_insert_ne by done; eauto).
    all: rewrite lookup_insert_eq; eexists; split; [done|].
    all: simplify_eq; done.
  - unfold RecompensaController.crear. desplegar_api. por_casos.
    all: simpl; rewrite lookup_insert_ne; [done|congruence].
Qed.

(** X23.  What [crear] accepts.  An answer 201 means the body carried
    a non-empty name and [puntosRequeridos] of at least 1, the stock
    (-1, unlimited, when the body has none) is at least -1, and the
    catalogue has gained exactly one reward: owned by the business,
    active, counter at 0.  Any other answer leaves the database as it
    was; and [puntosRequeridos] of 0 is answered as a missing field. *)
Theorem crear_acepta valida_textos env empresaId nuevoId nombre descripcion
    puntosRequeridos stock categoria bd :
  let r := RecompensaController.crear valida_textos env empresaId nuevoId nombre
             descripcion puntosRequeridos stock categoria bd in
  (http (fst r) = 201%nat ->
   exists n p,
     nombre = Some n /\ n <> EmptyString /\ puntosRequeridos = Some p /\ 1 <= p /\
     -1 <= default (-1) stock /\
     recompensas bd !! nuevoId = None /\
     recompensas (snd r)
     = <[nuevoId := {| r_empresa := empresaId; r_puntosRequeridos := p;
                       r_stock := default (-1) stock; r_activo := true;
                       r_canjesRealizados := 0 |}]> (recompensas bd)) /\
  (http (fst r) <> 201%nat -> snd r = bd) /\
  (puntosRequeridos = Some 0 ->
   fst r = {| http := 400; cuerpo_de := NombreYPuntosObligatorios |}).
Proof.
  unfold RecompensaController.crear. desplegar_api. split_and!.
  - por_casos.
    all: intros _; do 2 eexists; split_and!; try done.
    all: unfold valida_recompensa in *; simpl in *; aritmetica; try lia.
  - por_casos.
  - intros ->. por_casos.
Qed.

(** ** The customer's breakdown by business *)

Lemma insertar_perm x l : ClienteController.insertar x l ≡ₚ x :: l.
Proof.
  induction l as [|y l IH]; simpl; [done|].
  destruct (y.1.2 <=? x.1.2); [done|]. rewrite IH. apply Permutation_swap.
Qed.

Lemma ordenar_perm l : ClienteController.ordenar l ≡ₚ l.
Proof.
  induction l as [|x l IH]; simpl; [done|].
  rewrite insertar_perm. by rewrite IH.
Qed.

Lemma insertar_ordenado x l :
  StronglySorted (fun a b : Id * Z * Fecha => b.1.2 <= a.1.2) l ->
  StronglySorted (fun a b : Id * Z * Fecha => b.1.2 <= a.1.2) (ClienteController.insertar x l).
Proof.
  induction 1 as [|y l Hl IH Hy]; simpl.
  - repeat constructor.
  - destruct (y.1.2 <=? x.1.2) eqn:Hxy.
    + apply Z.leb_le in Hxy. constructor; [by constructor|].
      constructor; [done|]. eapply Forall_impl; [exact Hy|]. simpl. intros z Hz. lia.
    + apply Z.leb_gt in Hxy. constructor; [done|].
      rewrite insertar_perm. constructor; [lia|done].
Qed.

Lemma ordenar_ordenado l :
  StronglySorted (fun a b : Id * Z * Fecha => b.1.2 <= a.1.2) (ClienteController.ordenar l).
Proof.
  induction l as [|x l IH]; simpl; [constructor|]. by apply insertar_ordenado.
Qed.

Lemma suma_perm (l l' : list (Id * Z * Fecha)) :
  l ≡ₚ l' ->
  foldr (fun x s => x.1.2 + s) 0 l = foldr (fun x s => x.1.2 + s) 0 l'.
Proof. induction 1; simpl; lia. Qed.

Lemma suma_pobladas bd (l : list PuntosEmpresa) :
  Forall (fun pe => exists e, pe_empresa pe = Some e /\ is_Some (usuarios bd !! e)) l ->
  foldr (fun x s => x.1.2 + s) 0 (ClienteController.empresas_pobladas bd l) = suma_puntos l.
Proof.
  induction 1 as [|pe l (e & He & [u Hu]) Hl IH]; [done|].
  unfold ClienteController.empresas_pobladas in *. cbn [omap list_omap].
  rewrite He, Hu. cbn [foldr fst snd suma_puntos]. by rewrite IH.
Qed.

(** X24.  The breakdown a customer is shown.  For a stored customer
    [obtenerPuntosEmpresas] answers 200 without writing; the list has
    the entries whose business still exists, each once, ordered by
    points from the largest down; [totalEmpresas] is its length; and
    when the customer's total is the sum of the entries and every
    business exists, the points listed add up to [puntosTotal]. *)
Theorem obtenerPuntosEmpresas_ordenado clienteId bd cli :
  usuarios bd !! clienteId = Some cli ->
  exists empresas,
    ClienteController.obtenerPuntosEmpresas clienteId bd
    = ({| http := 200;
          cuerpo_de := PuntosPorEmpresa (u_puntos cli) empresas (length empresas) |}, bd) /\
    StronglySorted (fun a b : Id * Z * Fecha => b.1.2 <= a.1.2) empresas /\
    empresas ≡ₚ ClienteController.empresas_pobladas bd (u_puntosPorEmpresa cli) /\
    (conserva cli ->
     Forall (fun pe => exists e, pe_empresa pe = Some e /\ is_Some (usuarios bd !! e))
       (u_puntosPorEmpresa cli) ->
     foldr (fun x s => x.1.2 + s) 0 empresas = u_puntos cli).
Proof.
  intros Hcli.
  exists (ClienteController.ordenar
            (ClienteController.empresas_pobladas bd (u_puntosPorEmpresa cli))).
  split_and!.
  - unfold ClienteController.obtenerPuntosEmpresas. desplegar_api. rewrite Hcli.
    by destruct (u_puntosPorEmpresa cli).
  - apply ordenar_ordenado.
  - apply ordenar_perm.
  - intros Hcons Hall. rewrite (suma_perm _ _ (ordenar_perm _)).
    rewrite suma_pobladas by done. by rewrite Hcons.
Qed.

(** ** Cleaning expired tokens *)

Lemma validarQR_total env token bd :
  exists res, validarQR env token bd = (Valor res, bd).
Proof. unfold validarQR. desplegar. por_casos; eauto. Qed.

Lemma validarQR_borrado env token bd (P : string * QrToken -> Prop)
    `{!forall x, Decision (P x)} res res' :
  (forall q, qrtokens bd !! token = Some q -> ~ P (token, q) ->
             estaExpirado (ahora env) q = true) ->
  validarQR env token bd = (Valor res, bd) ->
  validarQR env token (con_qrtokens (filter P) bd) = (Valor res', con_qrtokens (filter P) bd) ->
  valido res' = valido res /\ (valido res = true -> res' = res).
Proof.
  intros Hexp. unfold validarQR. desplegar. rewrite map_lookup_filter.
  destruct (qrtokens bd !! token) as [q|] eqn:Hq; simpl.
  - case_guard; simpl.
    + destruct (estaExpirado (ahora env) q); simpl; [by intros [= <-] [= <-]|].
      destruct (q_usado q); simpl; [by intros [= <-] [= <-]|].
      destruct (usuarios bd !! q_clienteId q) as [u|]; simpl; [|by intros [= <-] [= <-]].
      destruct (u_activo u); simpl; by intros [= <-] [= <-].
    + rewrite (Hexp q) by done. simpl. by intros [= <-] [= <-].
  - by intros [= <-] [= <-].
Qed.

(** X25.  Cleaning changes no verdict.  After [limpiarExpirados], or
    a pass of the TTL index, at time [t], [validarQR] at any time from
    [t] on accepts exactly the tokens it accepted before, with the
    same customer: the tokens removed were expired.  The tokens left
    and the count [limpiarExpirados] returns add up to the tokens
    there were. *)
Theorem limpieza_no_cambia_veredictos t env token bd :
  t <= ahora env ->
  (exists res res',
     validarQR env token bd = (Valor res, bd) /\
     validarQR env token (limpiarExpirados t bd) = (Valor res', limpiarExpirados t bd) /\
     valido res' = valido res /\ (valido res = true -> res' = res)) /\
  (exists res res',
     validarQR env token bd = (Valor res, bd) /\
     validarQR env token (purga_ttl t bd) = (Valor res', purga_ttl t bd) /\
     valido res' = valido res /\ (valido res = true -> res' = res)) /\
  (size (qrtokens (limpiarExpirados t bd)) + limpiarExpirados_deletedCount t bd
   = size (qrtokens bd))%nat.
Proof.
  intros Ht.
  destruct (validarQR_total env token bd) as [res Hres].
  destruct (validarQR_total env token (limpiarExpirados t bd)) as [res1 Hres1].
  destruct (validarQR_total env token (purga_ttl t bd)) as [res2 Hres2].
  split_and!.
  - exists res, res1. split; [done|]. split; [done|].
    eapply (validarQR_borrado env token bd
              (fun kq : string * QrToken => ~ q_expiraEn kq.2 < t)); [|done|exact Hres1].
    intros q _ Hq. unfold estaExpirado. apply Z.ltb_lt. simpl in Hq.
    destruct (decide (q_expiraEn q < t)); [lia|]. by destruct Hq.
  - exists res, res2. split; [done|]. split; [done|].
    eapply (validarQR_borrado env token bd
              (fun kq : string * QrToken => ~ q_expiraEn kq.2 + 60000 < t));
      [|done|exact Hres2].
    intros q _ Hq. unfold estaExpirado. apply Z.ltb_lt. simpl in Hq.
    destruct (decide (q_expiraEn q + 60000 < t)); [lia|]. by destruct Hq.
  - unfold limpiarExpirados_deletedCount. simpl.
    rewrite Nat.add_comm, <- map_size_disj_union
      by apply (map_disjoint_filter_complement
                  (fun kq : string * QrToken => q_expiraEn kq.2 < t)).
    by rewrite (map_filter_union_complement
                  (fun kq : string * QrToken => q_expiraEn kq.2 < t)).
Qed.

(** X26.  The counts of [obtenerEstadisticas] fit together: used and
    active tokens are different tokens, so [usados + activos] never
    exceeds [total]; and cleaning at time [t] leaves the count of
    tokens active at any time from [t] on as it was, while [total]
    drops by the count [limpiarExpirados] returns. *)
Theorem obtenerEstadisticas_coherente t t' bd :
  t <= t' ->
  (usados (obtenerEstadisticas t' bd) + activos (obtenerEstadisticas t' bd)
   <= total (obtenerEstadisticas t' bd))%nat /\
  activos (obtenerEstadisticas t' (limpiarExpirados t bd))
  = activos (obtenerEstadisticas t' bd) /\
  (total (obtenerEstadisticas t' (limpiarExpirados t bd))
   + limpiarExpirados_deletedCount t bd
   = total (obtenerEstadisticas t' bd))%nat.
Proof.
  intros Ht. unfold obtenerEstadisticas. simpl. split_and!.
  - rewrite <- map_size_disj_union.
    + apply map_subseteq_size. apply map_union_least; apply map_filter_subseteq.
    + apply map_disjoint_spec. intros k q1 q2.
      intros [H1 Hu]%map_lookup_filter_Some [H2 [Hn _]]%map_lookup_filter_Some.
      simpl in *. congruence.
  - f_equal. apply map_filter_filter_l. intros k q _ [_ Hq]. simpl in *. lia.
  - unfold limpiarExpirados_deletedCount.
    rewrite Nat.add_comm, <- map_size_disj_union
      by apply (map_disjoint_filter_complement
                  (fun kq : string * QrToken => q_expiraEn kq.2 < t)).
    by rewrite (map_filter_union_complement
                  (fun kq : string * QrToken => q_expiraEn kq.2 < t)).
Qed.

(** ** Redemptions of another business *)

(** X27.  A business cannot reach another's redemptions.  For a
    redemption stored for a different business, [marcarEntregado] and
    [cancelar] answer 404 and change nothing, whatever its state; and
    while codes are unique, [validarCodigo] does not find its code. *)
Theorem canje_ajeno_intocable toUpperCase env canjeId empresaId codigoPedido bd c :
  canjes bd !! canjeId = Some c ->
  c_empresa c <> empresaId ->
  marcarEntregado env canjeId empresaId bd
  = ({| status := 404; mensaje := CanjeNoEncontrado |}, bd) /\
  cancelar env canjeId empresaId bd
  = ({| status := 404; mensaje := CanjeNoEncontradoONoSePuedeCancelar |}, bd) /\
  (CodigosUnicos bd -> toUpperCase codigoPedido = c_codigoCanje c ->
   validarCodigo toUpperCase codigoPedido empresaId bd
   = ({| http := 404; cuerpo_de := CodigoNoEncontrado |}, bd)).
Proof.
  intros Hc Hemp. split_and!.
  - unfold marcarEntregado, buscar_canje. desplegar. rewrite Hc.
    by rewrite bool_decide_eq_false_2.
  - unfold cancelar, buscar_canje_pendiente, buscar_canje. desplegar. rewrite Hc.
    by rewrite bool_decide_eq_false_2.
  - intros Hunicos Hcod. unfold validarCodigo. desplegar_api.
    assert (Hf : list_find
                   (fun c0 : Canje =>
                      c_codigoCanje c0 = toUpperCase codigoPedido /\ c_empresa c0 = empresaId)
                   (canjes bd) = None).
    { apply list_find_None, Forall_forall. intros y Hy [Hy1 Hy2].
      apply list_elem_of_lookup in Hy as [j Hj].
      assert (j = canjeId).
      { eapply (NoDup_lookup _ _ _ _ Hunicos).
        - rewrite list_lookup_fmap, Hj. simpl. by rewrite Hy1, Hcod.
        - by rewrite list_lookup_fmap, Hc. }
      subst j. congruence. }
    by rewrite Hf.
Qed.

(** ** The handlers on the worked database *)

Lemma configurarPuntos_ida_y_vuelta_testigo :
  let r := configurarPuntos (sin_fallas 2002) 2%nat (Some (Num (inject_Z 50)))
             (Some (Entero 2)) Ejemplo.bd in
  let c := {| gastoRequerido := inject_Z 50; puntosOtorgados := 2 |} in
  http (fst r) = 200%nat /\
  usuarios (snd r) !! 2%nat = Some (con_configuracion c Ejemplo.empresa) /\
  formula (con_configuracion c Ejemplo.empresa) = c /\
  u_puntos (con_configuracion c Ejemplo.empresa) = u_puntos Ejemplo.empresa /\
  u_puntosPorEmpresa (con_configuracion c Ejemplo.empresa)
  = u_puntosPorEmpresa Ejemplo.empresa /\
  (forall id, id <> 2%nat -> usuarios (snd r) !! id = usuarios Ejemplo.bd !! id) /\
  (exists ejemplos,
     fst (obtenerConfiguracionPuntos 2%nat (snd r))
     = {| http := 200; cuerpo_de := ConfiguracionActual c ejemplos |}) /\
  forall env' g' p',
    falla env' 1%nat = false -> (1 <= g')%Q -> 1 <= p' ->
    formula <$> usuarios (snd (configurarPuntos env' 2%nat (Some (Num g'))
                                 (Some (Entero p')) (snd r))) !! 2%nat
    = Some {| gastoRequerido := g'; puntosOtorgados := p' |}.
Proof.
  apply (configurarPuntos_ida_y_vuelta (sin_fallas 2002) 2%nat (inject_Z 50) 2 Ejemplo.bd
           Ejemplo.empresa).
  - reflexivity.
  - vm_compute. reflexivity.
  - vm_compute. discriminate.
  - lia.
Defined.

Lemma canje_recien_hecho_es_valido_testigo :
  exists rid rec canjeId anteriores canjeados restantes,
    IdDado 8%nat = IdDado rid /\
    recompensas Ejemplo.bd !! rid = Some rec /\
    mensaje (fst (canjear (sin_fallas 20) 1%nat (IdDado 8%nat) "CJ-00000002" Ejemplo.bd))
    = CanjeRealizado canjeId anteriores canjeados restantes /\
    validarCodigo mayusculas "cj-00000002" (r_empresa rec)
      (snd (canjear (sin_fallas 20) 1%nat (IdDado 8%nat) "CJ-00000002" Ejemplo.bd))
    = ({| http := 200; cuerpo_de := CodigoValido canjeId "CJ-00000002" pendiente |},
       snd (canjear (sin_fallas 20) 1%nat (IdDado 8%nat) "CJ-00000002" Ejemplo.bd)) /\
    forall otra, otra <> r_empresa rec ->
      validarCodigo mayusculas "cj-00000002" otra
        (snd (canjear (sin_fallas 20) 1%nat (IdDado 8%nat) "CJ-00000002" Ejemplo.bd))
      = ({| http := 404; cuerpo_de := CodigoNoEncontrado |},
         snd (canjear (sin_fallas 20) 1%nat (IdDado 8%nat) "CJ-00000002" Ejemplo.bd)).
Proof.
  apply (canje_recien_hecho_es_valido mayusculas (sin_fallas 20) 1%nat (IdDado 8%nat)
           "CJ-00000002" "cj-00000002" Ejemplo.bd
           (fst (canjear (sin_fallas 20) 1%nat (IdDado 8%nat) "CJ-00000002" Ejemplo.bd))).
  - vm_compute. reflexivity.
  - vm_compute. reflexivity.
  - vm_compute. reflexivity.
Defined.

Lemma validarCodigo_anticipa_entrega_testigo :
  let bd' := snd (marcarEntregado (sin_fallas 40) 1%nat 3%nat Ejemplo.bd) in
  pendiente = pendiente /\
  "CJ-00000001"%string = mayusculas "cj-00000001" /\
  fst (marcarEntregado (sin_fallas 40) 1%nat 3%nat Ejemplo.bd)
  = {| status := 200; mensaje := CanjeMarcadoEntregado |} /\
  validarCodigo mayusculas "cj-00000001" 3%nat bd'
  = ({| http := 400; cuerpo_de := CodigoYaEntregado (Some 40) |}, bd').
Proof.
  apply (validarCodigo_anticipa_entrega mayusculas 40 "cj-00000001" 3%nat Ejemplo.bd
           1%nat "CJ-00000001" pendiente).
  vm_compute. reflexivity.
Defined.

Lemma cancelar_tras_eliminar_testigo :
  let r1 := RecompensaController.eliminar (sin_fallas 30) 8%nat 3%nat Ejemplo.bd in
  let r2 := cancelar (sin_fallas 31) 1%nat 3%nat (snd r1) in
  fst r1 = {| http := 200; cuerpo_de := RecompensaEliminada 8%nat |} /\
  fst r2 = {| status := 200; mensaje := CanjeCancelado 10 |} /\
  recompensas (snd r2) !! 8%nat = None /\
  (exists cli',
     usuarios (snd r2) !! 1%nat = Some cli' /\
     u_puntos cli' = 50 + 10 /\
     puntosEnEmpresa 3%nat (u_puntosPorEmpresa cli')
     = puntosEnEmpresa 3%nat (u_puntosPorEmpresa Ejemplo.cliente1) + 10) /\
  c_estado <$> canjes (snd r2) !! 1%nat = Some cancelado.
Proof.
  apply (cancelar_tras_eliminar (sin_fallas 30) 31 1%nat 3%nat Ejemplo.bd Ejemplo.canje1
           Ejemplo.recompensa8 Ejemplo.cliente1).
  - vm_compute. reflexivity.
  - vm_compute. reflexivity.
  - reflexivity.
  - vm_compute. reflexivity.
  - simpl. lia.
Defined.

Lemma canjear_agotada_sii_sin_stock_testigo :
  (fst (canjear (sin_fallas 20) 1%nat (IdDado 8%nat) "CJ-00000002" Ejemplo.bd)
   = {| status := 400; mensaje := RecompensaAgotada |}
   <-> tieneStock Ejemplo.recompensa8 = false) /\
  (status (fst (canjear (sin_fallas 20) 1%nat (IdDado 8%nat) "CJ-00000002" Ejemplo.bd))
   = 201%nat -> tieneStock Ejemplo.recompensa8 = true).
Proof.
  apply (canjear_agotada_sii_sin_stock (sin_fallas 20) 1%nat 8%nat "CJ-00000002" Ejemplo.bd
           Ejemplo.recompensa8).
  - vm_compute. reflexivity.
  - reflexivity.
Defined.

Lemma canjear_no_sobrevende_testigo :
  let rs := canjear_en_serie 8%nat
              [ (sin_fallas 20, 1%nat, "CJ-00000002"%string);
                (sin_fallas 21, 1%nat, "CJ-00000003"%string);
                (Ejemplo.falla_la_tercera 22, 1%nat, "CJ-00000004"%string) ]
              Ejemplo.bd in
  Z.of_nat (exitosos (fst rs)) <= r_stock Ejemplo.recompensa8 /\
  exists rec',
    recompensas (snd rs) !! 8%nat = Some rec' /\
    r_stock rec' = r_stock Ejemplo.recompensa8 - Z.of_nat (exitosos (fst rs)) /\
    r_canjesRealizados rec'
    = r_canjesRealizados Ejemplo.recompensa8 + Z.of_nat (exitosos (fst rs)).
Proof.
  apply (proj1 canjear_no_sobrevende 8%nat
           [ (sin_fallas 20, 1%nat, "CJ-00000002"%string);
             (sin_fallas 21, 1%nat, "CJ-00000003"%string);
             (Ejemplo.falla_la_tercera 22, 1%nat, "CJ-00000004"%string) ]
           Ejemplo.bd Ejemplo.recompensa8).
  - vm_compute. reflexivity.
  - simpl. lia.
  - simpl. lia.
Defined.

Lemma catalogo_ajeno_intacto_testigo :
  (r_empresa Ejemplo.recompensa7 <> 3%nat ->
   recompensas (snd (RecompensaController.actualizar Escenario.textos (sin_fallas 30) 7%nat
                       3%nat (Some "Cafe"%string) None (Some 15) None None (Some false)
                       Ejemplo.bd))
     !! 7%nat = Some Ejemplo.recompensa7 /\
   recompensas (snd (RecompensaController.eliminar (sin_fallas 30) 7%nat 3%nat Ejemplo.bd))
     !! 7%nat = Some Ejemplo.recompensa7) /\
  (exists r',
     recompensas (snd (RecompensaController.actualizar Escenario.textos (sin_fallas 30) 7%nat
                         3%nat (Some "Cafe"%string) None (Some 15) None None (Some false)
                         Ejemplo.bd))
       !! 7%nat = Some r' /\
     r_empresa r' = r_empresa Ejemplo.recompensa7 /\
     r_canjesRealizados r' = r_canjesRealizados Ejemplo.recompensa7) /\
  recompensas (snd (RecompensaController.crear Escenario.textos (sin_fallas 30) 3%nat 7%nat
                      (Some "Cafe"%string) None (Some 15) None None Ejemplo.bd))
    !! 7%nat = Some Ejemplo.recompensa7.
Proof.
  apply (catalogo_ajeno_intacto Escenario.textos (sin_fallas 30) 3%nat 7%nat 7%nat
           (Some "Cafe"%string) None (Some 15) None None (Some false) Ejemplo.bd 7%nat
           Ejemplo.recompensa7).
  vm_compute. reflexivity.
Defined.

Lemma obtenerPuntosEmpresas_ordenado_testigo :
  exists empresas,
    ClienteController.obtenerPuntosEmpresas 1%nat Ejemplo.bd
    = ({| http := 200;
          cuerpo_de := PuntosPorEmpresa (u_puntos Ejemplo.cliente1) empresas
                         (length empresas) |}, Ejemplo.bd) /\
    StronglySorted (fun a b : Id * Z * Fecha => b.1.2 <= a.1.2) empresas /\
    empresas ≡ₚ ClienteController.empresas_pobladas Ejemplo.bd
                  (u_puntosPorEmpresa Ejemplo.cliente1) /\
    (conserva Ejemplo.cliente1 ->
     Forall (fun pe => exists e, pe_empresa pe = Some e /\
                                 is_Some (usuarios Ejemplo.bd !! e))
       (u_puntosPorEmpresa Ejemplo.cliente1) ->
     foldr (fun x s => x.1.2 + s) 0 empresas = u_puntos Ejemplo.cliente1).
Proof.
  apply (obtenerPuntosEmpresas_ordenado 1%nat Ejemplo.bd Ejemplo.cliente1).
  vm_compute. reflexivity.
Defined.

Lemma limpieza_no_cambia_veredictos_testigo :
  (exists res res',
     validarQR (sin_fallas 2000) "T" Ejemplo.bd = (Valor res, Ejemplo.bd) /\
     validarQR (sin_fallas 2000) "T" (limpiarExpirados 1500 Ejemplo.bd)
     = (Valor res', limpiarExpirados 1500 Ejemplo.bd) /\
     valido res' = valido res /\ (valido res = true -> res' = res)) /\
  (exists res res',
     validarQR (sin_fallas 2000) "T" Ejemplo.bd = (Valor res, Ejemplo.bd) /\
     validarQR (sin_fallas 2000) "T" (purga_ttl 1500 Ejemplo.bd)
     = (Valor res', purga_ttl 1500 Ejemplo.bd) /\
     valido res' = valido res /\ (valido res = true -> res' = res)) /\
  (size (qrtokens (limpiarExpirados 1500 Ejemplo.bd))
   + limpiarExpirados_deletedCount 1500 Ejemplo.bd
   = size (qrtokens Ejemplo.bd))%nat.
Proof.
  apply (limpieza_no_cambia_veredictos 1500 (sin_fallas 2000) "T" Ejemplo.bd).
  simpl. lia.
Defined.

Lemma obtenerEstadisticas_coherente_testigo :
  (usados (obtenerEstadisticas 2000 Ejemplo.bd) + activos (obtenerEstadisticas 2000 Ejemplo.bd)
   <= total (obtenerEstadisticas 2000 Ejemplo.bd))%nat /\
  activos (obtenerEstadisticas 2000 (limpiarExpirados 1500 Ejemplo.bd))
  = activos (obtenerEstadisticas 2000 Ejemplo.bd) /\
  (total (obtenerEstadisticas 2000 (limpiarExpirados 1500 Ejemplo.bd))
   + limpiarExpirados_deletedCount 1500 Ejemplo.bd
   = total (obtenerEstadisticas 2000 Ejemplo.bd))%nat.
Proof.
  apply (obtenerEstadisticas_coherente 1500 2000 Ejemplo.bd).
  lia.
Defined.

Lemma canje_ajeno_intocable_testigo :
  marcarEntregado (sin_fallas 40) 1%nat 2%nat Ejemplo.bd
  = ({| status := 404; mensaje := CanjeNoEncontrado |}, Ejemplo.bd) /\
  cancelar (sin_fallas 40) 1%nat 2%nat Ejemplo.bd
  = ({| status := 404; mensaje := CanjeNoEncontradoONoSePuedeCancelar |}, Ejemplo.bd) /\
  (CodigosUnicos Ejemplo.bd ->
   mayusculas "cj-00000001" = c_codigoCanje Ejemplo.canje1 ->
   validarCodigo mayusculas "cj-00000001" 2%nat Ejemplo.bd
   = ({| http := 404; cuerpo_de := CodigoNoEncontrado |}, Ejemplo.bd)).
Proof.
  apply (canje_ajeno_intocable mayusculas (sin_fallas 40) 1%nat 2%nat "cj-00000001"
           Ejemplo.bd Ejemplo.canje1).
  - reflexivity.
  - vm_compute. discriminate.
Defined.

(** ** One business's points and another's *)

Lemma findIndex_app_Some {A} (p : A -> bool) (l k : list A) (i : nat) :
  findIndex p l = Some i -> findIndex p (l ++ k) = Some i.
Proof.
  revert i. induction l as [|x l IH]; intros i; simpl; [done|].
  destruct (p x); [done|].
  destruct (findIndex p l) as [j|]; simpl; [|done].
  intros [= <-]. by rewrite (IH j).
Qed.

Lemma puntosEnEmpresa_alter_ajeno (e e' : Id) (f : PuntosEmpresa -> PuntosEmpresa)
    (i : nat) (l : list PuntosEmpresa) :
  e' <> e ->
  (forall pe, pe_empresa (f pe) = pe_empresa pe) ->
  findIndex (es_de_empresa e) l = Some i ->
  puntosEnEmpresa e' (alter f i l) = puntosEnEmpresa e' l.
Proof.
  intros Hne Hf Hi. unfold puntosEnEmpresa.
  rewrite findIndex_alter by (intros pe; unfold es_de_empresa; by rewrite Hf).
  destruct (findIndex (es_de_empresa e') l) as [j|] eqn:Hj; [|done].
  destruct (findIndex_Some _ _ _ Hi) as (x & Hx & Hpx).
  destruct (findIndex_Some _ _ _ Hj) as (y & Hy & Hpy).
  assert (i <> j).
  { intros ->. rewrite Hx in Hy. injection Hy as ->.
    unfold es_de_empresa in *. destruct (pe_empresa y); [|done].
    apply bool_decide_eq_true in Hpx, Hpy. congruence. }
  by rewrite list_lookup_alter_ne.
Qed.

Lemma puntosEnEmpresa_abonar_ajeno (t : Fecha) (e e' : Id) (p : Z) (l : list PuntosEmpresa) :
  e' <> e ->
  puntosEnEmpresa e' (abonar_empresa t e p l) = puntosEnEmpresa e' l.
Proof.
  intros Hne. unfold abonar_empresa.
  destruct (findIndex (es_de_empresa e) l) as [i|] eqn:Hi.
  - by apply (puntosEnEmpresa_alter_ajeno e).
  - unfold puntosEnEmpresa.
    destruct (findIndex (es_de_empresa e') l) as [j|] eqn:Hj.
    + rewrite (findIndex_app_Some _ _ _ _ Hj).
      destruct (findIndex_Some _ _ _ Hj) as (y & Hy & _).
      by rewrite lookup_app_l by (by eapply lookup_lt_Some).
    + rewrite findIndex_app_None by done. unfold es_de_empresa. simpl.
      by rewrite bool_decide_eq_false_2.
Qed.

Lemma puntosEnEmpresa_descontar_ajeno (e e' : Id) (idx : option nat) (p : Z)
    (l : list PuntosEmpresa) :
  e' <> e ->
  findIndex (es_de_empresa e) l = idx ->
  puntosEnEmpresa e' (descontar_empresa idx p l) = puntosEnEmpresa e' l.
Proof.
  intros Hne Hi. unfold descontar_empresa. destruct idx as [i|]; [|done].
  by apply (puntosEnEmpresa_alter_ajeno e).
Qed.

Lemma MismoSaldoEn_refl e bd : MismoSaldoEn e bd bd.
Proof. intros id u Hu. by exists u. Qed.

Lemma MismoSaldoEn_insert e bd bd1 id cli nuevo :
  usuarios bd !! id = Some cli ->
  puntosEnEmpresa e (u_puntosPorEmpresa nuevo) = puntosEnEmpresa e (u_puntosPorEmpresa cli) ->
  MismoSaldoEn e bd bd1 ->
  MismoSaldoEn e bd (con_usuarios (insert id nuevo) bd1).
Proof.
  intros Hcli Hn Hbd j u Hu. simpl. rewrite lookup_insert. case_decide.
  - subst j. exists nuevo. split; [done|]. congruence.
  - by apply Hbd.
Qed.

Lemma MismoSaldoEn_estadisticas e bd bd1 id m :
  MismoSaldoEn e bd bd1 ->
  MismoSaldoEn e bd (con_usuarios (alter (incrementar_estadisticas m) id) bd1).
Proof.
  intros Hbd j u Hu. destruct (Hbd j u Hu) as (u' & Hu' & Heq).
  simpl. rewrite lookup_alter. case_decide.
  - subst j. rewrite Hu'. simpl. eexists. split; [done|]. done.
  - by exists u'.
Qed.

Lemma MismoSaldoEn_qrtokens e bd bd1 f :
  MismoSaldoEn e bd bd1 -> MismoSaldoEn e bd (con_qrtokens f bd1).
Proof. done. Qed.

Lemma MismoSaldoEn_recompensas e bd bd1 f :
  MismoSaldoEn e bd bd1 -> MismoSaldoEn e bd (con_recompensas f bd1).
Proof. done. Qed.

Lemma MismoSaldoEn_canjes e bd bd1 f :
  MismoSaldoEn e bd bd1 -> MismoSaldoEn e bd (con_canjes f bd1).
Proof. done. Qed.

Lemma MismoSaldoEn_transacciones e bd bd1 f :
  MismoSaldoEn e bd bd1 -> MismoSaldoEn e bd (con_transacciones f bd1).
Proof. done. Qed.

Create HintDb ajeno.
#[local] Hint Resolve MismoSaldoEn_refl MismoSaldoEn_estadisticas MismoSaldoEn_qrtokens
  MismoSaldoEn_recompensas MismoSaldoEn_canjes MismoSaldoEn_transacciones : ajeno.

(** X28.  Dealings with one business leave the points held with
    another alone.  Whether the request succeeds, is refused or fails
    half way, a credit by a business, the redemption of a reward of a
    business, and a cancellation by a business change no user's
    balance with any other business. *)
Theorem saldo_con_otra_empresa_intacto e bd :
  (forall env empresaId empresa token monto,
     empresaId <> e ->
     MismoSaldoEn e bd (snd (agregarPuntos env empresaId empresa token monto bd))) /\
  (forall env clienteId rid rec codigoCanje,
     recompensas bd !! rid = Some rec ->
     r_empresa rec <> e ->
     MismoSaldoEn e bd (snd (canjear env clienteId (IdDado rid) codigoCanje bd))) /\
  (forall env canjeId empresaId,
     empresaId <> e ->
     MismoSaldoEn e bd (snd (cancelar env canjeId empresaId bd))).
Proof.
  split_and!.
  - intros env empresaId empresa token monto Hne.
    unfold agregarPuntos, acreditar, validarQR. desplegar.
    por_casos; eauto 10 with ajeno.
    all: repeat first [apply MismoSaldoEn_qrtokens | apply MismoSaldoEn_transacciones
                      | apply MismoSaldoEn_estadisticas].
    all: eapply MismoSaldoEn_insert; [done| |apply MismoSaldoEn_refl].
    all: simpl; by apply puntosEnEmpresa_abonar_ajeno.
  - intros env clienteId rid rec codigoCanje Hrec Hne.
    unfold canjear. desplegar. rewrite Hrec. simpl.
    por_casos; eauto 10 with ajeno.
    all: repeat first [apply MismoSaldoEn_recompensas | apply MismoSaldoEn_canjes].
    all: try apply MismoSaldoEn_refl.
    all: eapply MismoSaldoEn_insert; [done| |eauto with ajeno].
    all: simpl; by apply (puntosEnEmpresa_descontar_ajeno (r_empresa rec)).
  - intros env canjeId empresaId Hne.
    unfold cancelar, buscar_canje_pendiente, buscar_canje. desplegar.
    por_casos; eauto 10 with ajeno.
    all: decisiones.
    all: repeat first [apply MismoSaldoEn_recompensas | apply MismoSaldoEn_canjes].
    all: eapply MismoSaldoEn_insert; [done| |apply MismoSaldoEn_refl].
    all: simpl; apply puntosEnEmpresa_abonar_ajeno; congruence.
Qed.

Lemma saldo_con_otra_empresa_intacto_testigo :
  2%nat <> 3%nat /\
  MismoSaldoEn 3%nat Ejemplo.bd
    (snd (agregarPuntos (sin_fallas 10) 2%nat Ejemplo.empresa (Some "T"%string)
            (Some (Num (inject_Z 250))) Ejemplo.bd)).
Proof.
  assert (H : 2%nat <> 3%nat) by lia.
  split; [exact H|].
  exact (proj1 (saldo_con_otra_empresa_intacto 3%nat Ejemplo.bd) (sin_fallas 10) 2%nat
           Ejemplo.empresa (Some "T"%string) (Some (Num (inject_Z 250))) H).
Defined.
